(** * AI Data Agent: the chart pipeline of the browser front end

    A shallow embedding of the chart code of the front-end scripts.  Two
    revisions of the script are embedded:

    - [Part000], the dashboard revision (src/unnamed/part_000), with
      [aggregateDataForChart], [renderChart] and [updateResults];
    - [Script], the single-chart revision (src/static/script.js), with its
      [renderChart].

    Both run on the JavaScript values and built-ins of module [JS]. *)

From Stdlib Require Import ZArith NArith List String Ascii Bool Lia.
From Stdlib Require Import Permutation Sorted.
From Stdlib Require Import SpecFloat.
Import ListNotations.

Local Open Scope string_scope.
Local Open Scope Z_scope.

(** ** JavaScript values and built-ins *)

Module JS.

(** *** Numbers

    A JavaScript number is an IEEE 754 binary64 value with a single NaN:
    [spec_float] at precision 53 and maximal exponent 1024. *)

Definition number := spec_float.

Definition prec : Z := 53.
Definition emax : Z := 1024.

Definition NaN : number := S754_nan.
Definition Infinity : number := S754_infinity false.
Definition zero : number := S754_zero false.

(** The number [z], rounded to nearest even when it needs more than 53
    bits. *)
Definition ofZ (z : Z) : number := binary_normalize prec emax z 0 false.

Definition one : number := ofZ 1.

(** [q * 2^n] *)
Definition shifted (q : positive) (n : nat) : positive := Nat.iter n xO q.

(** The binary64 whose value is [q], for a [q] of at most 53 bits: the
    mantissa is [q] shifted to 53 bits. *)
Definition normal (q : positive) : number :=
  S754_finite false (shifted q (53 - Pos.to_nat (digits2_pos q)))
              (Zpos (digits2_pos q) - 53).

(** [x + y] on numbers. *)
Definition add (x y : number) : number := SFadd prec emax x y.

Definition isNaN (x : number) : bool :=
  match x with S754_nan => true | _ => false end.

Definition isZero (x : number) : bool :=
  match x with S754_zero _ => true | _ => false end.

(** The canonical representation of the value of [x] (a number read from
    JSON is already canonical). *)
Definition canon (x : number) : number :=
  match x with
  | S754_finite s m e => binary_normalize prec emax (cond_Zopp s (Zpos m)) e s
  | _ => x
  end.

Definition number_eqb (x y : number) : bool :=
  match x, y with
  | S754_zero a, S754_zero b => Bool.eqb a b
  | S754_infinity a, S754_infinity b => Bool.eqb a b
  | S754_nan, S754_nan => true
  | S754_finite a m e, S754_finite b n f =>
      Bool.eqb a b && Pos.eqb m n && Z.eqb e f
  | _, _ => false
  end.

(** The number nearest to the decimal [m * 10^p] with [0 <= m], negated
    when [neg]: the rounding of a numeric literal. *)
Definition ofDecimal (neg : bool) (m p : Z) : number :=
  match m with
  | Zpos mp =>
      if 0 <=? p
      then binary_normalize prec emax (cond_Zopp neg (m * 10 ^ p)) 0 neg
      else SFdiv prec emax (S754_finite neg mp 0)
                           (S754_finite false (Z.to_pos (10 ^ (- p))) 0)
  | _ => S754_zero neg
  end.

(** *** Strings

    A string is a sequence of code units; [string] has 8-bit characters, so
    the model covers the code units below 256. *)

Definition digitChar (d : Z) : ascii := ascii_of_nat (48 + Z.to_nat d).

Fixpoint digitsFuel (fuel : nat) (z : Z) (acc : string) : string :=
  match fuel with
  | O => acc
  | S fuel' =>
      let acc' := String (digitChar (z mod 10)) acc in
      if z <? 10 then acc' else digitsFuel fuel' (z / 10) acc'
  end.

(** The decimal digits of [z], for [0 <= z]. *)
Definition digitsOfZ (z : Z) : string :=
  digitsFuel (S (Z.to_nat (Z.log2 z))) z "".

Fixpoint zeros (n : nat) : string :=
  match n with
  | O => ""
  | S n' => String "0" (zeros n')
  end.

Definition isDigit (c : ascii) : bool :=
  let n := nat_of_ascii c in (48 <=? n)%nat && (n <=? 57)%nat.

Definition digitVal (c : ascii) : Z := Z.of_nat (nat_of_ascii c) - 48.

(** White space and line terminators that [parseFloat] skips. *)
Definition isWhiteSpace (c : ascii) : bool :=
  let n := nat_of_ascii c in
  ((9 <=? n)%nat && (n <=? 13)%nat) || (n =? 32)%nat || (n =? 160)%nat.

(** [String.prototype.toLowerCase] on the code units below 256. *)
Definition lowerChar (c : ascii) : ascii :=
  let n := nat_of_ascii c in
  if ((65 <=? n)%nat && (n <=? 90)%nat)
     || ((192 <=? n)%nat && (n <=? 222)%nat && negb (n =? 215)%nat)
  then ascii_of_nat (n + 32)
  else c.

Fixpoint toLowerCase (s : string) : string :=
  match s with
  | EmptyString => EmptyString
  | String c s' => String (lowerChar c) (toLowerCase s')
  end.

(** *** Number::toString

    The shortest decimal digits [s] (there are [k] of them) and the decimal
    point position [n] such that [s * 10^(n-k)] reads back as [x]; the
    closest to [x] when several qualify, the even one on a tie. *)

Section Shortest.
Variable x : number.
(** [x] is [num / den], positive. *)
Variables num den : Z.

(** [10^n <= x] *)
Definition geTen (n : Z) : bool :=
  if 0 <=? n then 10 ^ n * den <=? num else den <=? num * 10 ^ (- n).

(** The [n] with [10^(n-1) <= x < 10^n]. *)
Definition decimalPoint : Z :=
  let est := (Z.log2 num - Z.log2 den) * 30103 / 100000 in
  if negb (geTen est) then est
  else if negb (geTen (est + 1)) then est + 1
  else est + 2.

Definition readsBack (s p : Z) : bool := number_eqb (ofDecimal false s p) x.

(** The [k]-digit decimals around [x]: the one below, the remainder and
    the divisor that place [x] between it and the next. *)
Definition around (n0 k : Z) : Z * Z * Z :=
  let q := k - n0 in
  let a := if 0 <=? q then num * 10 ^ q else num in
  let b := if 0 <=? q then den else den * 10 ^ (- q) in
  (a / b, a mod b, b).

(** The [k]-digit candidate next to [x], if one reads back as [x]. *)
Definition candidate (n0 k : Z) : option Z :=
  let '(lo, r, b) := around n0 k in
  let hi := lo + 1 in
  let okLo := readsBack lo (n0 - k) in
  let okHi := negb (r =? 0) && readsBack hi (n0 - k) in
  match okLo, okHi with
  | true, true =>
      match 2 * r ?= b with
      | Lt => Some lo
      | Gt => Some hi
      | Eq => Some (if Z.even lo then lo else hi)
      end
  | true, false => Some lo
  | false, true => Some hi
  | false, false => None
  end.

(** Seventeen digits always suffice for a binary64, so that the search
    from one digit ends within its fuel. *)
Fixpoint shortestFrom (fuel : nat) (n0 k : Z) : Z * Z :=
  match fuel with
  | O => (fst (fst (around n0 k)), k)
  | S fuel' =>
      match candidate n0 k with
      | Some s => (s, k)
      | None => shortestFrom fuel' n0 (k + 1)
      end
  end.

(** [(s, k, n)] *)
Definition shortest : Z * Z * Z :=
  let n0 := decimalPoint in
  let '(s, k) := shortestFrom 17 n0 1 in
  if s =? 10 ^ k then (10 ^ (k - 1), k, n0 + 1) else (s, k, n0).
End Shortest.

Definition substring (from len : Z) (s : string) : string :=
  String.substring (Z.to_nat from) (Z.to_nat len) s.

Definition formatDecimal (s k n : Z) : string :=
  let digits := digitsOfZ s in
  if (k <=? n) && (n <=? 21) then digits ++ zeros (Z.to_nat (n - k))
  else if (0 <? n) && (n <=? 21)
  then substring 0 n digits ++ "." ++ substring n (k - n) digits
  else if (-6 <? n) && (n <=? 0) then "0." ++ zeros (Z.to_nat (- n)) ++ digits
  else
    let e := n - 1 in
    let exponent := (if e <? 0 then "-" else "+") ++ digitsOfZ (Z.abs e) in
    if k =? 1 then digits ++ "e" ++ exponent
    else substring 0 1 digits ++ "." ++ substring 1 (k - 1) digits
         ++ "e" ++ exponent.

Definition NumberToString (x : number) : string :=
  match canon x with
  | S754_nan => "NaN"
  | S754_zero _ => "0"
  | S754_infinity s => if s then "-Infinity" else "Infinity"
  | S754_finite s m e =>
      let num := if 0 <=? e then Zpos m * 2 ^ e else Zpos m in
      let den := if 0 <=? e then 1 else 2 ^ (- e) in
      let '(d, k, n) := shortest (S754_finite false m e) num den in
      (if s then "-" else "") ++ formatDecimal d k n
  end.

(** *** parseFloat on a string

    The longest prefix, after leading white space, that is a
    StrDecimalLiteral; NaN when there is none. *)

Fixpoint trimStart (s : string) : string :=
  match s with
  | String c s' => if isWhiteSpace c then trimStart s' else s
  | EmptyString => s
  end.

(** Reads decimal digits: the value (continuing [acc]), how many were
    read, and the rest of the string. *)
Fixpoint readDigits (s : string) (acc count : Z) : Z * Z * string :=
  match s with
  | String c s' =>
      if isDigit c then readDigits s' (10 * acc + digitVal c) (count + 1)
      else (acc, count, s)
  | EmptyString => (acc, count, s)
  end.

Definition readSign (s : string) : bool * string :=
  match s with
  | String "+" s' => (false, s')
  | String "-" s' => (true, s')
  | _ => (false, s)
  end.

(** The value of an ExponentPart at the head of [s], 0 when there is
    none. *)
Definition readExponent (s : string) : Z :=
  match s with
  | String c s' =>
      if Ascii.eqb c "e" || Ascii.eqb c "E" then
        let '(eneg, s'') := readSign s' in
        let '(ev, ecount, _) := readDigits s'' 0 0 in
        if ecount =? 0 then 0 else if eneg then - ev else ev
      else 0
  | EmptyString => 0
  end.

Definition parseUnsigned (neg : bool) (s : string) : number :=
  if String.prefix "Infinity" s then S754_infinity neg
  else
    let '(i, icount, r1) := readDigits s 0 0 in
    let '(m, fcount, r2) :=
      match r1 with
      | String "." r => readDigits r i 0
      | _ => (i, 0, r1)
      end in
    if (icount =? 0) && (fcount =? 0) then NaN
    else ofDecimal neg m (readExponent r2 - fcount).

Definition parseFloatString (s : string) : number :=
  let '(neg, s') := readSign (trimStart s) in
  parseUnsigned neg s'.


Local Open Scope list_scope.

(** *** Values

    What the scripts read from a row or from an accumulator object: a JSON
    scalar, [undefined] for an absent property, or a member inherited from
    [Object.prototype] (one of its built-in functions, named, or the object
    itself, which is what the [__proto__] getter returns). *)

Inductive value :=
| VUndefined
| VNull
| VBool (b : bool)
| VNumber (x : number)
| VString (s : string)
| VNative (name : string)
| VObjectPrototype.

(** The source text of a built-in function, as V8 prints it. *)
Definition nativeSource (name : string) : string :=
  ("function " ++ name ++ "() { [native code] }")%string.

(** [String(v)], also the conversion of [v] to a property key. *)
Definition ToString (v : value) : string :=
  match v with
  | VUndefined => "undefined"
  | VNull => "null"
  | VBool b => if b then "true" else "false"
  | VNumber x => NumberToString x
  | VString s => s
  | VNative name => nativeSource name
  | VObjectPrototype => "[object Object]"
  end.

(** ToBoolean *)
Definition truthy (v : value) : bool :=
  match v with
  | VUndefined | VNull => false
  | VBool b => b
  | VNumber x => negb (isNaN x || isZero x)
  | VString s => negb (s =? "")%string
  | VNative _ | VObjectPrototype => true
  end.

(** [a || b] *)
Definition or (a b : value) : value := if truthy a then a else b.

(** [a + b]: concatenation when an operand is, or converts to, a string;
    the sum of the operands as numbers otherwise. *)
Definition plus (a b : value) : value :=
  let numeric (v : value) : option number :=
    match v with
    | VUndefined => Some NaN
    | VNull => Some zero
    | VBool b => Some (if b then one else zero)
    | VNumber x => Some x
    | VString _ | VNative _ | VObjectPrototype => None
    end in
  match numeric a, numeric b with
  | Some x, Some y => VNumber (add x y)
  | _, _ => VString (ToString a ++ ToString b)%string
  end.

(** [parseFloat(v)] *)
Definition parseFloat (v : value) : number := parseFloatString (ToString v).

(** *** Objects

    An ordinary object whose prototype is [Object.prototype]: its own
    properties in creation order.  Rows (from [JSON.parse]) and the
    accumulators (from [{}]) are such objects. *)

Definition object := list (string * value).

Fixpoint lookup (k : string) (o : object) : option value :=
  match o with
  | [] => None
  | (k', v) :: o' => if (k' =? k)%string then Some v else lookup k o'
  end.

(** The names of the built-in functions of [Object.prototype]. *)
Definition prototypeMethods : list string :=
  [ "__defineGetter__"; "__defineSetter__"; "hasOwnProperty";
    "__lookupGetter__"; "__lookupSetter__"; "isPrototypeOf";
    "propertyIsEnumerable"; "toString"; "valueOf"; "toLocaleString" ].

(** What [Object.prototype] answers for the key [k]. *)
Definition prototypeGet (k : string) : value :=
  if (k =? "__proto__")%string then VObjectPrototype
  else if (k =? "constructor")%string then VNative "Object"
  else if existsb (String.eqb k) prototypeMethods then VNative k
  else VUndefined.

(** [o[k]] *)
Definition get (o : object) (k : string) : value :=
  match lookup k o with
  | Some v => v
  | None => prototypeGet k
  end.

Fixpoint replace (k : string) (v : value) (o : object) : object :=
  match o with
  | [] => []
  | (k', v') :: o' =>
      if (k' =? k)%string then (k', v) :: o' else (k', v') :: replace k v o'
  end.

(** [o[k] = v], for the primitive values the scripts assign: an own
    property is updated in place, a new one is created last, and the
    [__proto__] setter of [Object.prototype] ignores such a [v]. *)
Definition set (o : object) (k : string) (v : value) : object :=
  match lookup k o with
  | Some _ => replace k v o
  | None => if (k =? "__proto__")%string then o else o ++ [(k, v)]
  end.

(** An array index is the canonical decimal of an integer below
    [2^32 - 1]. *)
Definition arrayIndex (k : string) : option Z :=
  let '(v, count, rest) := readDigits k 0 0 in
  if (0 <? count) && (rest =? "")%string && (digitsOfZ v =? k)%string && (v <? 4294967295)
  then Some v else None.

Definition isArrayIndex (k : string) : bool :=
  match arrayIndex k with Some _ => true | None => false end.

Fixpoint insertByIndex (e : Z * (string * value))
    (l : list (Z * (string * value))) : list (Z * (string * value)) :=
  match l with
  | [] => [e]
  | h :: t => if fst e <? fst h then e :: l else h :: insertByIndex e t
  end.

Definition sortByIndex (l : list (Z * (string * value)))
  : list (Z * (string * value)) :=
  fold_right insertByIndex [] l.

(** The own properties whose key is an array index, with the index. *)
Fixpoint indexed (o : object) : list (Z * (string * value)) :=
  match o with
  | [] => []
  | (k, v) :: o' =>
      match arrayIndex k with
      | Some i => (i, (k, v)) :: indexed o'
      | None => indexed o'
      end
  end.

(** The own properties in the order of OrdinaryOwnPropertyKeys: the array
    indices in ascending order, then the other keys in creation order. *)
Definition entries (o : object) : list (string * value) :=
  map snd (sortByIndex (indexed o))
  ++ filter (fun kv => negb (isArrayIndex (fst kv))) o.

(** [Object.keys(o)] *)
Definition keys (o : object) : list string := map fst (entries o).

(** [Object.values(o)] *)
Definition values (o : object) : list value := map snd (entries o).

(** The own keys in creation order. *)
Definition created (o : object) : list string := map fst o.

(** The own keys after an assignment to [k]: [k] is new, and comes last,
    unless it is already there or is [__proto__]. *)
Definition addKey (ks : list string) (k : string) : list string :=
  if in_dec string_dec k ks then ks
  else if (k =? "__proto__")%string then ks
  else ks ++ [k].

(** Whether the own key [a], created at time [i], comes before the own key
    [b], created at time [j], in [Object.keys]: array indices by value,
    before every other key; the other keys by creation. *)
Definition ownKeyBefore (a : string) (i : nat) (b : string) (j : nat) : bool :=
  match arrayIndex a, arrayIndex b with
  | Some m, Some n => m <? n
  | Some _, None => true
  | None, Some _ => false
  | None, None => (i <? j)%nat
  end.

(** The accumulator of the counting branch after the labels [seen], as it
    should be: each of the keys [ks] with the number of its occurrences. *)
Definition tally (seen ks : list string) : object :=
  map (fun k => (k, VNumber (ofZ (Z.of_nat (count_occ string_dec seen k))))) ks.

(** [values.reduce((a, b) => a + b, 0)] *)
Definition total (values : list value) : value :=
  fold_left plus values (VNumber zero).

(** [l.indexOf(k)], with [None] for -1. *)
Fixpoint indexOf (k : string) (l : list string) : option nat :=
  match l with
  | [] => None
  | h :: t => if (h =? k)%string then Some O else option_map S (indexOf k t)
  end.

End JS.

(** ** The chart blueprint

    A chart configuration as the backend sends it: where Chart.js expects
    the label and value arrays it names the columns to plot, as a bare
    string or wrapped in an array. *)

Module Blueprint.
Import JS.
Local Open Scope list_scope.

Inductive reference :=
| Bare (name : string)
| Wrapped (names : list string).

(** [r[0]]: the first element of an array, the first code unit of a
    string. *)
Definition first (r : reference) : value :=
  match r with
  | Bare EmptyString => VUndefined
  | Bare (String c _) => VString (String c EmptyString)
  | Wrapped [] => VUndefined
  | Wrapped (name :: _) => VString name
  end.

(** Whether [r] is truthy: every array is, and every string but the empty
    one. *)
Definition present (r : reference) : bool :=
  match r with
  | Bare name => negb (name =? "")%string
  | Wrapped _ => true
  end.

(** The property key that [row[r]] reads: the string itself, the elements
    of an array joined by commas. *)
Definition propertyKey (r : reference) : string :=
  match r with
  | Bare name => name
  | Wrapped names => String.concat "," names
  end.

Record dataset := {
  data : option reference;
  backgroundColor : option string
}.

Record config := {
  type : option string;
  labels : option reference;
  datasets : list dataset;
  options : option object
}.

(** A blueprint whose first dataset names the value column by [value] and
    whose labels name the label column by [label]. *)
Definition blueprint (type : option string) (label value : reference)
    (color : option string) (others : list dataset) (options : option object)
  : config :=
  {| type := type;
     labels := Some label;
     datasets := {| data := Some value; backgroundColor := color |} :: others;
     options := options |}.

(** A step of a [try] block: [None] is a thrown exception. *)
Notation "x <- e ;; k" :=
  (match e with Some x => k | None => None end)
  (at level 61, e at next level, right associativity).

End Blueprint.

(** ** The dashboard revision (src/unnamed/part_000) *)

Module Part000.
Import JS Blueprint.
Local Open Scope list_scope.

Record aggregated := {
  agg_labels : list string;
  agg_values : list value
}.

Definition collect (o : object) : aggregated :=
  {| agg_labels := keys o; agg_values := values o |}.

Section Aggregation.
Variables labelKey dataKey : string.

(** [String(row[labelKey])], the label of a row. *)
Definition label (row : object) : string := ToString (get row labelKey).

(** The body of the [forEach] of the counting branch. *)
Definition countRow (counts row : object) : object :=
  let label := label row in
  set counts label
    (plus (or (get counts label) (VNumber zero)) (VNumber one)).

(** [parseFloat(row[dataKey]) || 0] *)
Definition cell (row : object) : value :=
  or (VNumber (parseFloat (get row dataKey))) (VNumber zero).

(** The body of the [forEach] of the already-aggregated branch. *)
Definition sumRow (aggregated row : object) : object :=
  let label := label row in
  let value := cell row in
  set aggregated label
    (plus (or (get aggregated label) (VNumber zero)) value).

(** The body of the [forEach] of the group-and-sum branch. *)
Definition groupRow (grouped row : object) : object :=
  let label := label row in
  let value := cell row in
  let grouped' :=
    if negb (truthy (get grouped label))
    then set grouped label (VNumber zero)
    else grouped in
  set grouped' label (plus (get grouped' label) value).

Definition countOccurrences (data : list object) : aggregated :=
  collect (fold_left countRow data []).

Definition sumAggregated (data : list object) : aggregated :=
  collect (fold_left sumRow data []).

Definition groupAndSum (data : list object) : aggregated :=
  collect (fold_left groupRow data []).

(** [row[dataKey] !== undefined] *)
Definition defined (row : object) : bool :=
  match get row dataKey with
  | VUndefined => false
  | _ => true
  end.

(** [labelKey] is only ever used as a property key, so it is taken as
    the string it converts to. *)
Definition aggregateDataForChart (data : list object) : aggregated :=
  if (toLowerCase dataKey =? "count")%string then countOccurrences data
  else if (Z.of_nat (List.length data) <? 50) && forallb defined data
  then sumAggregated data
  else groupAndSum data.

(** A value cell that [parseFloat] turns into NaN: a missing or null
    cell, a string that does not start with a number. *)
Definition unparseable (row : object) : bool :=
  isNaN (parseFloat (get row dataKey)).


(** The object that the branch taken fills. *)
Definition accumulator (data : list object) : object :=
  if (toLowerCase dataKey =? "count")%string then fold_left countRow data []
  else if (Z.of_nat (List.length data) <? 50) && forallb defined data
  then fold_left sumRow data []
  else fold_left groupRow data [].
End Aggregation.

(** *** renderChart and updateResults *)

(** The configuration handed to the [Chart] constructor: the blueprint
    with its column references replaced by the aggregated arrays (of the
    first dataset) and the two forced options. *)
Record chartConfig := {
  chart_type : string;
  chart_labels : list string;
  chart_values : list value;
  chart_options : object
}.

Record chartData := {
  title : option string;
  config : Blueprint.config
}.

(** [dataKey.toLowerCase()] throws unless [dataKey] is a string. *)
Definition asString (v : value) : option string :=
  match v with
  | VString s => Some s
  | _ => None
  end.

(** The [try] block of [renderChart] up to the [Chart] constructor;
    [data] is [data.results], which a response may lack. *)
Definition resolve (chartData : chartData) (data : option (list object))
  : option chartConfig :=
  let config := config chartData in
  labels <- labels config;;
  let labelKey := first labels in
  dataset <- hd_error (datasets config);;
  reference <- Blueprint.data dataset;;
  dataKey <- asString (first reference);;
  rows <- data;;
  let aggregated := aggregateDataForChart (ToString labelKey) dataKey rows in
  let options := match options config with Some o => o | None => [] end in
  let options := set options "responsive" (VBool true) in
  let options := set options "maintainAspectRatio" (VBool false) in
  type <- type config;;
  Some {| chart_type := type;
          chart_labels := agg_labels aggregated;
          chart_values := agg_values aggregated;
          chart_options := options |}.

(** A [Chart] instance: the canvas it draws on ([chart1] to [chart4], by
    number) and the order of its creation, which tells instances apart. *)
Record chart := {
  canvas : nat;
  uid : nat;
  shown : chartConfig
}.

(** The page: the [chartInstances] object, the instances that Chart.js
    holds (created and not destroyed) and how many were ever created. *)
Record page := {
  chartInstances : list (nat * chart);
  live : list chart;
  made : nat
}.

Definition initial : page :=
  {| chartInstances := []; live := []; made := O |}.

(** [chart.destroy()] *)
Definition destroy (p : page) (c : chart) : page :=
  {| chartInstances := chartInstances p;
     live := filter (fun c' => negb (uid c' =? uid c)%nat) (live p);
     made := made p |}.

(** [chartInstances[chartNum] = c] *)
Fixpoint assign (chartNum : nat) (c : chart) (m : list (nat * chart))
  : list (nat * chart) :=
  match m with
  | [] => [(chartNum, c)]
  | (n, c') :: m' =>
      if (n =? chartNum)%nat then (n, c) :: m'
      else (n, c') :: assign chartNum c m'
  end.

Definition renderChart (chartNum : nat) (chartData : chartData)
    (data : option (list object)) (p : page) : page :=
  match resolve chartData data with
  | Some config =>
      let c := {| canvas := chartNum; uid := made p; shown := config |} in
      {| chartInstances := assign chartNum c (chartInstances p);
         live := live p ++ [c];
         made := S (made p) |}
  | None => p
  end.

Record response := {
  sql_query : option string;
  results : option (list object);
  charts : option (list chartData)
}.

(** The start of [updateResults]: every instance is destroyed and
    [chartInstances] is emptied. *)
Definition reset (p : page) : page :=
  let p' := fold_left destroy (map snd (chartInstances p)) p in
  {| chartInstances := []; live := live p'; made := made p' |}.

(** [charts.slice(0, 4)] with the chart number [index + 1] of each. *)
Definition numbered (charts : list chartData) : list (nat * chartData) :=
  combine (seq 1 4) charts.

Definition renderEach (data : option (list object))
    (items : list (nat * chartData)) (p : page) : page :=
  fold_left (fun p item => renderChart (fst item) (snd item) data p) items p.

(** The charts that [updateResults] draws for a response. *)
Definition toDraw (r : response) : list (nat * chartData) :=
  match charts r with
  | Some charts => numbered charts
  | None => []
  end.

Definition updateResults (r : response) (p : page) : page :=
  renderEach (results r) (toDraw r) (reset p).

(** The live instances on the canvas [n]. *)
Definition on (n : nat) (p : page) : list chart :=
  filter (fun c => (canvas c =? n)%nat) (live p).

(** The states of the render loop: the page, the rows of the response at
    hand and the charts that [updateResults] has still to draw for it
    (none between two responses). *)
Inductive reachable
  : page -> option (list object) -> list (nat * chartData) -> Prop :=
| reach_initial : reachable initial None []
| reach_response p data r :
    reachable p data [] ->
    reachable (reset p) (results r) (toDraw r)
| reach_render p data n c rest :
    reachable p data ((n, c) :: rest) ->
    reachable (renderChart n c data p) data rest.

(** What holds of the page along the loop: Chart.js holds the instances
    of [chartInstances] and no other, each on the canvas of its key, and
    no canvas still to draw has an instance. *)
Definition consistent (p : page) (pending : list (nat * chartData)) : Prop :=
  live p = map snd (chartInstances p)
  /\ (forall n c, In (n, c) (chartInstances p) -> canvas c = n)
  /\ NoDup (map fst (chartInstances p) ++ map fst pending).

(** The value charted for the label [l]: the entry of [values] at the
    position of [l] in [labels]. *)
Definition pointOf (r : aggregated) (l : string) : option value :=
  lookup l (combine (agg_labels r) (agg_values r)).

(** The rows that have the label [l]. *)
Definition ofLabel (labelKey l : string) (data : list object) : list object :=
  filter (fun row => (label labelKey row =? l)%string) data.

(** The charts of a response that resolve, with their canvas: what is on
    the page once [updateResults] has run. *)
Definition drawn (data : option (list object))
    (items : list (nat * chartData)) : list (nat * chartConfig) :=
  flat_map (fun item =>
              match resolve (snd item) data with
              | Some config => [(fst item, config)]
              | None => []
              end) items.

(** A response with its list of charts cut to the first four. *)
Definition firstFour (r : response) : response :=
  {| sql_query := sql_query r;
     results := results r;
     charts := option_map (firstn 4) (charts r) |}.

(** What a chart instance shows, and where. *)
Definition look (c : chart) : nat * chartConfig := (canvas c, shown c).

End Part000.

(** ** The single-chart revision (src/static/script.js) *)

Module Script.
Import JS Blueprint.
Local Open Scope list_scope.

Record chartConfig := {
  chart_type : option string;
  chart_labels : list value;
  chart_values : list value;
  chart_color : string
}.

(** [if (!labelKey || !dataKey) throw ...] *)
Definition required (r : option reference) : option reference :=
  match r with
  | Some r' => if present r' then Some r' else None
  | None => None
  end.

(** The [try] block of [renderChart] up to the [Chart] constructor. *)
Definition resolve (config : config) (data : option (list object))
  : option chartConfig :=
  dataset <- hd_error (datasets config);;
  labelKey <- required (labels config);;
  dataKey <- required (Blueprint.data dataset);;
  rows <- data;;
  let labels := map (fun row => get row (propertyKey labelKey)) rows in
  let chartData := map (fun row => get row (propertyKey dataKey)) rows in
  let color :=
    match backgroundColor dataset with
    | Some c => if (c =? "")%string then "rgba(0, 122, 255, 0.6)" else c
    | None => "rgba(0, 122, 255, 0.6)"
    end in
  Some {| chart_type := type config;
          chart_labels := labels;
          chart_values := chartData;
          chart_color := color |}.

(** A [Chart] instance on the canvas [botChart]. *)
Record chart := {
  uid : nat;
  shown : chartConfig
}.

(** The page: the [chartInstance] variable, the instances that Chart.js
    holds (created and not destroyed) and how many were ever created. *)
Record page := {
  chartInstance : option chart;
  live : list chart;
  made : nat
}.

Definition initial : page :=
  {| chartInstance := None; live := []; made := O |}.

(** [if (chartInstance) chartInstance.destroy()] *)
Definition destroyPrevious (p : page) : page :=
  match chartInstance p with
  | Some c =>
      {| chartInstance := chartInstance p;
         live := filter (fun c' => negb (uid c' =? uid c)%nat) (live p);
         made := made p |}
  | None => p
  end.

Definition renderChart (config : config) (data : option (list object))
    (p : page) : page :=
  let p := destroyPrevious p in
  match resolve config data with
  | Some config' =>
      let c := {| uid := made p; shown := config' |} in
      {| chartInstance := Some c; live := live p ++ [c]; made := S (made p) |}
  | None => p
  end.

Record response := {
  sql_query : option string;
  results : option (list object);
  chart_config : option config
}.

(** What [updateInsights] does to the charts. *)
Definition updateInsights (r : response) (p : page) : page :=
  match chart_config r with
  | Some config => renderChart config (results r) p
  | None => p
  end.

(** The pages that the script reaches, response after response. *)
Inductive reachable : page -> Prop :=
| reach_initial : reachable initial
| reach_response p r : reachable p -> reachable (updateInsights r p).

End Script.

(** ** Rows and blueprints of the scenarios *)

Module Scenario.
Import JS Blueprint.
Local Open Scope list_scope.

(** A number literal. *)
Definition num (z : Z) : value := VNumber (ofZ z).

Definition str (s : string) : value := VString s.

(** [[{city:"NY",sales:10},{city:"NY",sales:5},{city:"LA",sales:7}]] *)
Definition sales : list object :=
  [ [("city", str "NY"); ("sales", num 10)];
    [("city", str "NY"); ("sales", num 5)];
    [("city", str "LA"); ("sales", num 7)] ].

(** A bar chart of the column [value] by the column [label], each wrapped
    in an array. *)
Definition bar (label value : string) : config :=
  {| type := Some "bar";
     labels := Some (Wrapped [label]);
     datasets := [ {| data := Some (Wrapped [value]);
                      backgroundColor := None |} ];
     options := None |}.

(** The same with the two column names as bare strings. *)
Definition bareBar (label value : string) : config :=
  {| type := Some "bar";
     labels := Some (Bare label);
     datasets := [ {| data := Some (Bare value);
                      backgroundColor := None |} ];
     options := None |}.

(** The options that [renderChart] forces. *)
Definition forced : object :=
  [("responsive", VBool true); ("maintainAspectRatio", VBool false)].

(** [[{city:"NY"},{city:"__proto__"},{city:"NY"}]] *)
Definition protoCity : list object :=
  [ [("city", str "NY")]; [("city", str "__proto__")]; [("city", str "NY")] ].



(** [[{year:2021,sales:1},{year:2020,sales:2}]] *)
Definition years : list object :=
  [ [("year", num 2021); ("sales", num 1)];
    [("year", num 2020); ("sales", num 2)] ].

(** [[{region:"north",sales:1},{region:"7",sales:2},{region:"south",sales:4},
      {region:"3",sales:8}]] *)
Definition regions : list object :=
  [ [("region", str "north"); ("sales", num 1)];
    [("region", str "7"); ("sales", num 2)];
    [("region", str "south"); ("sales", num 4)];
    [("region", str "3"); ("sales", num 8)] ].

(** [[{sales:10},{sales:5}]]: no row has a column [city]. *)
Definition noCity : list object :=
  [ [("sales", num 10)]; [("sales", num 5)] ].

(** A response with two charts of the sales rows. *)
Definition twoCharts : Part000.response :=
  {| Part000.sql_query := None;
     Part000.results := Some sales;
     Part000.charts :=
       Some [ {| Part000.title := None; Part000.config := bar "city" "sales" |};
              {| Part000.title := None; Part000.config := bar "city" "count" |} ]
  |}.

End Scenario.

(** ** The results panel of the dashboard revision (src/unnamed/part_000)

    What [updateResults] and [renderChart] write on the page besides the
    charts: the table of the rows, and for each of the four charts its
    canvas, placeholder, title and badge. *)

Module Results.
Import JS Blueprint Part000.
Local Open Scope list_scope.

(** The double quote of the markup. *)
Definition quote : string := String (ascii_of_nat 34) EmptyString.

(** [h.replace(/`/g, '')] *)
Fixpoint stripBackticks (h : string) : string :=
  match h with
  | EmptyString => EmptyString
  | String c h' =>
      if (nat_of_ascii c =? 96)%nat then stripBackticks h'
      else String c (stripBackticks h')
  end.

(** [headers.forEach(h => table += `<th>...</th>`)] *)
Definition headerCells (headers : list string) (table : string) : string :=
  fold_left
    (fun table h => (table ++ "<th>" ++ stripBackticks h ++ "</th>")%string)
    headers table.

(** One pass of [data.slice(0, 50).forEach(row => ...)]. *)
Definition bodyRow (headers : list string) (table : string) (row : object)
  : string :=
  let table := (table ++ "<tr>")%string in
  let table :=
    fold_left
      (fun table h =>
         (table ++ "<td>" ++ ToString (get row h) ++ "</td>")%string)
      headers table in
  (table ++ "</tr>")%string.

(** [`${data.length}`] *)
Definition count (data : list object) : string :=
  NumberToString (ofZ (Z.of_nat (List.length data))).

(** The note under a table that is cut. *)
Definition note (data : list object) : string :=
  ("<p style=" ++ quote
   ++ "text-align: center; color: #888; margin-top: 10px;" ++ quote
   ++ "><em>Showing first 50 rows of " ++ count data
   ++ " total rows</em></p>")%string.

(** [createTable(data)]; [Object.keys(data[0])] throws when [data] is
    empty. *)
Definition createTable (data : list object) : option string :=
  match data with
  | [] => None
  | first :: _ =>
      let headers := keys first in
      let table :=
        ("<div class=" ++ quote ++ "table-wrapper" ++ quote
         ++ "><table class=" ++ quote ++ "results-table" ++ quote
         ++ "><thead><tr>")%string in
      let table := headerCells headers table in
      let table := (table ++ "</tr></thead><tbody>")%string in
      let table := fold_left (bodyRow headers) (firstn 50 data) table in
      let table := (table ++ "</tbody></table></div>")%string in
      Some (if (50 <? List.length data)%nat
            then (table ++ note data)%string
            else table)
  end.

(** [String.prototype.toUpperCase] on the code units below 256; the result
    may leave them (for y with diaeresis and for the micro sign) or be
    longer (for the sharp s), so it is given as UTF-16 code units. *)
Definition upperChar (c : ascii) : list N :=
  let n := N_of_ascii c in
  if ((97 <=? n) && (n <=? 122))%N then [(n - 32)%N]
  else if (n =? 181)%N then [924%N]
  else if (n =? 223)%N then [83%N; 83%N]
  else if (((224 <=? n) && (n <=? 254))%N && negb (n =? 247)%N)%bool
       then [(n - 32)%N]
  else if (n =? 255)%N then [376%N]
  else [n].

Fixpoint toUpperCase (s : string) : list N :=
  match s with
  | EmptyString => []
  | String c s' => upperChar c ++ toUpperCase s'
  end.

(** The elements [chartN], [chartN-placeholder], [chartN-title] and
    [chartN-badge] of a chart number: the [style.display] of the canvas and
    of the placeholder, and the [textContent] of the other three. *)
Record slot := {
  canvasDisplay : string;
  placeholderDisplay : string;
  placeholderText : string;
  titleText : string;
  badgeText : list N
}.

(** What [resultsSection] holds: the [details] element of the query and
    the markup added to [innerHTML]. *)
Inductive part :=
| Details (sql_query : string)
| Markup (html : string).

Record view := {
  slots : nat -> slot;
  downloadBtn : string;
  resultsSection : list part
}.

(** A slot as the loop at the start of [updateResults] leaves it. *)
Definition waiting : slot :=
  {| canvasDisplay := "none";
     placeholderDisplay := "flex";
     placeholderText := "Waiting for data...";
     titleText := "";
     badgeText := [] |}.

(** The [try] block of [renderChart] up to the options (lines 218 to 239):
    the aggregated arrays and the options of the chart. *)
Definition prepare (chartData : chartData) (data : option (list object))
  : option (aggregated * object) :=
  let config := config chartData in
  labels <- labels config;;
  let labelKey := first labels in
  dataset <- hd_error (datasets config);;
  reference <- Blueprint.data dataset;;
  dataKey <- asString (first reference);;
  rows <- data;;
  let aggregated := aggregateDataForChart (ToString labelKey) dataKey rows in
  let options := match options config with Some o => o | None => [] end in
  let options := set options "responsive" (VBool true) in
  let options := set options "maintainAspectRatio" (VBool false) in
  Some (aggregated, options).

(** [chartData.title || `Chart ${chartNum}`] *)
Definition titleOf (chartNum : nat) (chartData : chartData) : string :=
  let numbered := ("Chart " ++ NumberToString (ofZ (Z.of_nat chartNum)))%string in
  match title chartData with
  | Some t => if (t =? "")%string then numbered else t
  | None => numbered
  end.

Section Messages.

(** [error.message], the engine's text for the exception that the [try]
    block of [renderChart] throws on a chart and rows. *)
Variable message : chartData -> option (list object) -> string.

(** The [catch] block of [renderChart]. *)
Definition failed (chartData : chartData) (data : option (list object))
    (s : slot) : slot :=
  {| canvasDisplay := "none";
     placeholderDisplay := "flex";
     placeholderText :=
       ("Failed to render chart: " ++ message chartData data)%string;
     titleText := titleText s;
     badgeText := badgeText s |}.

(** What [renderChart] does to the elements of its chart number. *)
Definition show (chartNum : nat) (chartData : chartData)
    (data : option (list object)) (s : slot) : slot :=
  match prepare chartData data with
  | None => failed chartData data s
  | Some _ =>
      let s := {| canvasDisplay := "block";
                  placeholderDisplay := "none";
                  placeholderText := placeholderText s;
                  titleText := titleOf chartNum chartData;
                  badgeText := badgeText s |} in
      match type (config chartData) with
      | None => failed chartData data s
      | Some type =>
          {| canvasDisplay := canvasDisplay s;
             placeholderDisplay := placeholderDisplay s;
             placeholderText := placeholderText s;
             titleText := titleText s;
             badgeText := toUpperCase type |}
      end
  end.

(** The slots with the one of [chartNum] replaced. *)
Definition update (slots : nat -> slot) (chartNum : nat) (s : slot)
  : nat -> slot :=
  fun n => if (n =? chartNum)%nat then s else slots n.

Definition renderChart (chartNum : nat) (chartData : chartData)
    (data : option (list object)) (s : page * view) : page * view :=
  let (p, v) := s in
  (Part000.renderChart chartNum chartData data p,
   {| slots := update (slots v) chartNum
                 (show chartNum chartData data (slots v chartNum));
      downloadBtn := downloadBtn v;
      resultsSection := resultsSection v |}).

(** [if (data.sql_query) ...]: the [details] element of the query. *)
Definition queryPart (r : response) : list part :=
  match sql_query r with
  | Some q => if (q =? "")%string then [] else [Details q]
  | None => []
  end.

(** [if (data.results && data.results.length > 0) ...]: the table. *)
Definition tablePart (r : response) : list part :=
  match results r with
  | Some (row :: rows) =>
      match createTable (row :: rows) with
      | Some table => [Markup table]
      | None => []
      end
  | _ => []
  end.

Definition updateResults (r : response) (s : page * view) : page * view :=
  let (p, v) := s in
  let p := reset p in
  let slots :=
    fold_left (fun slots i => update slots i waiting) (seq 1 4) (slots v) in
  let v := {| slots := slots;
              downloadBtn := "none";
              resultsSection := queryPart r ++ tablePart r |} in
  match charts r with
  | Some (chart :: charts) =>
      let s :=
        fold_left (fun s item => renderChart (fst item) (snd item) (results r) s)
                  (numbered (chart :: charts)) (p, v) in
      (fst s, {| slots := Results.slots (snd s);
                 downloadBtn := "block";
                 resultsSection := Results.resultsSection (snd s) |})
  | _ => (p, v)
  end.

End Messages.

(** The chart numbers in the order of [Object.keys(chartInstances)]:
    ascending. *)
Fixpoint insertKey (n : nat) (l : list nat) : list nat :=
  match l with
  | [] => [n]
  | m :: l' => if (n <=? m)%nat then n :: l else m :: insertKey n l'
  end.

Definition chartNums (p : page) : list nat :=
  fold_right insertKey [] (map fst (chartInstances p)).

(** [chartInstances[chartNum]] *)
Fixpoint instance (chartNum : nat) (m : list (nat * chart)) : option chart :=
  match m with
  | [] => None
  | (n, c) :: m' => if (n =? chartNum)%nat then Some c else instance chartNum m'
  end.

(** A link that the download handler clicks: the chart whose image it
    holds and the file name. *)
Record link := {
  image : chart;
  name : string
}.

(** The click handler of the download button; [now] gives [Date.now()] at
    each of its calls, counted from 0. *)
Fixpoint links (now : nat -> Z) (calls : nat) (nums : list nat)
    (m : list (nat * chart)) : list link :=
  match nums with
  | [] => []
  | chartNum :: nums' =>
      match instance chartNum m with
      | Some c =>
          {| image := c;
             name := ("chart_" ++ NumberToString (ofZ (Z.of_nat chartNum))
                      ++ "_" ++ NumberToString (ofZ (now calls))
                      ++ ".png")%string |}
          :: links now (S calls) nums' m
      | None => links now calls nums' m
      end
  end.

Definition download (now : nat -> Z) (p : page) : list link :=
  links now O (chartNums p) (chartInstances p).

End Results.

(** ** The insights panel of the single-chart revision (src/static/script.js) *)

Module Insights.
Import JS Blueprint Script.
Local Open Scope list_scope.

(** [createTable(data)]: the table of all the rows; its rows are built as
    in the dashboard revision. *)
Definition createTable (data : list object) : option string :=
  match data with
  | [] => None
  | first :: _ =>
      let headers := keys first in
      let table :=
        ("<div class=" ++ Results.quote ++ "table-wrapper" ++ Results.quote
         ++ ">")%string in
      let table := (table ++ "<table><thead><tr>")%string in
      let table :=
        fold_left (fun table h => (table ++ "<th>" ++ h ++ "</th>")%string)
                  headers table in
      let table := (table ++ "</tr></thead><tbody>")%string in
      let table := fold_left (Results.bodyRow headers) data table in
      Some (table ++ "</tbody></table></div>")%string
  end.

(** What [insightBox] holds: the [details] element of the query, the
    canvas [botChart], the paragraph of a chart that failed, the paragraph
    that says there is no analysis. *)
Inductive part :=
| Details (sql_query : string)
| Canvas
| Failure
| NoAnalysis.

Record view := {
  insightBox : list part;
  downloadBtn : string
}.

(** [data.sql_query] as a condition. *)
Definition hasQuery (r : response) : bool :=
  match sql_query r with
  | Some q => negb (q =? "")%string
  | None => false
  end.

Definition updateInsights (r : response) (s : page * view) : page * view :=
  let (p, v) := s in
  let box : list part := [] in
  let box :=
    match sql_query r with
    | Some q => if (q =? "")%string then box else box ++ [Details q]
    | None => box
    end in
  match chart_config r with
  | Some config =>
      let box := box ++ [Canvas] in
      let box :=
        match resolve config (results r) with
        | Some _ => box
        | None => box ++ [Failure]
        end in
      (renderChart config (results r) p,
       {| insightBox := box; downloadBtn := "block" |})
  | None =>
      (p, {| insightBox := if hasQuery r then box else [NoAnalysis];
             downloadBtn := "none" |})
  end.

(** [downloadChart]: the chart whose image is saved, if any. *)
Definition downloadChart (p : page) : option chart := chartInstance p.

End Insights.

(** ** The connection to a data source (src/unnamed/part_000) *)

Module Connection.
Local Open Scope list_scope.

(** [s.split(sep)] for a separator of one character. *)
Fixpoint split (sep : ascii) (s : string) : list string :=
  match s with
  | EmptyString => [EmptyString]
  | String c s' =>
      if (c =? sep)%char then EmptyString :: split sep s'
      else match split sep s' with
           | piece :: pieces => String c piece :: pieces
           | [] => [String c EmptyString]
           end
  end.

(** [reader.result.split(',')[1]], the [file_data] of the request that
    [connectDataSource] sends for a file; [None] is [undefined]. *)
Definition file_data (result : string) : option string :=
  nth_error (split "," result) 1.

(** Whether a string has no comma. *)
Fixpoint commaFree (s : string) : bool :=
  match s with
  | EmptyString => true
  | String c s' => negb (c =? ",")%char && commaFree s'
  end.

End Connection.

(** ** The chat transcript (src/unnamed/part_000 and src/static/script.js)

    The elements under [chatBox], as far as the scripts look at them:
    their classes and their children.  The markup that a script assigns
    to [innerHTML] goes through the parser of the browser, [parse]
    below.  The scroll position of [chatBox] is left out. *)

Module Chat.
Import JS.
Local Open Scope list_scope.

Local Unset Elimination Schemes.

Inductive node :=
| Element (classes : list string) (children : list node)
| Text (data : string).

Local Set Elimination Schemes.

(** Whether an element matches [.loading]. *)
Definition isLoading (classes : list string) : bool :=
  existsb (String.eqb "loading") classes.

(** [classList.remove('loading')] *)
Definition removeLoading (classes : list string) : list string :=
  filter (fun c => negb (c =? "loading")%string) classes.

(** Whether [.loading] matches the node or one below it. *)
Fixpoint loadingIn (n : node) : bool :=
  match n with
  | Element classes children => isLoading classes || existsb loadingIn children
  | Text _ => false
  end.

(** The first node of a list, in document order, that [f] changes. *)
Fixpoint firstOf (f : node -> option node) (l : list node)
  : option (list node) :=
  match l with
  | [] => None
  | n :: l' =>
      match f n with
      | Some n' => Some (n' :: l')
      | None => option_map (cons n) (firstOf f l')
      end
  end.

(** On the first element at or below [n] that matches [.loading], in
    document order: [innerHTML = ...] with the parsed markup [html], and
    [classList.remove('loading')]. *)
Fixpoint answerNode (html : list node) (n : node) : option node :=
  match n with
  | Element classes children =>
      if isLoading classes then Some (Element (removeLoading classes) html)
      else option_map (Element classes) (firstOf (answerNode html) children)
  | Text _ => None
  end.

(** The same on [chatBox.querySelector('.loading')]; [None] when the
    selector matches nothing. *)
Definition answerFirst (html : list node) (chatBox : list node)
  : option (list node) :=
  firstOf (answerNode html) chatBox.

(** [s.trimEnd()] *)
Fixpoint trimEnd (s : string) : string :=
  match s with
  | EmptyString => EmptyString
  | String c s' =>
      let rest := trimEnd s' in
      if isWhiteSpace c && (rest =? "")%string then EmptyString
      else String c rest
  end.

(** [s.trim()] *)
Definition trim (s : string) : string := trimEnd (trimStart s).

(** Whether every character of [s] is white space. *)
Fixpoint blank (s : string) : bool :=
  match s with
  | EmptyString => true
  | String c s' => isWhiteSpace c && blank s'
  end.

(** The transcript and the text in the input field. *)
Record state := {
  chatBox : list node;
  userInput : string
}.

Section Parser.
Variable parse : string -> list node.

(** [appendChatMessage(content, className, isLoading)]; the callers pass
    one class name, [user-message] or [bot-message]. *)
Definition appendChatMessage (content className : string) (isLoading : bool)
    (chatBox : list node) : list node :=
  let classes := ["message"; className] in
  let classes := if isLoading then classes ++ ["loading"] else classes in
  chatBox ++ [Element classes (parse content)].

(** [sendMessage] up to the request, for the text [waiting] of the
    message that waits for the answer: the state, and the prompt sent if
    one is. *)
Definition send (waiting : string) (s : state) : state * option string :=
  let prompt := trim (userInput s) in
  if (prompt =? "")%string then (s, None)
  else
    let chat := appendChatMessage prompt "user-message" false (chatBox s) in
    let chat := appendChatMessage waiting "bot-message" true chat in
    ({| chatBox := chat; userInput := "" |}, Some prompt).

End Parser.

(** *** The dashboard revision *)

Module Dashboard.
Section Parser.
Variable parse : string -> list node.

Definition sendMessage (s : state) : state * option string :=
  send parse "<p>Analyzing...</p>" s.

(** [chatHtml] of [updateChat], for [data.analysis.summary] if there is
    one. *)
Definition chatHtml (summary : option string) : string :=
  match summary with
  | Some text =>
      if (text =? "")%string then "<p>Analysis complete.</p>"
      else ("<p>" ++ text ++ "</p>")%string
  | None => "<p>Analysis complete.</p>"
  end.

Definition updateChat (summary : option string) (chatBox : list node)
  : list node :=
  let chatHtml := chatHtml summary in
  match answerFirst (parse chatHtml) chatBox with
  | Some chatBox' => chatBox'
  | None => appendChatMessage parse chatHtml "bot-message" false chatBox
  end.

End Parser.
End Dashboard.

(** *** The single-chart revision *)

Module Single.
Section Parser.
Variable parse : string -> list node.

Definition sendMessage (s : state) : state * option string :=
  send parse "<p>Thinking...</p>" s.

(** [chatHtml] of [updateChat], for [data.analysis.summary] and
    [data.results] as far as they are there. *)
Definition chatHtml (summary : option string) (results : option (list object))
  : string :=
  let chatHtml := EmptyString in
  let chatHtml :=
    match summary with
    | Some text =>
        if (text =? "")%string then chatHtml
        else (chatHtml ++ "<p>" ++ text ++ "</p>")%string
    | None => chatHtml
    end in
  match results with
  | Some (row :: rows) =>
      match Insights.createTable (row :: rows) with
      | Some table => (chatHtml ++ table)%string
      | None => chatHtml
      end
  | _ => chatHtml
  end.

Definition updateChat (summary : option string)
    (results : option (list object)) (chatBox : list node) : list node :=
  let chatHtml := chatHtml summary results in
  let shown :=
    if (trim chatHtml =? "")%string
    then "<p>I've processed your request. See the insights panel for details.</p>"
    else chatHtml in
  match answerFirst (parse shown) chatBox with
  | Some chatBox' => chatBox'
  | None => chatBox
  end.

End Parser.
End Single.

End Chat.

(** ** More rows and responses, for the further properties *)

Module Cases.
Import JS Blueprint.
Local Open Scope list_scope.

(** [[{city:"NY",sales:10},{city:"LA",sales:"7 units"},{city:"SF"}]] *)
Definition cities : list object :=
  [ [("city", VString "NY"); ("sales", VNumber (ofZ 10))];
    [("city", VString "LA"); ("sales", VString "7 units")];
    [("city", VString "SF")] ].

(** [[{city:"NY",sales:"n/a"},{city:"LA"},{city:"NY",sales:null}]] *)
Definition unknownSales : list object :=
  [ [("city", VString "NY"); ("sales", VString "n/a")];
    [("city", VString "LA")];
    [("city", VString "NY"); ("sales", VNull)] ].

(** A blueprint that comes with options of its own. *)
Definition withOptions : Part000.chartData :=
  {| Part000.title := Some "Sales";
     Part000.config :=
       blueprint (Some "line") (Wrapped ["city"]) (Wrapped ["sales"]) None []
                 (Some [("responsive", VBool false); ("animation", VBool false)])
  |}.

(** A response with six charts, the second with no type and the third
    with no dataset. *)
Definition sixCharts : Part000.response :=
  let chart := {| Part000.title := None;
                  Part000.config := Scenario.bar "city" "sales" |} in
  {| Part000.sql_query := Some "SELECT city, sales FROM t";
     Part000.results := Some Scenario.sales;
     Part000.charts :=
       Some [ chart;
              {| Part000.title := None;
                 Part000.config :=
                   blueprint None (Wrapped ["city"]) (Wrapped ["sales"])
                             None [] None |};
              {| Part000.title := Some "No data";
                 Part000.config :=
                   {| type := Some "pie"; labels := Some (Wrapped ["city"]);
                      datasets := []; options := None |} |};
              withOptions; chart; chart ] |}.

End Cases.

(** * Properties *)

Import JS Blueprint.
Local Open Scope list_scope.

#[local] Arguments arrayIndex : simpl never.
#[local] Arguments isArrayIndex : simpl never.
#[local] Arguments NumberToString : simpl never.
#[local] Arguments parseFloatString : simpl never.
#[local] Arguments add : simpl never.
#[local] Arguments ofZ : simpl never.
#[local] Arguments Z.of_nat : simpl never.

(** ** The built-ins on known values *)

Example toString_integer : NumberToString (ofZ 2021) = "2021".
Proof. vm_compute. reflexivity. Qed.

Example toString_tenth : NumberToString (ofDecimal false 1 (-1)) = "0.1".
Proof. vm_compute. reflexivity. Qed.

Example toString_sum :
  NumberToString (add (ofDecimal false 1 (-1)) (ofDecimal false 2 (-1)))
  = "0.30000000000000004".
Proof. vm_compute. reflexivity. Qed.

Example toString_large : NumberToString (ofDecimal false 1 21) = "1e+21".
Proof. vm_compute. reflexivity. Qed.

Example toString_small : NumberToString (ofDecimal true 123 (-9)) = "-1.23e-7".
Proof. vm_compute. reflexivity. Qed.

Example parseFloat_prefix : parseFloatString "  12.5e1px" = ofZ 125.
Proof. vm_compute. reflexivity. Qed.

Example parseFloat_infinity : parseFloatString "-Infinity" = S754_infinity true.
Proof. vm_compute. reflexivity. Qed.

Example parseFloat_undefined : parseFloat VUndefined = NaN.
Proof. vm_compute. reflexivity. Qed.

Example parseFloat_number : parseFloat (VNumber (ofZ 10)) = ofZ 10.
Proof. vm_compute. reflexivity. Qed.

Example keys_in_order :
  keys [("b", VNull); ("10", VNull); ("a", VNull); ("9", VNull); ("01", VNull)]
  = ["9"; "10"; "b"; "a"; "01"].
Proof. vm_compute. reflexivity. Qed.

Example inherited_member :
  plus (get [] "toString") (VNumber one)
  = VString "function toString() { [native code] }1".
Proof. vm_compute. reflexivity. Qed.

Example proto_assignment : set [] "__proto__" (VNumber one) = [].
Proof. reflexivity. Qed.

(** ** Sums of natural numbers below [2^53] *)

Section Exactness.

Lemma digits_shifted q n :
  Zpos (digits2_pos (shifted q n)) = Zpos (digits2_pos q) + Z.of_nat n.
Proof.
  induction n as [|n IH]; simpl; [lia|].
  rewrite Pos2Z.inj_succ, IH. lia.
Qed.

Lemma iter_pos_nat {A} (f : A -> A) (k : positive) (x : A) :
  iter_pos f k x = Nat.iter (Pos.to_nat k) f x.
Proof.
  revert x. induction k as [k IH|k IH|]; intros x; cbn [iter_pos].
  - rewrite !IH, Pos2Nat.inj_xI, Nat.iter_succ_r.
    replace (2 * Pos.to_nat k)%nat with (Pos.to_nat k + Pos.to_nat k)%nat by lia.
    now rewrite Nat.iter_add.
  - rewrite !IH, Pos2Nat.inj_xO.
    replace (2 * Pos.to_nat k)%nat with (Pos.to_nat k + Pos.to_nat k)%nat by lia.
    now rewrite Nat.iter_add.
  - reflexivity.
Qed.

Lemma pos_iter_shifted q n k :
  Pos.iter xO (shifted q n) k = shifted q (Pos.to_nat k + n).
Proof.
  rewrite Pos2Nat.inj_iter. unfold shifted.
  change (Nat.iter (Pos.to_nat k) xO (Nat.iter n xO q)
          = Nat.iter (Pos.to_nat k + n) xO q).
  now rewrite Nat.iter_add.
Qed.

Lemma shr_shifted q n k :
  Nat.iter k shr_1
    {| shr_m := Zpos (shifted q (k + n)); shr_r := false; shr_s := false |}
  = {| shr_m := Zpos (shifted q n); shr_r := false; shr_s := false |}.
Proof.
  induction k as [|k IH]; [reflexivity|].
  rewrite Nat.iter_succ_r. exact IH.
Qed.

Lemma digits_bound q : Zpos q < 2 ^ 53 -> Zpos (digits2_pos q) <= 53.
Proof.
  intros H.
  assert (Hs : forall p, 2 ^ (Zpos (digits2_pos p) - 1) <= Zpos p).
  { induction p as [p IH|p IH|]; cbn [digits2_pos].
    - rewrite Pos2Z.inj_succ.
      replace (Z.succ (Zpos (digits2_pos p)) - 1) with (Z.succ (Zpos (digits2_pos p) - 1)) by lia.
      rewrite Z.pow_succ_r by lia. lia.
    - rewrite Pos2Z.inj_succ.
      replace (Z.succ (Zpos (digits2_pos p)) - 1) with (Z.succ (Zpos (digits2_pos p) - 1)) by lia.
      rewrite Z.pow_succ_r by lia. lia.
    - simpl. lia. }
  destruct (Z_le_gt_dec (Zpos (digits2_pos q)) 53) as [|Hgt]; auto.
  specialize (Hs q).
  assert (2 ^ 53 <= 2 ^ (Zpos (digits2_pos q) - 1)) by (apply Z.pow_le_mono_r; lia).
  lia.
Qed.

(** The second half of [binary_round]: a mantissa of [q], shifted so that
    it has 53 bits or more, at the matching exponent. *)
Lemma round_aux_shifted q j :
  Zpos (digits2_pos q) <= 53 ->
  53 <= Zpos (digits2_pos q) + Z.of_nat j ->
  binary_round_aux prec emax false (Zpos (shifted q j)) (- Z.of_nat j) loc_Exact
  = normal q.
Proof.
  intros Hd Hj.
  set (d := Zpos (digits2_pos q)) in *.
  assert (Hd1 : 1 <= d) by (unfold d; lia).
  unfold binary_round_aux, shr_fexp, fexp, emin, prec, emax. 
  cbn [Zdigits2 shr_record_of_loc].
  rewrite digits_shifted. fold d.
  replace (Z.max (d + Z.of_nat j + - Z.of_nat j - 53) (3 - 1024 - 53)
           - - Z.of_nat j) with (d + Z.of_nat j - 53) by lia.
  set (k := (Pos.to_nat (digits2_pos q) + j - 53)%nat).
  assert (Hk : d + Z.of_nat j - 53 = Z.of_nat k) by (unfold k, d; lia).
  assert (Hjk : j = (k + (53 - Pos.to_nat (digits2_pos q)))%nat) by (unfold k, d in *; lia).
  assert (Hshr : shr {| shr_m := Zpos (shifted q j); shr_r := false; shr_s := false |}
                   (- Z.of_nat j) (d + Z.of_nat j - 53)
                 = ({| shr_m := Zpos (shifted q (53 - Pos.to_nat (digits2_pos q)));
                       shr_r := false; shr_s := false |}, d - 53)).
  { unfold shr.
    destruct (d + Z.of_nat j - 53) as [|p|p] eqn:E; try lia.
    - f_equal; [|lia]. rewrite Hjk at 1. replace k with O by lia. reflexivity.
    - rewrite iter_pos_nat.
      replace (Pos.to_nat p) with k by lia.
      f_equal; [|lia].
      rewrite Hjk at 1. apply shr_shifted. }
  rewrite Hshr. cbn [shr_m loc_of_shr_record round_nearest_even Zdigits2 shr_record_of_loc].
  rewrite digits_shifted. fold d.
  replace (Z.max (d + Z.of_nat (53 - Pos.to_nat (digits2_pos q)) + (d - 53) - 53) (3 - 1024 - 53) - (d - 53)) with 0 by (unfold d in *; lia).
  cbn [shr shr_m].
  replace (d - 53 <=? 1024 - 53) with true by (symmetry; apply Z.leb_le; lia).
  reflexivity.
Qed.

(** [binary_round] finds the binary64 of a mantissa of at most 53
    significant bits. *)
Lemma round_shifted q j :
  Zpos (digits2_pos q) <= 53 ->
  binary_round prec emax false (shifted q j) (- Z.of_nat j) = normal q.
Proof.
  intros Hd. unfold binary_round, shl_align, fexp, emin.
  rewrite digits_shifted.
  set (d := Zpos (digits2_pos q)) in *.
  assert (Hd1 : 1 <= d) by (unfold d; lia).
  replace (Z.max (d + Z.of_nat j + - Z.of_nat j - prec) (3 - emax - prec)
           - - Z.of_nat j) with (d + Z.of_nat j - 53) by (unfold prec, emax; lia).
  destruct (d + Z.of_nat j - 53) as [|p|p] eqn:E.
  - apply round_aux_shifted; fold d; lia.
  - apply round_aux_shifted; fold d; lia.
  - rewrite pos_iter_shifted.
    replace (Z.max (d + Z.of_nat j + - Z.of_nat j - prec) (3 - emax - prec))
      with (- Z.of_nat (Pos.to_nat p + j)) by (unfold prec, emax; lia).
    apply round_aux_shifted; fold d; lia.
Qed.

Lemma ofZ_normal q : Zpos q < 2 ^ 53 -> ofZ (Zpos q) = normal q.
Proof.
  intros H. apply (round_shifted q 0). now apply digits_bound.
Qed.

Lemma shifted_add p q n : (shifted p n + shifted q n)%positive = shifted (p + q) n.
Proof. induction n as [|n IH]; simpl; [reflexivity|]. now rewrite IH. Qed.

Lemma shl_align_normal q (e : Z) :
  Zpos (digits2_pos q) <= 53 -> e <= Zpos (digits2_pos q) - 53 -> 
  fst (shl_align (shifted q (53 - Pos.to_nat (digits2_pos q)))
                 (Zpos (digits2_pos q) - 53) e)
  = shifted q (Z.to_nat (- e)).
Proof.
  intros Hd He. unfold shl_align.
  destruct (e - (Zpos (digits2_pos q) - 53)) as [|p|p] eqn:E; try lia; cbn [fst].
  - f_equal. lia.
  - rewrite pos_iter_shifted. f_equal. lia.
Qed.

Lemma add_normal p q :
  Zpos (p + q) < 2 ^ 53 -> add (normal p) (normal q) = normal (p + q).
Proof.
  intros H.
  assert (Hp : Zpos (digits2_pos p) <= 53) by (apply digits_bound; lia).
  assert (Hq : Zpos (digits2_pos q) <= 53) by (apply digits_bound; lia).
  unfold add, normal, SFadd.
  set (ez := Z.min (Zpos (digits2_pos p) - 53) (Zpos (digits2_pos q) - 53)).
  rewrite !shl_align_normal by (unfold ez; lia).
  cbn [cond_Zopp]. rewrite <- Pos2Z.inj_add, shifted_add.
  cbn [binary_normalize].
  replace ez with (- Z.of_nat (Z.to_nat (- ez))) at 2 by (unfold ez; lia).
  apply round_shifted. now apply digits_bound.
Qed.

(** Below [2^53] the sum of two natural numbers is exact. *)
Lemma add_exact (a b : Z) :
  0 <= a -> 0 <= b -> a + b < 2 ^ 53 -> add (ofZ a) (ofZ b) = ofZ (a + b).
Proof.
  intros Ha Hb H.
  destruct a as [|p|p]; [|clear Ha|lia]; destruct b as [|q|q]; try lia;
    try reflexivity.
  - simpl Z.add. rewrite ofZ_normal by lia. reflexivity.
  - rewrite Z.add_0_r. rewrite ofZ_normal by lia. reflexivity.
  - rewrite !ofZ_normal by lia. simpl Z.add. rewrite ofZ_normal by lia.
    now apply add_normal.
Qed.

End Exactness.

(** ** Own properties of an object *)

Section ObjectFacts.

Lemma lookup_None (k : string) (o : object) :
  lookup k o = None <-> ~ In k (created o).
Proof.
  unfold created. induction o as [|[k' v] o IH]; simpl.
  - tauto.
  - destruct (String.eqb_spec k' k) as [->|Hne].
    + split; [discriminate | intros H; exfalso; apply H; now left].
    + rewrite IH. tauto.
Qed.

Lemma lookup_Some_In (k : string) (o : object) (v : value) :
  lookup k o = Some v -> In k (created o).
Proof.
  intros H. destruct (in_dec string_dec k (created o)) as [|Hn]; auto.
  apply lookup_None in Hn. congruence.
Qed.

Lemma created_replace (k : string) (v : value) (o : object) :
  created (replace k v o) = created o.
Proof.
  unfold created. induction o as [|[k' v'] o IH]; simpl; auto.
  destruct (k' =? k)%string; simpl; congruence.
Qed.

Lemma lookup_replace (k : string) (v w : value) (o : object) :
  lookup k o = Some w -> lookup k (replace k v o) = Some v.
Proof.
  induction o as [|[k' v'] o IH]; simpl; [discriminate|].
  destruct (k' =? k)%string eqn:E; simpl; rewrite E; auto.
Qed.

Lemma replace_replace (k : string) (v w : value) (o : object) :
  replace k v (replace k w o) = replace k v o.
Proof.
  induction o as [|[k' v'] o IH]; simpl; auto.
  destruct (k' =? k)%string eqn:E; simpl; rewrite E; congruence.
Qed.

Lemma lookup_app_new (k : string) (v : value) (o : object) :
  lookup k o = None -> lookup k (o ++ [(k, v)]) = Some v.
Proof.
  induction o as [|[k' v'] o IH]; simpl.
  - now rewrite String.eqb_refl.
  - destruct (k' =? k)%string; [discriminate | auto].
Qed.

Lemma replace_app_new (k : string) (v w : value) (o : object) :
  lookup k o = None -> replace k v (o ++ [(k, w)]) = o ++ [(k, v)].
Proof.
  induction o as [|[k' v'] o IH]; simpl.
  - now rewrite String.eqb_refl.
  - destruct (k' =? k)%string; [discriminate | intros; f_equal; auto].
Qed.

Lemma addKey_old (ks : list string) (k : string) :
  In k ks -> addKey ks k = ks.
Proof.
  intros H. unfold addKey. destruct (in_dec string_dec k ks); tauto.
Qed.

Lemma addKey_proto (ks : list string) : addKey ks "__proto__" = ks.
Proof.
  unfold addKey. destruct (in_dec string_dec "__proto__" ks); auto.
Qed.

Lemma addKey_new (ks : list string) (k : string) :
  ~ In k ks -> k <> "__proto__" -> addKey ks k = ks ++ [k].
Proof.
  intros H Hp. unfold addKey.
  destruct (in_dec string_dec k ks); [tauto|].
  destruct (String.eqb_spec k "__proto__"); tauto.
Qed.

Lemma addKey_cases (ks : list string) (k : string) :
  (addKey ks k = ks /\ (In k ks \/ k = "__proto__"))
  \/ (addKey ks k = ks ++ [k] /\ ~ In k ks /\ k <> "__proto__").
Proof.
  destruct (in_dec string_dec k ks) as [Hin|Hn].
  - left. split; [now apply addKey_old | now left].
  - destruct (string_dec k "__proto__") as [->|Hp].
    + left. split; [apply addKey_proto | now right].
    + right. split; [now apply addKey_new | tauto].
Qed.

Lemma created_set (o : object) (k : string) (v : value) :
  created (set o k v) = addKey (created o) k.
Proof.
  unfold set.
  destruct (lookup k o) eqn:E.
  - apply lookup_Some_In in E. rewrite addKey_old by assumption.
    apply created_replace.
  - apply lookup_None in E.
    destruct (String.eqb_spec k "__proto__") as [->|Hp].
    + now rewrite addKey_proto.
    + rewrite addKey_new by assumption.
      unfold created. now rewrite map_app.
Qed.

Lemma addKey_idem (ks : list string) (k : string) :
  addKey (addKey ks k) k = addKey ks k.
Proof.
  destruct (addKey_cases ks k) as [[E H]|[E [Hn Hp]]]; rewrite E.
  - exact E.
  - apply addKey_old. apply in_or_app. right. now left.
Qed.

End ObjectFacts.

(** ** The order of [Object.keys] *)

Section KeyOrder.

Lemma insertByIndex_perm e l : Permutation (insertByIndex e l) (e :: l).
Proof.
  induction l as [|h t IH]; simpl; auto.
  destruct (fst e <? fst h); auto.
  eapply perm_trans; [apply perm_skip, IH | apply perm_swap].
Qed.

Lemma sortByIndex_perm l : Permutation (sortByIndex l) l.
Proof.
  induction l as [|e l IH]; simpl; auto.
  eapply perm_trans; [apply insertByIndex_perm | now apply perm_skip].
Qed.

Lemma indexed_filter (o : object) :
  map snd (indexed o) = filter (fun kv => isArrayIndex (fst kv)) o.
Proof.
  induction o as [|[k v] o IH]; simpl; auto.
  assert (E : isArrayIndex k
              = match arrayIndex k with Some _ => true | None => false end)
    by reflexivity.
  destruct (arrayIndex k); rewrite E; simpl; congruence.
Qed.

Lemma filter_split_perm {A : Type} (f : A -> bool) (l : list A) :
  Permutation (filter f l ++ filter (fun x => negb (f x)) l) l.
Proof.
  induction l as [|x l IH]; simpl; auto.
  destruct (f x); simpl.
  - now apply perm_skip.
  - apply Permutation_sym, Permutation_cons_app, Permutation_sym, IH.
Qed.

Lemma entries_perm (o : object) : Permutation (entries o) o.
Proof.
  unfold entries.
  eapply perm_trans; [|apply (filter_split_perm (fun kv => isArrayIndex (fst kv)))].
  apply Permutation_app_tail. rewrite <- indexed_filter.
  apply Permutation_map, sortByIndex_perm.
Qed.

Lemma keys_perm (o : object) : Permutation (keys o) (created o).
Proof. apply Permutation_map, entries_perm. Qed.

Lemma keys_NoDup (o : object) : NoDup (created o) -> NoDup (keys o).
Proof.
  intros H. eapply Permutation_NoDup; [|exact H].
  apply Permutation_sym, keys_perm.
Qed.

(** The keys that are not array indices keep their creation order, and
    follow the array indices. *)
Lemma keys_split (o : object) :
  keys o = map fst (map snd (sortByIndex (indexed o)))
           ++ filter (fun k => negb (isArrayIndex k)) (created o).
Proof.
  unfold keys, entries, created. rewrite map_app. f_equal.
  induction o as [|[k v] o IH]; simpl; auto.
  destruct (isArrayIndex k) eqn:E; simpl; rewrite ?E; simpl; congruence.
Qed.

Lemma keys_values_length (o : object) :
  List.length (keys o) = List.length (values o).
Proof. unfold keys, values. now rewrite !length_map. Qed.

End KeyOrder.

(** ** The keys that an aggregation creates *)

Section CreatedKeys.
Variables labelKey dataKey : string.

Lemma created_countRow (counts row : object) :
  created (Part000.countRow labelKey counts row)
  = addKey (created counts) (Part000.label labelKey row).
Proof. unfold Part000.countRow. apply created_set. Qed.

Lemma created_sumRow (aggregated row : object) :
  created (Part000.sumRow labelKey dataKey aggregated row)
  = addKey (created aggregated) (Part000.label labelKey row).
Proof. unfold Part000.sumRow. apply created_set. Qed.

Lemma created_groupRow (grouped row : object) :
  created (Part000.groupRow labelKey dataKey grouped row)
  = addKey (created grouped) (Part000.label labelKey row).
Proof.
  unfold Part000.groupRow. cbv zeta. rewrite created_set.
  destruct (negb (truthy (get grouped (Part000.label labelKey row)))); auto.
  rewrite created_set. apply addKey_idem.
Qed.

(** Whatever the branch, the accumulator gets the labels of the rows as
    keys, one after the other. *)
Lemma created_fold (step : object -> object -> object) :
  (forall o row,
      created (step o row) = addKey (created o) (Part000.label labelKey row)) ->
  forall data o,
    created (fold_left step data o)
    = fold_left addKey (map (Part000.label labelKey) data) (created o).
Proof.
  intros Hstep data. induction data as [|row data IH]; intros o; simpl; auto.
  now rewrite IH, Hstep.
Qed.

Lemma addKey_NoDup (ks : list string) (k : string) :
  NoDup ks -> NoDup (addKey ks k).
Proof.
  intros H. destruct (addKey_cases ks k) as [[E _]|[E [Hn _]]]; rewrite E; auto.
  apply NoDup_app; [assumption | repeat constructor; simpl; tauto |].
  intros x Hx [<-|[]]. contradiction.
Qed.

Lemma fold_addKey_NoDup (ls ks : list string) :
  NoDup ks -> NoDup (fold_left addKey ls ks).
Proof.
  revert ks. induction ls as [|l ls IH]; intros ks H; simpl; auto.
  apply IH, addKey_NoDup, H.
Qed.

Lemma aggregate_collect (data : list object) :
  Part000.aggregateDataForChart labelKey dataKey data
  = Part000.collect (Part000.accumulator labelKey dataKey data).
Proof.
  unfold Part000.aggregateDataForChart, Part000.accumulator.
  destruct (toLowerCase dataKey =? "count")%string; auto.
  destruct (_ && _); auto.
Qed.

Lemma created_accumulator (data : list object) :
  created (Part000.accumulator labelKey dataKey data)
  = fold_left addKey (map (Part000.label labelKey) data) [].
Proof.
  unfold Part000.accumulator.
  destruct (toLowerCase dataKey =? "count")%string.
  - apply (created_fold _ created_countRow).
  - destruct (_ && _).
    + apply (created_fold _ created_sumRow).
    + apply (created_fold _ created_groupRow).
Qed.

End CreatedKeys.

(** ** The two summing branches *)

Section Branches.
Variables labelKey dataKey : string.

(** Initialising a property that reads as falsy, then assigning to it,
    is the same as assigning to it. *)
Lemma set_after_init (o : object) (k : string) (z x : value) :
  truthy (get o k) = false ->
  get (set o k z) k = z /\ set (set o k z) k x = set o k x.
Proof.
  unfold get, set. intros Hf.
  destruct (lookup k o) as [w|] eqn:E.
  - rewrite (lookup_replace k z w o E). split; auto.
    apply replace_replace.
  - destruct (String.eqb_spec k "__proto__") as [->|Hp].
    + discriminate Hf.
    + rewrite (lookup_app_new k z o E). split; auto.
      now apply replace_app_new.
Qed.

Lemma groupRow_sumRow (o row : object) :
  Part000.groupRow labelKey dataKey o row
  = Part000.sumRow labelKey dataKey o row.
Proof.
  unfold Part000.groupRow, Part000.sumRow. cbv zeta.
  set (k := Part000.label labelKey row).
  set (v := Part000.cell dataKey row).
  unfold or. destruct (truthy (get o k)) eqn:Ht; simpl; auto.
  destruct (set_after_init o k (VNumber zero) (plus (VNumber zero) v) Ht)
    as [Hget Hset].
  now rewrite Hget.
Qed.

Lemma fold_groupRow_sumRow (data : list object) (o : object) :
  fold_left (Part000.groupRow labelKey dataKey) data o
  = fold_left (Part000.sumRow labelKey dataKey) data o.
Proof.
  revert o. induction data as [|row data IH]; intros o; simpl; auto.
  now rewrite groupRow_sumRow.
Qed.

Lemma groupAndSum_sumAggregated (data : list object) :
  Part000.groupAndSum labelKey dataKey data
  = Part000.sumAggregated labelKey dataKey data.
Proof.
  unfold Part000.groupAndSum, Part000.sumAggregated.
  now rewrite fold_groupRow_sumRow.
Qed.

End Branches.

(** ** First occurrences and the order of creation *)

Section IndexOf.

Lemma indexOf_split (k : string) (l : list string) (i : nat) :
  indexOf k l = Some i ->
  exists l1 l2, l = l1 ++ k :: l2 /\ ~ In k l1 /\ List.length l1 = i.
Proof.
  revert i. induction l as [|h t IH]; intros i; simpl; [discriminate|].
  destruct (String.eqb_spec h k) as [->|Hne].
  - intros [= <-]. exists [], t. simpl. tauto.
  - destruct (indexOf k t) as [n|]; simpl; [|discriminate].
    intros [= <-]. destruct (IH n eq_refl) as (l1 & l2 & -> & Hn & Hl).
    exists (h :: l1), l2. simpl. split; [reflexivity|]. split; [|congruence].
    intros [H|H]; [congruence | contradiction].
Qed.

Lemma indexOf_app (k : string) (l1 l2 : list string) :
  ~ In k l1 -> indexOf k (l1 ++ k :: l2) = Some (List.length l1).
Proof.
  induction l1 as [|h t IH]; simpl; intros Hn.
  - now rewrite String.eqb_refl.
  - destruct (String.eqb_spec h k) as [->|Hne]; [tauto|].
    rewrite IH by tauto. reflexivity.
Qed.

Lemma indexOf_In (k : string) (l : list string) (i : nat) :
  indexOf k l = Some i -> In k l.
Proof.
  intros H. destruct (indexOf_split k l i H) as (l1 & l2 & -> & _).
  apply in_or_app. right. now left.
Qed.

(** Two first occurrences, one before the other. *)
Lemma indexOf_two (a b : string) (l : list string) (i j : nat) :
  indexOf a l = Some i -> indexOf b l = Some j -> (i < j)%nat ->
  exists l1 l2 l3,
    l = l1 ++ a :: l2 ++ b :: l3
    /\ ~ In a l1 /\ ~ In b l1 /\ ~ In b l2 /\ a <> b.
Proof.
  revert i j. induction l as [|h t IH]; intros i j; simpl; [discriminate|].
  destruct (String.eqb_spec h a) as [->|Ha].
  - intros [= <-].
    destruct (String.eqb_spec a b) as [->|Hab]; [intros [= <-]; lia|].
    destruct (indexOf b t) as [j'|] eqn:Hb; simpl; [|discriminate].
    intros _ _.
    destruct (indexOf_split b t j' Hb) as (m1 & m2 & -> & Hn & _).
    exists [], m1, m2. simpl. tauto.
  - destruct (indexOf a t) as [i'|] eqn:Hi; simpl; [|discriminate].
    intros [= <-].
    destruct (String.eqb_spec h b) as [->|Hb]; [intros [= <-]; lia|].
    destruct (indexOf b t) as [j'|] eqn:Hj; simpl; [|discriminate].
    intros [= <-] Hlt.
    destruct (IH i' j' eq_refl eq_refl ltac:(lia))
      as (l1 & l2 & l3 & -> & H1 & H2 & H3 & H4).
    exists (h :: l1), l2, l3. simpl.
    repeat split; auto; intros [H|H]; congruence || contradiction.
Qed.

(** In a list without duplicates, positions tell the order. *)
Lemma indexOf_ordered (a b : string) (l x y z : list string) :
  NoDup l -> l = x ++ a :: y ++ b :: z ->
  exists i j, indexOf a l = Some i /\ indexOf b l = Some j /\ (i < j)%nat.
Proof.
  intros Hnd ->.
  exists (List.length x), (List.length (x ++ a :: y)).
  split; [|split].
  - apply indexOf_app. apply NoDup_remove_2 in Hnd.
    intros H. apply Hnd. apply in_or_app. now left.
  - replace (x ++ a :: y ++ b :: z) with ((x ++ a :: y) ++ b :: z)
      by (now rewrite <- app_assoc).
    apply indexOf_app.
    replace (x ++ a :: y ++ b :: z) with ((x ++ a :: y) ++ b :: z) in Hnd
      by (now rewrite <- app_assoc).
    apply NoDup_remove_2 in Hnd. intros H. apply Hnd.
    apply in_or_app. now left.
  - rewrite length_app. simpl. lia.
Qed.

End IndexOf.

Section CreationOrder.

Lemma fold_addKey_extends (l ks : list string) :
  exists e, fold_left addKey l ks = ks ++ e /\ forall x, In x e -> In x l.
Proof.
  revert ks. induction l as [|h t IH]; intros ks; simpl.
  - exists []. rewrite app_nil_r. simpl. tauto.
  - destruct (IH (addKey ks h)) as (e & -> & He).
    destruct (addKey_cases ks h) as [[E _]|[E _]]; rewrite E.
    + exists e. split; auto.
    + exists (h :: e). rewrite <- app_assoc. split; auto.
      intros x [<-|H]; auto.
Qed.

Lemma fold_addKey_keeps (l ks : list string) (x : string) :
  In x ks -> In x (fold_left addKey l ks).
Proof.
  intros H. destruct (fold_addKey_extends l ks) as (e & -> & _).
  apply in_or_app. now left.
Qed.

Lemma fold_addKey_In (l ks : list string) (x : string) :
  In x l -> x <> "__proto__" -> In x (fold_left addKey l ks).
Proof.
  revert ks. induction l as [|h t IH]; intros ks; simpl; [tauto|].
  intros [->|H] Hp; [|now apply IH].
  apply fold_addKey_keeps.
  destruct (addKey_cases ks x) as [[E [Hin|Hx]]|[E _]]; rewrite E; auto.
  - contradiction.
  - apply in_or_app. right. now left.
Qed.

Lemma fold_addKey_from (l ks : list string) (x : string) :
  In x (fold_left addKey l ks) -> In x ks \/ In x l.
Proof.
  destruct (fold_addKey_extends l ks) as (e & -> & He).
  intros H. apply in_app_or in H. destruct H; auto.
Qed.

(** The keys are created in the order in which the labels first occur. *)
Lemma created_in_order (a b : string) (l1 l2 l3 : list string) :
  ~ In a l1 -> ~ In b l1 -> ~ In b l2 -> a <> b ->
  a <> "__proto__" -> b <> "__proto__" ->
  exists k1 k2 k3,
    fold_left addKey (l1 ++ a :: l2 ++ b :: l3) [] = k1 ++ a :: k2 ++ b :: k3.
Proof.
  intros Ha1 Hb1 Hb2 Hab Hpa Hpb.
  rewrite fold_left_app. simpl.
  destruct (fold_addKey_extends l1 []) as (k1 & -> & Hk1). simpl.
  rewrite addKey_new by auto.
  rewrite fold_left_app. simpl.
  destruct (fold_addKey_extends l2 (k1 ++ [a])) as (k2 & -> & Hk2).
  rewrite addKey_new; auto.
  - destruct (fold_addKey_extends l3 (((k1 ++ [a]) ++ k2) ++ [b]))
      as (k3 & -> & _).
    exists k1, k2, k3. rewrite <- !app_assoc. reflexivity.
  - intros H. apply in_app_or in H. destruct H as [H|H]; auto.
    apply in_app_or in H. destruct H as [H|[H|[]]]; auto.
Qed.

Lemma insertByIndex_sorted e l :
  StronglySorted (fun x y => fst x <= fst y) l ->
  StronglySorted (fun x y => fst x <= fst y) (insertByIndex e l).
Proof.
  induction 1 as [|h t Ht IH Hall]; simpl.
  - repeat constructor.
  - destruct (Z.ltb_spec (fst e) (fst h)).
    + constructor; [now constructor|].
      constructor; [lia|].
      eapply Forall_impl; [|exact Hall]. simpl. intros; lia.
    + constructor; auto.
      eapply Permutation_Forall;
        [apply Permutation_sym, insertByIndex_perm|].
      constructor; auto.
Qed.

Lemma sortByIndex_sorted l :
  StronglySorted (fun x y => fst x <= fst y) (sortByIndex l).
Proof.
  induction l as [|e l IH]; simpl; [constructor|].
  now apply insertByIndex_sorted.
Qed.

Lemma sorted_before {A : Type} (R : A -> A -> Prop) (t1 t2 : list A) (x y : A) :
  StronglySorted R (t1 ++ x :: t2) -> In y t1 -> R y x.
Proof.
  induction t1 as [|h t IH]; simpl; [tauto|].
  intros Hs [->|Hin].
  - apply StronglySorted_inv in Hs. destruct Hs as [_ Hall].
    rewrite Forall_forall in Hall. apply Hall.
    apply in_or_app. right. now left.
  - apply StronglySorted_inv in Hs. apply IH; tauto.
Qed.

Lemma indexed_In (o : object) (i : Z) (k : string) (v : value) :
  In (i, (k, v)) (indexed o) -> arrayIndex k = Some i.
Proof.
  induction o as [|[k' v'] o IH]; simpl; [tauto|].
  destruct (arrayIndex k') eqn:E; auto.
  intros [[= <- <- <-]|H]; auto.
Qed.

End CreationOrder.

(** ** The aggregated arrays *)

(** C1: for the rows [{city:"NY",sales:10},{city:"NY",sales:5},
    {city:"LA",sales:7}] and a bar blueprint whose label key is "city" and
    whose value key is "sales", aggregation and chart resolution return the
    labels ["NY","LA"] and the values [15,7]: duplicate labels are summed,
    in first-seen order. *)
Theorem sales_by_city :
  Part000.aggregateDataForChart "city" "sales" Scenario.sales
  = {| Part000.agg_labels := ["NY"; "LA"];
       Part000.agg_values := [Scenario.num 15; Scenario.num 7] |}
  /\ Part000.resolve
       {| Part000.title := None; Part000.config := Scenario.bar "city" "sales" |}
       (Some Scenario.sales)
     = Some {| Part000.chart_type := "bar";
               Part000.chart_labels := ["NY"; "LA"];
               Part000.chart_values := [Scenario.num 15; Scenario.num 7];
               Part000.chart_options := Scenario.forced |}.
Proof. split; vm_compute; reflexivity. Qed.

(** C4: for every row set and every pair of label and value column keys,
    the labels array and the values array that aggregation returns have the
    same length. *)
Theorem labels_values_same_length
    (data : list object) (labelKey dataKey : string) :
  let r := Part000.aggregateDataForChart labelKey dataKey data in
  List.length (Part000.agg_labels r) = List.length (Part000.agg_values r).
Proof.
  cbv zeta. rewrite aggregate_collect. apply keys_values_length.
Qed.

Lemma accumulator_NoDup (data : list object) (labelKey dataKey : string) :
  NoDup (keys (Part000.accumulator labelKey dataKey data)).
Proof.
  apply keys_NoDup. rewrite created_accumulator.
  apply fold_addKey_NoDup. constructor.
Qed.

(** For every row set and every pair of label and value column keys, the
    labels that aggregation returns are pairwise distinct: each of them is
    the stringified label of a row and occurs exactly once in the array,
    however many rows share it. *)
Theorem labels_distinct (data : list object) (labelKey dataKey : string) :
  let labels :=
    Part000.agg_labels (Part000.aggregateDataForChart labelKey dataKey data) in
  NoDup labels
  /\ forall l,
       In l labels ->
       count_occ string_dec labels l = 1%nat
       /\ exists row, In row data /\ Part000.label labelKey row = l.
Proof.
  cbv zeta. rewrite aggregate_collect. simpl.
  pose proof (accumulator_NoDup data labelKey dataKey) as H.
  split; [exact H|].
  intros l Hl. split; [now apply NoDup_count_occ'|].
  apply (Permutation_in _ (keys_perm _)) in Hl.
  rewrite created_accumulator in Hl.
  destruct (fold_addKey_extends (map (Part000.label labelKey) data) [])
    as (e & E & He).
  rewrite E in Hl. simpl in Hl. apply He in Hl.
  apply in_map_iff in Hl. destruct Hl as (row & <- & Hrow). eauto.
Qed.

(** ** The order of the labels *)

Section LabelOrder.
Variable o : object.

Let T := sortByIndex (indexed o).
Let S := map fst (map snd T).
Let N := filter (fun k => negb (isArrayIndex k)) (created o).

Lemma index_key_origin (k : string) :
  In k S -> exists e, In e T /\ fst (snd e) = k /\ arrayIndex k = Some (fst e).
Proof.
  unfold S. intros H.
  apply in_map_iff in H. destruct H as ([k' v] & <- & H).
  apply in_map_iff in H. destruct H as ([i kv] & E & H).
  simpl in E. subst kv. exists (i, (k', v)). simpl. repeat split; auto.
  apply (indexed_In o i k' v).
  eapply Permutation_in; [apply sortByIndex_perm | exact H].
Qed.

Lemma key_is_index (k : string) (m : Z) :
  In k (keys o) -> arrayIndex k = Some m -> In k S.
Proof.
  rewrite keys_split. fold T S N. intros H E.
  apply in_app_or in H. destruct H as [H|H]; auto.
  unfold N in H. apply filter_In in H. destruct H as [_ H].
  unfold isArrayIndex in H. rewrite E in H. discriminate.
Qed.

Lemma key_is_other (k : string) :
  In k (keys o) -> arrayIndex k = None -> In k N.
Proof.
  rewrite keys_split. fold T S N. intros H E.
  apply in_app_or in H. destruct H as [H|H]; auto.
  apply index_key_origin in H. destruct H as (e & _ & _ & H). congruence.
Qed.

(** Two array indices are listed by value. *)
Lemma index_keys_ascend (a b : string) (m n : Z) :
  In a (keys o) -> In b (keys o) ->
  arrayIndex a = Some m -> arrayIndex b = Some n -> m < n ->
  exists x y z, keys o = x ++ a :: y ++ b :: z.
Proof.
  intros Ha Hb Ea Eb Hlt.
  apply (key_is_index a m) in Ha; auto.
  apply (key_is_index b n) in Hb; auto.
  apply index_key_origin in Ha. destruct Ha as (ea & Hea & Ka & Ia).
  apply index_key_origin in Hb. destruct Hb as (eb & Heb & Kb & Ib).
  assert (fst ea = m) by congruence. assert (fst eb = n) by congruence.
  destruct (in_split ea T Hea) as (t1 & t2 & ET).
  pose proof (sortByIndex_sorted (indexed o)) as Hs. fold T in Hs.
  rewrite ET in Heb, Hs. apply in_app_or in Heb.
  destruct Heb as [Heb|[Heb|Heb]].
  - pose proof (sorted_before _ t1 t2 ea eb Hs Heb). simpl in *. lia.
  - subst eb. lia.
  - destruct (in_split eb t2 Heb) as (u1 & u2 & ->).
    rewrite keys_split. fold T. rewrite ET.
    exists (map fst (map snd t1)), (map fst (map snd u1)),
           (map fst (map snd u2) ++ N).
    rewrite !map_app. simpl. rewrite !map_app. simpl.
    rewrite Ka, Kb. fold N. rewrite <- !app_assoc. simpl.
    rewrite <- !app_assoc. reflexivity.
Qed.

(** An array index is listed before every other key. *)
Lemma index_keys_first (a b : string) (m : Z) :
  In a (keys o) -> In b (keys o) ->
  arrayIndex a = Some m -> arrayIndex b = None ->
  exists x y z, keys o = x ++ a :: y ++ b :: z.
Proof.
  intros Ha Hb Ea Eb.
  apply (key_is_index a m) in Ha; auto.
  apply key_is_other in Hb; auto.
  destruct (in_split a S Ha) as (s1 & s2 & ES).
  destruct (in_split b N Hb) as (n1 & n2 & EN).
  rewrite keys_split. fold T S N. rewrite ES, EN.
  exists s1, (s2 ++ n1), n2. rewrite <- !app_assoc. reflexivity.
Qed.

(** The other keys are listed as they were created. *)
Lemma other_keys_as_created (a b : string) (k1 k2 k3 : list string) :
  created o = k1 ++ a :: k2 ++ b :: k3 ->
  arrayIndex a = None -> arrayIndex b = None ->
  exists x y z, keys o = x ++ a :: y ++ b :: z.
Proof.
  intros E Ea Eb. rewrite keys_split. fold T S. rewrite E.
  rewrite filter_app. simpl. rewrite filter_app. simpl.
  unfold isArrayIndex. rewrite Ea, Eb. simpl.
  eexists (S ++ _), _, _. rewrite <- app_assoc. reflexivity.
Qed.

End LabelOrder.

Lemma label_is_key (data : list object) (labelKey dataKey k : string) (i : nat) :
  indexOf k (map (Part000.label labelKey) data) = Some i ->
  k <> "__proto__" ->
  In k (keys (Part000.accumulator labelKey dataKey data)).
Proof.
  intros Hi Hp. eapply Permutation_in; [apply Permutation_sym, keys_perm|].
  rewrite created_accumulator. apply fold_addKey_In; auto.
  eapply indexOf_In, Hi.
Qed.

(** C7, as the code has it: the labels come in the order of [Object.keys].
    For two labels other than "__proto__", first seen in the rows at the
    positions [i] and [j]: when neither is an array index, the one seen
    first comes first; an array index comes before a label that is none;
    two array indices come in ascending numeric order. *)
Theorem labels_in_key_order
    (data : list object) (labelKey dataKey a b : string) (i j : nat) :
  let seen := map (Part000.label labelKey) data in
  let labels :=
    Part000.agg_labels (Part000.aggregateDataForChart labelKey dataKey data) in
  indexOf a seen = Some i ->
  indexOf b seen = Some j ->
  a <> "__proto__" ->
  b <> "__proto__" ->
  ownKeyBefore a i b j = true ->
  exists i' j',
    indexOf a labels = Some i' /\ indexOf b labels = Some j' /\ (i' < j')%nat.
Proof.
  cbv zeta. intros Ha Hb Hpa Hpb Hord.
  rewrite aggregate_collect. simpl.
  set (o := Part000.accumulator labelKey dataKey data).
  assert (Hsplit : exists x y z, keys o = x ++ a :: y ++ b :: z).
  { pose proof (label_is_key data labelKey dataKey a i Ha Hpa) as Ka.
    pose proof (label_is_key data labelKey dataKey b j Hb Hpb) as Kb.
    fold o in Ka, Kb. unfold ownKeyBefore in Hord.
    destruct (arrayIndex a) as [m|] eqn:Ea, (arrayIndex b) as [n|] eqn:Eb.
    - apply (index_keys_ascend o a b m n); auto. now apply Z.ltb_lt.
    - now apply (index_keys_first o a b m).
    - discriminate.
    - apply Nat.ltb_lt in Hord.
      destruct (indexOf_two a b _ i j Ha Hb Hord)
        as (l1 & l2 & l3 & E & H1 & H2 & H3 & H4).
      destruct (created_in_order a b l1 l2 l3) as (k1 & k2 & k3 & EK); auto.
      apply (other_keys_as_created o a b k1 k2 k3); auto.
      unfold o. rewrite created_accumulator, E. exact EK. }
  destruct Hsplit as (x & y & z & E).
  apply (indexOf_ordered a b (keys o) x y z); auto.
  apply accumulator_NoDup.
Qed.

(** The rows [{region:"north"},{region:"7"},{region:"south"},{region:"3"}]
    give the labels ["3","7","north","south"]. *)
Lemma labels_in_key_order_regions :
  Part000.agg_labels
    (Part000.aggregateDataForChart "region" "sales" Scenario.regions)
  = ["3"; "7"; "north"; "south"]
  /\ exists i' j',
       indexOf "north"
         (Part000.agg_labels
            (Part000.aggregateDataForChart "region" "sales" Scenario.regions))
       = Some i'
       /\ indexOf "south"
            (Part000.agg_labels
               (Part000.aggregateDataForChart "region" "sales" Scenario.regions))
          = Some j'
       /\ (i' < j')%nat.
Proof.
  split; [vm_compute; reflexivity|].
  apply (labels_in_key_order Scenario.regions "region" "sales"
           "north" "south" 0 2);
    try (vm_compute; reflexivity); discriminate.
Defined.

(** C7, as stated, fails on the rows [{year:2021,...},{year:2020,...}]:
    "2021" is first seen in row 0 and "2020" in row 1, but the labels are
    ["2020","2021"]. *)
Lemma years_not_in_first_seen_order :
  let seen := map (Part000.label "year") Scenario.years in
  let labels :=
    Part000.agg_labels
      (Part000.aggregateDataForChart "year" "sales" Scenario.years) in
  indexOf "2021" seen = Some 0%nat /\ indexOf "2020" seen = Some 1%nat
  /\ indexOf "2021" labels = Some 1%nat /\ indexOf "2020" labels = Some 0%nat.
Proof. vm_compute. repeat split; reflexivity. Qed.

(** ** The counting branch *)

Section Counting.
Variable labelKey : string.

Lemma ofZ_truthy (n : Z) :
  0 < n < 2 ^ 53 -> truthy (VNumber (ofZ n)) = true.
Proof.
  intros H. destruct n as [|q|q]; try lia.
  now rewrite ofZ_normal by lia.
Qed.

Lemma count_occ_snoc (seen : list string) (k k' : string) :
  count_occ string_dec (seen ++ [k]) k'
  = (count_occ string_dec seen k' + if string_dec k k' then 1 else 0)%nat.
Proof. rewrite count_occ_app. simpl. now destruct (string_dec k k'). Qed.

Lemma tally_other (seen ks : list string) (k : string) :
  ~ In k ks -> tally (seen ++ [k]) ks = tally seen ks.
Proof.
  intros H. unfold tally. apply map_ext_in. intros k' Hk'.
  rewrite count_occ_snoc. destruct (string_dec k k') as [->|_]; [tauto|].
  now rewrite Nat.add_0_r.
Qed.

Lemma lookup_tally (seen ks : list string) (k : string) :
  In k ks ->
  lookup k (tally seen ks)
  = Some (VNumber (ofZ (Z.of_nat (count_occ string_dec seen k)))).
Proof.
  induction ks as [|h t IH]; simpl; [tauto|].
  destruct (String.eqb_spec h k) as [->|Hne]; auto.
  intros [H|H]; [congruence | auto].
Qed.

Lemma replace_tally (seen ks : list string) (k : string) :
  NoDup ks -> In k ks ->
  replace k (VNumber (ofZ (Z.of_nat (S (count_occ string_dec seen k)))))
          (tally seen ks)
  = tally (seen ++ [k]) ks.
Proof.
  induction 1 as [|h t Hh Hnd IH]; simpl; [tauto|].
  rewrite count_occ_snoc.
  destruct (String.eqb_spec h k) as [->|Hne].
  - intros _. rewrite tally_other by assumption.
    destruct (string_dec k k); [|congruence].
    now rewrite Nat.add_1_r.
  - intros [H|H]; [congruence|].
    destruct (string_dec k h); [congruence|].
    now rewrite Nat.add_0_r, IH.
Qed.

Lemma dedupe_In (seen : list string) (k : string) :
  k <> "__proto__" -> (In k (fold_left addKey seen []) <-> In k seen).
Proof.
  intros Hp. split; intros H.
  - apply fold_addKey_from in H. destruct H as [[]|H]; auto.
  - now apply fold_addKey_In.
Qed.

(** One more row: the count of its label goes up by one. *)
Lemma countRow_tally (seen : list string) (row : object) :
  let k := Part000.label labelKey row in
  prototypeGet k = VUndefined ->
  Z.of_nat (S (List.length seen)) < 2 ^ 53 ->
  Part000.countRow labelKey (tally seen (fold_left addKey seen [])) row
  = tally (seen ++ [k]) (fold_left addKey (seen ++ [k]) []).
Proof.
  intros k Hp Hlen. unfold Part000.countRow. cbv zeta. fold k.
  assert (Hk : k <> "__proto__") by (intros E; rewrite E in Hp; discriminate).
  rewrite fold_left_app. simpl.
  set (ks := fold_left addKey seen []).
  assert (Hnd : NoDup ks) by (apply fold_addKey_NoDup; constructor).
  pose proof (count_occ_bound string_dec k seen) as Hb.
  unfold get, set.
  destruct (in_dec string_dec k seen) as [Hin|Hin].
  - assert (Hks : In k ks) by (now apply dedupe_In).
    rewrite (lookup_tally seen ks k Hks), addKey_old by assumption.
    apply (count_occ_In string_dec) in Hin.
    unfold or. rewrite ofZ_truthy by lia.
    unfold plus, one. rewrite add_exact by lia.
    replace (Z.of_nat (count_occ string_dec seen k) + 1)
      with (Z.of_nat (S (count_occ string_dec seen k))) by lia.
    now apply replace_tally.
  - assert (Hks : ~ In k ks) by (unfold ks; now rewrite dedupe_In).
    assert (Hl : lookup k (tally seen ks) = None).
    { apply lookup_None. unfold created, tally. rewrite map_map. simpl.
      now rewrite map_id. }
    rewrite Hl, Hp, addKey_new by assumption.
    destruct (String.eqb_spec k "__proto__"); [contradiction|].
    unfold tally. rewrite map_app. simpl.
    fold (tally (seen ++ [k]) ks). rewrite tally_other by assumption.
    rewrite count_occ_snoc.
    apply (count_occ_not_In string_dec) in Hin. rewrite Hin.
    destruct (string_dec k k); [reflexivity | congruence].
Qed.

Lemma fold_countRow_tally (data : list object) (seen : list string) :
  (forall row, In row data ->
               prototypeGet (Part000.label labelKey row) = VUndefined) ->
  Z.of_nat (List.length seen + List.length data) < 2 ^ 53 ->
  fold_left (Part000.countRow labelKey) data
            (tally seen (fold_left addKey seen []))
  = let all := seen ++ map (Part000.label labelKey) data in
    tally all (fold_left addKey all []).
Proof.
  revert seen. induction data as [|row data IH]; intros seen Hp Hlen; simpl.
  - now rewrite app_nil_r.
  - rewrite countRow_tally; [|apply Hp; now left | simpl in Hlen; lia].
    rewrite IH.
    + cbv zeta. now rewrite <- app_assoc.
    + intros r Hr. apply Hp. now right.
    + rewrite length_app. simpl in *. lia.
Qed.

(** The values of a tally are the counts of its keys. *)
Lemma values_tally (seen ks : list string) :
  values (tally seen ks)
  = map (fun k => VNumber (ofZ (Z.of_nat (count_occ string_dec seen k))))
        (keys (tally seen ks)).
Proof.
  unfold values, keys. rewrite map_map. apply map_ext_in.
  intros [k v] Hkv. simpl.
  apply (Permutation_in _ (entries_perm _)) in Hkv.
  unfold tally in Hkv. apply in_map_iff in Hkv.
  destruct Hkv as (k' & [= <- <-] & _). reflexivity.
Qed.

Lemma indicator_sum (h : string) (ks : list string) :
  NoDup ks ->
  list_sum (map (fun k => if string_dec h k then 1%nat else 0%nat) ks)
  = if in_dec string_dec h ks then 1%nat else 0%nat.
Proof.
  induction 1 as [|k ks Hk Hnd IH]; simpl; auto.
  rewrite IH. destruct (string_dec k h) as [->|Hne].
  - destruct (string_dec h h); [|congruence].
    destruct (in_dec string_dec h ks); [contradiction | reflexivity].
  - destruct (string_dec h k); [congruence|].
    destruct (in_dec string_dec h ks); reflexivity.
Qed.

(** Over distinct keys that cover a list, the counts add up to its
    length. *)
Lemma counts_sum (l ks : list string) :
  NoDup ks -> (forall x, In x l -> In x ks) ->
  list_sum (map (count_occ string_dec l) ks) = List.length l.
Proof.
  intros Hnd. induction l as [|h t IH]; intros Hall; simpl.
  - clear. induction ks as [|k ks IHk]; simpl; auto.
  - rewrite <- IH by (intros x Hx; apply Hall; now right).
    assert (E : forall ks',
               list_sum (map (fun k => if string_dec h k
                                       then S (count_occ string_dec t k)
                                       else count_occ string_dec t k) ks')
               = (list_sum (map (fun k => if string_dec h k then 1 else 0) ks')
                  + list_sum (map (count_occ string_dec t) ks'))%nat).
    { induction ks' as [|k ks' IHk]; simpl; auto.
      rewrite IHk. destruct (string_dec h k); lia. }
    rewrite E, indicator_sum by assumption.
    destruct (in_dec string_dec h ks) as [|Hn]; [reflexivity|].
    exfalso. apply Hn, Hall. now left.
Qed.

(** The sum of counts, as JavaScript adds them. *)
Lemma total_counts (l ks : list string) (acc : nat) :
  Z.of_nat (acc + list_sum (map (count_occ string_dec l) ks)) < 2 ^ 53 ->
  fold_left plus
    (map (fun k => VNumber (ofZ (Z.of_nat (count_occ string_dec l k)))) ks)
    (VNumber (ofZ (Z.of_nat acc)))
  = VNumber (ofZ (Z.of_nat (acc + list_sum (map (count_occ string_dec l) ks)))).
Proof.
  revert acc. induction ks as [|k ks IH]; intros acc H; simpl.
  - now rewrite Nat.add_0_r.
  - simpl in H. unfold plus at 2. rewrite add_exact by lia.
    rewrite <- Nat2Z.inj_add, IH by lia.
    do 3 f_equal. lia.
Qed.

(** Away from the members of [Object.prototype] the counting branch counts:
    each value is the number of rows with its label, and the values add up
    to the number of rows. *)
Lemma counting_counts (data : list object) (dataKey : string) :
  toLowerCase dataKey = "count" ->
  (forall row, In row data ->
               prototypeGet (Part000.label labelKey row) = VUndefined) ->
  Z.of_nat (List.length data) < 2 ^ 53 ->
  let seen := map (Part000.label labelKey) data in
  let r := Part000.aggregateDataForChart labelKey dataKey data in
  Part000.agg_values r
  = map (fun l => VNumber (ofZ (Z.of_nat (count_occ string_dec seen l))))
        (Part000.agg_labels r)
  /\ total (Part000.agg_values r) = VNumber (ofZ (Z.of_nat (List.length data))).
Proof.
  intros Hc Hp Hlen seen r.
  assert (Hr : r = Part000.collect (tally seen (fold_left addKey seen []))).
  { assert (E : fold_left (Part000.countRow labelKey) data []
                = tally seen (fold_left addKey seen []))
      by exact (fold_countRow_tally data [] Hp Hlen).
    unfold r, Part000.aggregateDataForChart. rewrite Hc. simpl.
    unfold Part000.countOccurrences. now rewrite E. }
  set (o := tally seen (fold_left addKey seen [])) in *.
  assert (Hv : Part000.agg_values r
               = map (fun l => VNumber (ofZ (Z.of_nat (count_occ string_dec seen l))))
                     (Part000.agg_labels r)).
  { rewrite Hr. simpl. apply values_tally. }
  split; [exact Hv|].
  assert (Hsum : list_sum (map (count_occ string_dec seen) (Part000.agg_labels r))
                 = List.length data).
  { replace (List.length data) with (List.length seen)
      by (unfold seen; apply length_map).
    apply counts_sum.
    - rewrite Hr. simpl. apply keys_NoDup. unfold o, created, tally.
      rewrite map_map. simpl. rewrite map_id.
      apply fold_addKey_NoDup. constructor.
    - intros x Hx. rewrite Hr. simpl.
      eapply Permutation_in; [apply Permutation_sym, keys_perm|].
      unfold o, created, tally. rewrite map_map. simpl. rewrite map_id.
      apply fold_addKey_In; auto.
      unfold seen in Hx. apply in_map_iff in Hx. destruct Hx as (row & <- & Hrow).
      intros E. specialize (Hp row Hrow). rewrite E in Hp. discriminate. }
  unfold total. rewrite Hv.
  change (VNumber zero) with (VNumber (ofZ (Z.of_nat 0))).
  rewrite total_counts; rewrite Hsum; simpl; auto.
Qed.

End Counting.

(** C3, at a failing input: for the rows [{city:"NY"},{city:"__proto__"},
    {city:"NY"}] and the value key "count" the counting branch returns the
    label ["NY"] with the value [2]: the row labelled "__proto__" is not
    counted, and the values do not add up to the three rows. *)
Theorem proto_label_not_counted :
  Part000.aggregateDataForChart "city" "count" Scenario.protoCity
  = {| Part000.agg_labels := ["NY"];
       Part000.agg_values := [Scenario.num 2] |}
  /\ List.length Scenario.protoCity = 3%nat.
Proof. split; vm_compute; reflexivity. Qed.

(** ** Rows with distinct labels *)

Section OnePointPerRow.
Variables labelKey dataKey : string.

(** A cell is a number that adding to 0 leaves as it is. *)
Lemma cell_number (row : object) :
  exists x, Part000.cell dataKey row = VNumber x /\ add zero x = x.
Proof.
  unfold Part000.cell, or.
  destruct (truthy (VNumber (parseFloat (get row dataKey)))) eqn:E.
  - eexists. split; [reflexivity|]. simpl in E.
    destruct (parseFloat (get row dataKey)) as [[]|[]| |]; try discriminate;
      reflexivity.
  - exists zero. split; reflexivity.
Qed.

Lemma sumRow_new (o row : object) :
  ~ In (Part000.label labelKey row) (created o) ->
  prototypeGet (Part000.label labelKey row) = VUndefined ->
  Part000.sumRow labelKey dataKey o row
  = o ++ [(Part000.label labelKey row, Part000.cell dataKey row)].
Proof.
  intros Hn Hp. unfold Part000.sumRow. cbv zeta.
  set (k := Part000.label labelKey row) in *.
  apply lookup_None in Hn. unfold get, set. rewrite Hn, Hp.
  destruct (cell_number row) as (x & -> & Hx).
  unfold or, plus. simpl. rewrite Hx.
  destruct (String.eqb_spec k "__proto__") as [E|_]; auto.
  rewrite E in Hp. discriminate.
Qed.

Lemma fold_sumRow_distinct (data : list object) (o : object) :
  NoDup (map (Part000.label labelKey) data) ->
  (forall row, In row data ->
               ~ In (Part000.label labelKey row) (created o)
               /\ prototypeGet (Part000.label labelKey row) = VUndefined) ->
  fold_left (Part000.sumRow labelKey dataKey) data o
  = o ++ map (fun row => (Part000.label labelKey row, Part000.cell dataKey row))
             data.
Proof.
  revert o. induction data as [|row data IH]; intros o Hnd H; simpl.
  - now rewrite app_nil_r.
  - apply NoDup_cons_iff in Hnd. destruct Hnd as [Hrow Hnd].
    destruct (H row (or_introl eq_refl)) as [Hn Hp].
    rewrite sumRow_new by assumption.
    rewrite IH; auto.
    + now rewrite <- app_assoc.
    + intros r Hr. destruct (H r (or_intror Hr)) as [Hn' Hp'].
      split; auto. unfold created. rewrite map_app. simpl.
      intros Hin. apply in_app_or in Hin. destruct Hin as [Hin|[Hin|[]]].
      * now apply Hn'.
      * apply Hrow. rewrite Hin. now apply in_map.
Qed.

Lemma entries_plain (o : object) :
  (forall k, In k (created o) -> isArrayIndex k = false) -> entries o = o.
Proof.
  intros H. unfold entries.
  assert (Hi : indexed o = []).
  { induction o as [|[k v] o IH]; simpl; auto.
    assert (E : isArrayIndex k = false) by (apply H; now left).
    unfold isArrayIndex in E. destruct (arrayIndex k); [discriminate|].
    apply IH. intros k' Hk'. apply H. now right. }
  rewrite Hi. simpl. apply forallb_filter_id. apply forallb_forall.
  intros [k v] Hkv. simpl. rewrite H; auto.
  unfold created. now apply (in_map fst) in Hkv.
Qed.

(** The sum of one term is the term: rows whose labels are distinct, none
    of them an array index or a member of [Object.prototype], give one
    point per row, in the order of the rows. *)
Lemma distinct_labels_one_point_per_row (data : list object) :
  NoDup (map (Part000.label labelKey) data) ->
  (forall row, In row data ->
               isArrayIndex (Part000.label labelKey row) = false
               /\ prototypeGet (Part000.label labelKey row) = VUndefined) ->
  Part000.sumAggregated labelKey dataKey data
  = {| Part000.agg_labels := map (Part000.label labelKey) data;
       Part000.agg_values := map (Part000.cell dataKey) data |}.
Proof.
  intros Hnd H. unfold Part000.sumAggregated, Part000.collect, keys, values.
  rewrite fold_sumRow_distinct; auto.
  - simpl. rewrite entries_plain.
    + now rewrite !map_map.
    + intros k Hk. unfold created in Hk. rewrite map_map in Hk. simpl in Hk.
      apply in_map_iff in Hk. destruct Hk as (row & <- & Hrow).
      now apply H.
  - intros row Hrow. split; [simpl; tauto | now apply H].
Qed.

End OnePointPerRow.

(** ** The two summing branches, again *)

Ltac distinct := repeat constructor; simpl; intuition discriminate.

(** C8: for every row set in which each row has a distinct label, the
    already-aggregated (raw) branch and the group-and-sum branch return the
    same labels and the same values. *)
Theorem raw_and_grouped_agree
    (data : list object) (labelKey dataKey : string) :
  NoDup (map (Part000.label labelKey) data) ->
  Part000.sumAggregated labelKey dataKey data
  = Part000.groupAndSum labelKey dataKey data.
Proof. intros _. symmetry. apply groupAndSum_sumAggregated. Qed.

Lemma raw_and_grouped_agree_regions :
  NoDup (map (Part000.label "region") Scenario.regions)
  /\ Part000.sumAggregated "region" "sales" Scenario.regions
     = Part000.groupAndSum "region" "sales" Scenario.regions.
Proof.
  assert (H : NoDup (map (Part000.label "region") Scenario.regions))
    by (vm_compute; distinct).
  split; [exact H|].
  apply (raw_and_grouped_agree Scenario.regions "region" "sales" H).
Defined.

(** ** Cells that do not parse *)

Section Coercion.
Variables labelKey dataKey : string.

Lemma cell_unparseable (row : object) :
  Part000.unparseable dataKey row = true ->
  Part000.cell dataKey row = VNumber zero.
Proof.
  unfold Part000.unparseable, Part000.cell, or. simpl.
  intros ->. reflexivity.
Qed.

Lemma parseFloatString_empty : parseFloatString "" = NaN.
Proof. reflexivity. Qed.







(** Both summing branches are the first of them. *)
Lemma aggregate_two_ways (data : list object) :
  Part000.aggregateDataForChart labelKey dataKey data
  = if (toLowerCase dataKey =? "count")%string
    then Part000.countOccurrences labelKey data
    else Part000.sumAggregated labelKey dataKey data.
Proof.
  unfold Part000.aggregateDataForChart.
  destruct (toLowerCase dataKey =? "count")%string; auto.
  destruct (_ && _); auto. apply groupAndSum_sumAggregated.
Qed.


End Coercion.



(** ** A label column that no row has *)

Lemma fold_addKey_same (k : string) (l : list string) :
  (forall x, In x l -> x = k) -> fold_left addKey l [k] = [k].
Proof.
  induction l as [|h t IH]; simpl; auto.
  intros H. rewrite (H h) by auto.
  rewrite addKey_old by (now left). auto.
Qed.

Lemma labels_all_undefined (data : list object) (labelKey dataKey : string) :
  data <> [] ->
  (forall row, In row data -> get row labelKey = VUndefined) ->
  keys (Part000.accumulator labelKey dataKey data) = ["undefined"].
Proof.
  intros Hne Hall.
  apply Permutation_length_1_inv.
  eapply perm_trans; [|apply Permutation_sym, keys_perm].
  rewrite created_accumulator.
  destruct data as [|row data]; [congruence|]. simpl.
  assert (E : forall r, In r (row :: data) ->
                        Part000.label labelKey r = "undefined").
  { intros r Hr. unfold Part000.label. now rewrite (Hall r Hr). }
  rewrite (E row) by (now left).
  rewrite addKey_new by (simpl; tauto || discriminate). simpl.
  rewrite fold_addKey_same; auto.
  intros x Hx. apply in_map_iff in Hx. destruct Hx as (r & <- & Hr).
  apply E. now right.
Qed.

(** C6, as the code has it: there is no MissingColumn error.  For a
    non-empty row set in which the label column reads as undefined in every
    row, aggregation returns the one label "undefined" with one value, the
    dashboard revision resolves a chart with that label, and the
    single-chart revision resolves a chart with one undefined label per
    row. *)
Theorem missing_label_column_is_plotted
    (data : list object) (labelKey dataKey : string) :
  data <> [] ->
  (forall row, In row data -> get row labelKey = VUndefined) ->
  let r := Part000.aggregateDataForChart labelKey dataKey data in
  Part000.agg_labels r = ["undefined"]
  /\ List.length (Part000.agg_values r) = 1%nat
  /\ (forall title type color others options,
         exists options',
           Part000.resolve
             {| Part000.title := title;
                Part000.config :=
                  blueprint (Some type) (Wrapped [labelKey]) (Wrapped [dataKey])
                            color others options |}
             (Some data)
           = Some {| Part000.chart_type := type;
                     Part000.chart_labels := ["undefined"];
                     Part000.chart_values := Part000.agg_values r;
                     Part000.chart_options := options' |})
  /\ (forall type others options,
         Script.resolve
           (blueprint type (Wrapped [labelKey]) (Wrapped [dataKey])
                      None others options)
           (Some data)
         = Some {| Script.chart_type := type;
                   Script.chart_labels := map (fun _ => VUndefined) data;
                   Script.chart_values := map (fun row => get row dataKey) data;
                   Script.chart_color := "rgba(0, 122, 255, 0.6)" |}).
Proof.
  intros Hne Hall r.
  assert (Hl : Part000.agg_labels r = ["undefined"]).
  { unfold r. rewrite aggregate_collect. simpl.
    now apply labels_all_undefined. }
  split; [exact Hl|]. split; [|split].
  - pose proof (keys_values_length
                  (Part000.accumulator labelKey dataKey data)) as HL.
    unfold r in *. rewrite aggregate_collect in *. simpl in *.
    now rewrite <- HL, Hl.
  - intros title type color others options. eexists.
    unfold Part000.resolve, blueprint. simpl. fold r. rewrite Hl. reflexivity.
  - intros type others options. unfold Script.resolve, blueprint. simpl.
    rewrite (map_ext_in (fun row => get row labelKey) (fun _ => VUndefined) data);
      [reflexivity|].
    intros row Hrow. now apply Hall.
Qed.

(** The rows [{sales:10},{sales:5}] have no column "city". *)
Lemma missing_label_column_is_plotted_noCity :
  Scenario.noCity <> []
  /\ (forall row, In row Scenario.noCity -> get row "city" = VUndefined)
  /\ Part000.agg_labels
       (Part000.aggregateDataForChart "city" "sales" Scenario.noCity)
     = ["undefined"].
Proof.
  assert (H1 : Scenario.noCity <> []) by discriminate.
  assert (H2 : forall row, In row Scenario.noCity -> get row "city" = VUndefined).
  { intros row [<-|[<-|[]]]; reflexivity. }
  split; [exact H1|]. split; [exact H2|].
  exact (proj1 (missing_label_column_is_plotted
                  Scenario.noCity "city" "sales" H1 H2)).
Defined.

(** C6, as stated, fails on the rows [{sales:10},{sales:5}]: no row has the
    label column "city", and resolution returns no error but a chart, with
    the label "undefined" and the value 15. *)
Lemma missing_label_column_no_error :
  Forall (fun row => lookup "city" row = None) Scenario.noCity
  /\ Part000.resolve
       {| Part000.title := None; Part000.config := Scenario.bar "city" "sales" |}
       (Some Scenario.noCity)
     = Some {| Part000.chart_type := "bar";
               Part000.chart_labels := ["undefined"];
               Part000.chart_values := [Scenario.num 15];
               Part000.chart_options := Scenario.forced |}
  /\ Script.resolve (Scenario.bar "city" "sales") (Some Scenario.noCity)
     = Some {| Script.chart_type := Some "bar";
               Script.chart_labels := [VUndefined; VUndefined];
               Script.chart_values := [Scenario.num 10; Scenario.num 5];
               Script.chart_color := "rgba(0, 122, 255, 0.6)" |}.
Proof.
  split; [repeat constructor|]. split; vm_compute; reflexivity.
Qed.

(** ** The two shapes of a column reference *)

(** C2, as the code has it: the single-chart revision resolves a non-empty
    column name alike as a bare string and wrapped in a one-element
    array; the dashboard revision takes element 0 of the reference, which
    is the column name of a wrapped reference (it is the one aggregated)
    and the first code unit of a bare string. *)
Theorem dual_shape_by_revision
    (type color : option string) (others : list dataset)
    (options : option object) (data : option (list object))
    (label value : string) :
  label <> "" -> value <> "" ->
  Script.resolve
    (blueprint type (Bare label) (Bare value) color others options) data
  = Script.resolve
      (blueprint type (Wrapped [label]) (Wrapped [value]) color others options)
      data
  /\ (forall title t rows,
         exists options',
           Part000.resolve
             {| Part000.title := title;
                Part000.config :=
                  blueprint (Some t) (Wrapped [label]) (Wrapped [value])
                            color others options |}
             (Some rows)
           = let r := Part000.aggregateDataForChart label value rows in
             Some {| Part000.chart_type := t;
                     Part000.chart_labels := Part000.agg_labels r;
                     Part000.chart_values := Part000.agg_values r;
                     Part000.chart_options := options' |})
  /\ (forall title c l d v,
         label = String c l -> value = String d v ->
         Part000.resolve
           {| Part000.title := title;
              Part000.config :=
                blueprint type (Bare label) (Bare value) color others options |}
           data
         = Part000.resolve
             {| Part000.title := title;
                Part000.config :=
                  blueprint type (Wrapped [String c ""]) (Wrapped [String d ""])
                            color others options |}
             data).
Proof.
  intros Hl Hv. split; [|split].
  - unfold Script.resolve, blueprint, Script.required, present. simpl.
    destruct (String.eqb_spec label ""); [contradiction|].
    destruct (String.eqb_spec value ""); [contradiction|].
    reflexivity.
  - intros title t rows. eexists. reflexivity.
  - intros title c l d v -> ->. reflexivity.
Qed.

(** The columns "city" and "sales" of the sales rows. *)
Lemma dual_shape_by_revision_sales :
  Script.resolve (Scenario.bareBar "city" "sales") (Some Scenario.sales)
  = Script.resolve (Scenario.bar "city" "sales") (Some Scenario.sales).
Proof.
  exact (proj1 (dual_shape_by_revision (Some "bar") None [] None
                  (Some Scenario.sales) "city" "sales"
                  ltac:(discriminate) ltac:(discriminate))).
Defined.

(** C2, as stated, fails in the dashboard revision: on the sales rows the
    wrapped references ["city"] and ["sales"] resolve to the labels
    ["NY","LA"] and the values [15,7], the bare strings "city" and "sales"
    to the label "undefined" and the value 0 (the columns "c" and "s"). *)
Lemma bare_reference_reads_first_character :
  Part000.resolve
    {| Part000.title := None; Part000.config := Scenario.bar "city" "sales" |}
    (Some Scenario.sales)
  = Some {| Part000.chart_type := "bar";
            Part000.chart_labels := ["NY"; "LA"];
            Part000.chart_values := [Scenario.num 15; Scenario.num 7];
            Part000.chart_options := Scenario.forced |}
  /\ Part000.resolve
       {| Part000.title := None;
          Part000.config := Scenario.bareBar "city" "sales" |}
       (Some Scenario.sales)
     = Some {| Part000.chart_type := "bar";
               Part000.chart_labels := ["undefined"];
               Part000.chart_values := [Scenario.num 0];
               Part000.chart_options := Scenario.forced |}.
Proof. split; vm_compute; reflexivity. Qed.

(** ** One live chart per canvas *)

Section Dashboard.
Import Part000.

Lemma filter_twice {A : Type} (f g : A -> bool) (l : list A) :
  filter f (filter g l) = filter (fun x => g x && f x) l.
Proof.
  induction l as [|x l IH]; simpl; auto.
  destruct (g x); simpl; [destruct (f x)|]; congruence.
Qed.

Lemma live_fold_destroy (cs : list chart) (p : page) :
  live (fold_left destroy cs p)
  = filter (fun c' => forallb (fun c => negb (uid c' =? uid c)%nat) cs)
           (live p).
Proof.
  revert p. induction cs as [|c cs IH]; intros p; simpl.
  - symmetry. apply forallb_filter_id. apply forallb_forall. auto.
  - rewrite IH. simpl. apply filter_twice.
Qed.

Lemma filter_nothing {A : Type} (f : A -> bool) (l : list A) :
  (forall x, In x l -> f x = false) -> filter f l = [].
Proof.
  induction l as [|x l IH]; simpl; auto.
  intros H. rewrite (H x) by auto. auto.
Qed.

(** Every instance that [chartInstances] holds is destroyed. *)
Lemma reset_clears (p : page) :
  live p = map snd (chartInstances p) ->
  live (reset p) = [] /\ chartInstances (reset p) = [].
Proof.
  intros H. unfold reset. simpl. split; auto.
  rewrite live_fold_destroy. apply filter_nothing.
  intros c' Hc'. rewrite <- H.
  apply not_true_is_false. intros Hall.
  rewrite forallb_forall in Hall. specialize (Hall c' Hc').
  now rewrite Nat.eqb_refl in Hall.
Qed.

Lemma assign_new (n : nat) (c : chart) (m : list (nat * chart)) :
  ~ In n (map fst m) -> assign n c m = m ++ [(n, c)].
Proof.
  induction m as [|[n' c'] m IH]; simpl; auto.
  intros H. destruct (Nat.eqb_spec n' n) as [->|Hne]; [tauto|].
  rewrite IH by tauto. reflexivity.
Qed.

Lemma combine_keys_In {A B : Type} (l : list A) (l' : list B) (x : A) :
  In x (map fst (combine l l')) -> In x l.
Proof.
  revert l'. induction l as [|a l IH]; intros [|b l']; simpl; try tauto.
  intros [H|H]; eauto.
Qed.

Lemma combine_keys_NoDup {A B : Type} (l : list A) (l' : list B) :
  NoDup l -> NoDup (map fst (combine l l')).
Proof.
  intros H. revert l'.
  induction H as [|a l Ha _ IH]; intros [|b l']; simpl; try constructor; auto.
  intros Hin. apply Ha. eapply combine_keys_In, Hin.
Qed.

Lemma numbered_keys (charts : list chartData) :
  NoDup (map fst (numbered charts)).
Proof. apply combine_keys_NoDup, seq_NoDup. Qed.

Lemma reachable_consistent p data pending :
  reachable p data pending -> consistent p pending.
Proof.
  induction 1 as [|p data r _ IH|p data n c rest _ IH].
  - repeat split; simpl; [tauto | constructor].
  - destruct IH as (Hlive & _ & _).
    destruct (reset_clears p Hlive) as [Hl Hc].
    unfold consistent. rewrite Hl, Hc. simpl. repeat split; [tauto|].
    unfold toDraw. destruct (charts r); [apply numbered_keys | constructor].
  - destruct IH as (Hlive & Hcanvas & Hnd). simpl in Hnd.
    unfold renderChart. destruct (resolve c data) as [config|].
    + assert (Hn : ~ In n (map fst (chartInstances p))).
      { apply NoDup_remove_2 in Hnd. intros H. apply Hnd.
        apply in_or_app. now left. }
      unfold consistent. simpl. rewrite assign_new by assumption.
      rewrite !map_app. simpl. repeat split.
      * now rewrite Hlive.
      * intros n' c' Hin. apply in_app_or in Hin.
        destruct Hin as [Hin|[[= <- <-]|[]]]; auto.
      * now rewrite <- app_assoc.
    + repeat split; auto.
      apply NoDup_remove_1 in Hnd. exact Hnd.
Qed.

Lemma none_on_free_canvas (n : nat) (m : list (nat * chart)) :
  (forall k c, In (k, c) m -> canvas c = k) ->
  ~ In n (map fst m) ->
  filter (fun c => (canvas c =? n)%nat) (map snd m) = [].
Proof.
  intros Hc Hn. apply filter_nothing. intros c Hin.
  apply in_map_iff in Hin. destruct Hin as ([k c'] & <- & Hin). simpl.
  apply Nat.eqb_neq. rewrite (Hc k c' Hin). intros ->.
  apply Hn. apply in_map_iff. now exists (n, c').
Qed.

Lemma one_per_key (n : nat) (m : list (nat * chart)) :
  (forall k c, In (k, c) m -> canvas c = k) ->
  NoDup (map fst m) ->
  (List.length (filter (fun c => (canvas c =? n)%nat) (map snd m)) <= 1)%nat.
Proof.
  induction m as [|[k c] m IH]; simpl; [lia|].
  intros Hc Hnd. apply NoDup_cons_iff in Hnd. destruct Hnd as [Hk Hnd].
  destruct (Nat.eqb_spec (canvas c) n) as [E|E].
  - rewrite none_on_free_canvas; simpl; auto.
    rewrite <- E, (Hc k c) by auto. exact Hk.
  - apply IH; auto.
Qed.

Lemma dashboard_one_chart_per_canvas p data pending :
  reachable p data pending ->
  (forall n, (List.length (on n p) <= 1)%nat)
  /\ (forall n c rest, pending = (n, c) :: rest -> on n p = []).
Proof.
  intros H. apply reachable_consistent in H.
  destruct H as (Hlive & Hcanvas & Hnd). unfold on. rewrite Hlive. split.
  - intros n. apply one_per_key; auto.
    now apply NoDup_app_remove_r in Hnd.
  - intros n c rest ->. simpl in Hnd. apply none_on_free_canvas; auto.
    apply NoDup_remove_2 in Hnd. intros H. apply Hnd.
    apply in_or_app. now left.
Qed.

(** [updateResults] runs the loop to its end. *)
Lemma renderEach_reachable items p data :
  reachable p data items -> reachable (renderEach data items p) data [].
Proof.
  revert p. induction items as [|[n c] items IH]; intros p H; simpl; auto.
  apply IH. now apply reach_render.
Qed.

Lemma updateResults_reachable p data r :
  reachable p data [] -> reachable (updateResults r p) (results r) [].
Proof.
  intros H. unfold updateResults.
  apply renderEach_reachable. now apply (reach_response p data r).
Qed.

End Dashboard.

Section SingleChart.
Import Script.

Lemma single_chart_consistent p :
  reachable p ->
  live p = [] \/ exists c, chartInstance p = Some c /\ live p = [c].
Proof.
  induction 1 as [|p r _ IH]; [now left|].
  unfold updateInsights. destruct (chart_config r) as [config|]; auto.
  unfold renderChart.
  assert (Hd : live (destroyPrevious p) = []
               /\ made (destroyPrevious p) = made p).
  { unfold destroyPrevious.
    destruct IH as [E|(c & Hc & E)]; [destruct (chartInstance p)|rewrite Hc];
      simpl; rewrite E; simpl; auto.
    now rewrite Nat.eqb_refl. }
  destruct Hd as [Hl Hm].
  destruct (resolve config (results r)); simpl; [|now left].
  right. eexists. split; [reflexivity|]. now rewrite Hl.
Qed.

Lemma single_chart_one_live p :
  reachable p ->
  (List.length (live p) <= 1)%nat /\ live (destroyPrevious p) = [].
Proof.
  intros H. apply single_chart_consistent in H.
  destruct H as [E|(c & Hc & E)]; unfold destroyPrevious.
  - rewrite E. simpl. split; [lia|].
    destruct (chartInstance p); simpl; rewrite ?E; auto.
  - rewrite Hc, E. simpl. rewrite Nat.eqb_refl. simpl. split; [lia|auto].
Qed.

End SingleChart.

(** C9: in every reachable state of the render loop at most one live chart
    instance exists per canvas, and a canvas on which a chart is about to be
    drawn has none: the instance drawn there before has been destroyed.  In
    the dashboard revision the states are those of the loop of
    [updateResults], which the function runs to its end; in the single-chart
    revision [renderChart] destroys the previous instance first. *)
Theorem one_live_chart_per_canvas :
  (forall p data pending,
      Part000.reachable p data pending ->
      (forall n, (List.length (Part000.on n p) <= 1)%nat)
      /\ (forall n c rest, pending = (n, c) :: rest -> Part000.on n p = []))
  /\ (forall r p data,
         Part000.reachable p data [] ->
         Part000.reachable (Part000.updateResults r p) (Part000.results r) [])
  /\ (forall p,
         Script.reachable p ->
         (List.length (Script.live p) <= 1)%nat
         /\ Script.live (Script.destroyPrevious p) = []).
Proof.
  split; [|split].
  - apply dashboard_one_chart_per_canvas.
  - intros r p data. apply updateResults_reachable.
  - apply single_chart_one_live.
Qed.

(** Two responses with two charts each leave one chart on the first
    canvas. *)
Lemma one_live_chart_per_canvas_twice :
  let p := Part000.updateResults Scenario.twoCharts
             (Part000.updateResults Scenario.twoCharts Part000.initial) in
  (List.length (Part000.on 1 p) <= 1)%nat
  /\ map Part000.uid (Part000.live p) = [2%nat; 3%nat].
Proof.
  pose proof (proj1 (proj2 one_live_chart_per_canvas)) as Hrun.
  pose proof (Hrun Scenario.twoCharts _ _
                (Hrun Scenario.twoCharts _ _ Part000.reach_initial)) as Hp.
  split.
  - exact (proj1 (proj1 one_live_chart_per_canvas _ _ _ Hp) 1%nat).
  - vm_compute. reflexivity.
Defined.

(** * Further properties of the scripts *)

(** ** What aggregation returns *)

Lemma fold_addKey_no_proto (l ks : list string) :
  ~ In "__proto__" ks -> ~ In "__proto__" (fold_left addKey l ks).
Proof.
  revert ks. induction l as [|h t IH]; intros ks H; simpl; auto.
  apply IH. destruct (addKey_cases ks h) as [[E _]|[E [_ Hp]]]; rewrite E; auto.
  intros Hin. apply in_app_or in Hin. destruct Hin as [Hin|[Hin|[]]]; auto.
Qed.

Lemma label_returned (data : list object) (labelKey dataKey l : string) :
  In l (Part000.agg_labels
          (Part000.aggregateDataForChart labelKey dataKey data))
  <-> (exists row, In row data /\ Part000.label labelKey row = l)
      /\ l <> "__proto__".
Proof.
  rewrite aggregate_collect. simpl.
  assert (Hk : In l (keys (Part000.accumulator labelKey dataKey data))
               <-> In l (fold_left addKey (map (Part000.label labelKey) data) [])).
  { rewrite <- created_accumulator with (dataKey := dataKey). split; intros H.
    - eapply Permutation_in; [apply keys_perm | exact H].
    - eapply Permutation_in; [apply Permutation_sym, keys_perm | exact H]. }
  rewrite Hk. split.
  - intros H.
    assert (Hp : l <> "__proto__").
    { intros ->. revert H. apply fold_addKey_no_proto. simpl. tauto. }
    split; auto. apply (proj1 (dedupe_In _ l Hp)) in H.
    apply in_map_iff in H. destruct H as (row & <- & Hrow). eauto.
  - intros [(row & Hrow & <-) Hp]. apply dedupe_In; auto.
    now apply in_map.
Qed.

(** X1: the labels that aggregation returns are the stringified labels of
    the rows, "__proto__" left out: a label is returned exactly when some
    row has it and it is not "__proto__". *)
Theorem labels_are_the_row_labels
    (data : list object) (labelKey dataKey l : string) :
  In l (Part000.agg_labels
          (Part000.aggregateDataForChart labelKey dataKey data))
  <-> (exists row, In row data /\ Part000.label labelKey row = l)
      /\ l <> "__proto__".
Proof. apply label_returned. Qed.

(** C10, at a failing input: the labels that aggregation returns are
    pairwise distinct, and the stringified label of a row occurs exactly
    once among them unless it is "__proto__", which never occurs.  For
    the rows [{city:"NY"},{city:"__proto__"},{city:"NY"}] the labels are
    ["NY"], with the value key "count" as with the value key "sales": the
    label of the second row occurs zero times. *)
Theorem proto_label_not_returned :
  (forall (data : list object) (labelKey dataKey : string),
      let labels :=
        Part000.agg_labels
          (Part000.aggregateDataForChart labelKey dataKey data) in
      NoDup labels
      /\ (forall l,
             (exists row, In row data /\ Part000.label labelKey row = l) ->
             l <> "__proto__" ->
             count_occ string_dec labels l = 1%nat)
      /\ count_occ string_dec labels "__proto__" = 0%nat)
  /\ map (Part000.label "city") Scenario.protoCity = ["NY"; "__proto__"; "NY"]
  /\ Part000.agg_labels
       (Part000.aggregateDataForChart "city" "count" Scenario.protoCity)
     = ["NY"]
  /\ Part000.agg_labels
       (Part000.aggregateDataForChart "city" "sales" Scenario.protoCity)
     = ["NY"].
Proof.
  split; [|repeat split; vm_compute; reflexivity].
  intros data labelKey dataKey labels.
  assert (Hnd : NoDup labels).
  { subst labels. rewrite aggregate_collect. simpl. apply accumulator_NoDup. }
  split; [exact Hnd|]. split.
  - intros l Hrow Hp. apply NoDup_count_occ'; auto.
    apply label_returned. split; assumption.
  - apply count_occ_not_In. intros Hin.
    apply label_returned in Hin. destruct Hin as [_ Hp]. now apply Hp.
Qed.

(** X2: aggregation never returns more labels than there are rows. *)
Theorem no_more_labels_than_rows
    (data : list object) (labelKey dataKey : string) :
  (List.length (Part000.agg_labels
                  (Part000.aggregateDataForChart labelKey dataKey data))
   <= List.length data)%nat.
Proof.
  rewrite aggregate_collect. simpl.
  rewrite <- (length_map (Part000.label labelKey) data).
  apply NoDup_incl_length; [apply accumulator_NoDup|].
  intros l Hl. apply (Permutation_in _ (keys_perm _)) in Hl.
  rewrite created_accumulator in Hl.
  apply fold_addKey_from in Hl. destruct Hl as [[]|Hl]. exact Hl.
Qed.

(** X3: the test on the number of rows (fewer than 50) and on every row
    having the value column never shows in the result: whatever it says,
    [aggregateDataForChart] returns what the already-aggregated branch
    returns, which is also what the group-and-sum branch returns. *)
Theorem threshold_never_shows
    (data : list object) (labelKey dataKey : string) :
  Part000.aggregateDataForChart labelKey dataKey data
  = (if (toLowerCase dataKey =? "count")%string
     then Part000.countOccurrences labelKey data
     else Part000.sumAggregated labelKey dataKey data)
  /\ Part000.aggregateDataForChart labelKey dataKey data
     = (if (toLowerCase dataKey =? "count")%string
        then Part000.countOccurrences labelKey data
        else Part000.groupAndSum labelKey dataKey data).
Proof.
  split; [apply aggregate_two_ways|].
  rewrite aggregate_two_ways.
  destruct (toLowerCase dataKey =? "count")%string; auto.
  symmetry. apply groupAndSum_sumAggregated.
Qed.

(** X4: when the value key is "count" in any letter case, no label names a
    member of [Object.prototype] and there are fewer than [2^53] rows, each
    value is the number of rows that have its label, and the values add up
    to the number of rows. *)
Theorem counting_mode_counts
    (data : list object) (labelKey dataKey : string) :
  toLowerCase dataKey = "count" ->
  (forall row, In row data ->
               prototypeGet (Part000.label labelKey row) = VUndefined) ->
  Z.of_nat (List.length data) < 2 ^ 53 ->
  let seen := map (Part000.label labelKey) data in
  let r := Part000.aggregateDataForChart labelKey dataKey data in
  Part000.agg_values r
  = map (fun l => VNumber (ofZ (Z.of_nat (count_occ string_dec seen l))))
        (Part000.agg_labels r)
  /\ total (Part000.agg_values r) = VNumber (ofZ (Z.of_nat (List.length data))).
Proof. apply counting_counts. Qed.

Lemma sales_labels_plain (row : object) :
  In row Scenario.sales ->
  isArrayIndex (Part000.label "city" row) = false
  /\ prototypeGet (Part000.label "city" row) = VUndefined.
Proof. intros [<-|[<-|[<-|[]]]]; split; reflexivity. Qed.

(** The sales rows counted by city: NY twice, LA once, three rows. *)
Lemma counting_mode_counts_sales :
  let r := Part000.aggregateDataForChart "city" "Count" Scenario.sales in
  Part000.agg_labels r = ["NY"; "LA"]
  /\ total (Part000.agg_values r) = VNumber (ofZ 3).
Proof.
  split; [vm_compute; reflexivity|].
  refine (proj2 (counting_mode_counts Scenario.sales "city" "Count" _ _ _)).
  - reflexivity.
  - intros row Hrow. apply (sales_labels_plain row Hrow).
  - vm_compute. reflexivity.
Defined.

Lemma aggregate_distinct_labels (labelKey dataKey : string)
    (data : list object) :
  (toLowerCase dataKey =? "count")%string = false ->
  NoDup (map (Part000.label labelKey) data) ->
  (forall row, In row data ->
               isArrayIndex (Part000.label labelKey row) = false
               /\ prototypeGet (Part000.label labelKey row) = VUndefined) ->
  Part000.aggregateDataForChart labelKey dataKey data
  = {| Part000.agg_labels := map (Part000.label labelKey) data;
       Part000.agg_values := map (Part000.cell dataKey) data |}.
Proof.
  intros Hc Hnd H. rewrite aggregate_two_ways, Hc.
  now apply distinct_labels_one_point_per_row.
Qed.

(** X5: rows whose labels are pairwise distinct, none of them an array
    index or the name of a member of [Object.prototype], are charted one
    point per row and in the order of the rows: the labels are the
    stringified labels and each value is [parseFloat(cell) || 0]. *)
Theorem distinct_labels_keep_rows
    (data : list object) (labelKey dataKey : string) :
  (toLowerCase dataKey =? "count")%string = false ->
  NoDup (map (Part000.label labelKey) data) ->
  (forall row, In row data ->
               isArrayIndex (Part000.label labelKey row) = false
               /\ prototypeGet (Part000.label labelKey row) = VUndefined) ->
  Part000.aggregateDataForChart labelKey dataKey data
  = {| Part000.agg_labels := map (Part000.label labelKey) data;
       Part000.agg_values := map (Part000.cell dataKey) data |}.
Proof. apply aggregate_distinct_labels. Qed.

(** Three cities, one with the sales as text and one without sales. *)
Lemma distinct_labels_keep_rows_cities :
  Part000.aggregateDataForChart "city" "sales" Cases.cities
  = {| Part000.agg_labels := ["NY"; "LA"; "SF"];
       Part000.agg_values :=
         [VNumber (ofZ 10); VNumber (ofZ 7); VNumber zero] |}.
Proof.
  rewrite (distinct_labels_keep_rows Cases.cities "city" "sales").
  - vm_compute. reflexivity.
  - reflexivity.
  - vm_compute. distinct.
  - intros row [<-|[<-|[<-|[]]]]; split; vm_compute; reflexivity.
Defined.

(** ** Reading back what was assigned *)

Section Assignment.

Lemma lookup_replace_other (k k' : string) (v : value) (o : object) :
  k <> k' -> lookup k' (replace k v o) = lookup k' o.
Proof.
  intros Hne. induction o as [|[h w] o IH]; simpl; auto.
  destruct (String.eqb_spec h k) as [->|Hk]; simpl.
  - destruct (String.eqb_spec k k'); [contradiction | reflexivity].
  - now rewrite IH.
Qed.

Lemma lookup_app_other (k k' : string) (v : value) (o : object) :
  k <> k' -> lookup k' (o ++ [(k, v)]) = lookup k' o.
Proof.
  intros Hne. induction o as [|[h w] o IH]; simpl.
  - destruct (String.eqb_spec k k'); [contradiction | reflexivity].
  - now rewrite IH.
Qed.

Lemma lookup_set_other (o : object) (k k' : string) (v : value) :
  k <> k' -> lookup k' (set o k v) = lookup k' o.
Proof.
  intros Hne. unfold set. destruct (lookup k o).
  - now apply lookup_replace_other.
  - destruct (k =? "__proto__")%string; auto. now apply lookup_app_other.
Qed.

Lemma lookup_set_same (o : object) (k : string) (v : value) :
  lookup k (set o k v)
  = match lookup k o with
    | Some _ => Some v
    | None => if (k =? "__proto__")%string then None else Some v
    end.
Proof.
  unfold set. destruct (lookup k o) as [w|] eqn:E.
  - now apply (lookup_replace k v w).
  - destruct (k =? "__proto__")%string; auto. now apply lookup_app_new.
Qed.

Lemma get_set_other (o : object) (k k' : string) (v : value) :
  k <> k' -> get (set o k v) k' = get o k'.
Proof. intros H. unfold get. now rewrite lookup_set_other. Qed.

Lemma get_set_same (o : object) (k : string) (v : value) :
  k <> "__proto__" -> get (set o k v) k = v.
Proof.
  intros H. unfold get. rewrite lookup_set_same.
  destruct (lookup k o); auto.
  destruct (String.eqb_spec k "__proto__"); [contradiction | reflexivity].
Qed.

Lemma lookup_In (k : string) (v : value) (o : object) :
  lookup k o = Some v -> In (k, v) o.
Proof.
  induction o as [|[h w] o IH]; simpl; [discriminate|].
  destruct (String.eqb_spec h k) as [->|_].
  - intros [= ->]. now left.
  - intros H. right. auto.
Qed.

Lemma In_lookup (k : string) (v : value) (o : object) :
  NoDup (created o) -> In (k, v) o -> lookup k o = Some v.
Proof.
  unfold created. induction o as [|[h w] o IH]; simpl; [tauto|].
  intros Hnd. apply NoDup_cons_iff in Hnd. destruct Hnd as [Hh Hnd].
  intros [[= -> ->]|Hin].
  - now rewrite String.eqb_refl.
  - destruct (String.eqb_spec h k) as [->|_]; auto.
    exfalso. apply Hh. apply in_map_iff. now exists (k, v).
Qed.

(** Listing the properties in another order does not change what a key
    reads. *)
Lemma lookup_permuted (k : string) (o o' : object) :
  NoDup (created o) -> Permutation o o' -> lookup k o = lookup k o'.
Proof.
  intros Hnd Hp.
  assert (Hnd' : NoDup (created o')).
  { eapply Permutation_NoDup; [|exact Hnd]. now apply Permutation_map. }
  destruct (lookup k o) as [v|] eqn:E.
  - symmetry. apply In_lookup; auto.
    eapply Permutation_in; [exact Hp|]. now apply lookup_In.
  - destruct (lookup k o') as [v|] eqn:E'; auto.
    apply lookup_In in E'.
    apply (Permutation_in _ (Permutation_sym Hp)) in E'.
    apply In_lookup in E'; auto. congruence.
Qed.

Lemma combine_entries (o : object) : combine (keys o) (values o) = entries o.
Proof.
  unfold keys, values. induction (entries o) as [|[k v] e IH]; simpl; congruence.
Qed.

Lemma pointOf_collect (o : object) (l : string) :
  NoDup (created o) -> Part000.pointOf (Part000.collect o) l = lookup l o.
Proof.
  intros Hnd. unfold Part000.pointOf, Part000.collect. simpl.
  rewrite combine_entries. symmetry.
  apply lookup_permuted; auto. apply Permutation_sym, entries_perm.
Qed.

End Assignment.

(** ** What a value depends on *)

Section Locality.
Variables labelKey dataKey : string.

Lemma fold_NoDup (step : object -> object -> object) (data : list object) :
  (forall o row,
      created (step o row) = addKey (created o) (Part000.label labelKey row)) ->
  NoDup (created (fold_left step data [])).
Proof.
  intros H. rewrite (created_fold labelKey step H).
  apply fold_addKey_NoDup. constructor.
Qed.

(** A step of the form that the counting and the summing branch share:
    the label of the row gets a value made from what it read as and from
    the row. *)
Lemma fold_own_rows (f : value -> object -> value) (l : string)
    (data : list object) (o o' : object) :
  lookup l o = lookup l o' ->
  lookup l (fold_left
              (fun o row => set o (Part000.label labelKey row)
                                (f (get o (Part000.label labelKey row)) row))
              data o)
  = lookup l (fold_left
                (fun o row => set o (Part000.label labelKey row)
                                  (f (get o (Part000.label labelKey row)) row))
                (Part000.ofLabel labelKey l data) o').
Proof.
  revert o o'. induction data as [|row data IH]; intros o o' H; simpl; auto.
  destruct (String.eqb_spec (Part000.label labelKey row) l) as [E|E]; simpl.
  - apply IH. rewrite E, !lookup_set_same. unfold get. rewrite H.
    destruct (lookup l o'); reflexivity.
  - apply IH. now rewrite lookup_set_other.
Qed.

Lemma point_of_count (data : list object) (l : string) :
  Part000.pointOf (Part000.countOccurrences labelKey data) l
  = Part000.pointOf
      (Part000.countOccurrences labelKey (Part000.ofLabel labelKey l data)) l.
Proof.
  unfold Part000.countOccurrences.
  rewrite !pointOf_collect by (apply fold_NoDup, created_countRow).
  apply (fold_own_rows
           (fun v _ => plus (or v (VNumber zero)) (VNumber one))).
  reflexivity.
Qed.

Lemma point_of_sum (data : list object) (l : string) :
  Part000.pointOf (Part000.sumAggregated labelKey dataKey data) l
  = Part000.pointOf
      (Part000.sumAggregated labelKey dataKey (Part000.ofLabel labelKey l data))
      l.
Proof.
  unfold Part000.sumAggregated.
  rewrite !pointOf_collect by (apply fold_NoDup, created_sumRow).
  apply (fold_own_rows
           (fun v row => plus (or v (VNumber zero)) (Part000.cell dataKey row))).
  reflexivity.
Qed.

End Locality.

(** X6: the value charted for a label is made from the rows that have this
    label, and from them alone: aggregating only those rows gives the same
    value for it (and no value if there is none). *)
Theorem value_from_own_rows (data : list object) (labelKey dataKey l : string) :
  Part000.pointOf (Part000.aggregateDataForChart labelKey dataKey data) l
  = Part000.pointOf
      (Part000.aggregateDataForChart labelKey dataKey
         (Part000.ofLabel labelKey l data)) l.
Proof.
  rewrite !aggregate_two_ways.
  destruct (toLowerCase dataKey =? "count")%string.
  - apply point_of_count.
  - apply point_of_sum.
Qed.

Lemma countRow_by_label (labelKey : string) (data data' : list object)
    (o : object) :
  map (Part000.label labelKey) data = map (Part000.label labelKey) data' ->
  fold_left (Part000.countRow labelKey) data o
  = fold_left (Part000.countRow labelKey) data' o.
Proof.
  revert data' o. induction data as [|row data IH]; intros [|row' data'] o;
    simpl; try discriminate; auto.
  intros [= E H]. unfold Part000.countRow at 2 4. cbv zeta. rewrite E.
  now apply IH.
Qed.

(** X7: with a value key that is "count" in any letter case the cells of
    the rows are never read: two row sets whose rows have the same labels,
    one by one, give the same result, and so do two such spellings of the
    key. *)
Theorem counting_reads_labels_only
    (data data' : list object) (labelKey dataKey dataKey' : string) :
  toLowerCase dataKey = "count" ->
  toLowerCase dataKey' = "count" ->
  map (Part000.label labelKey) data = map (Part000.label labelKey) data' ->
  Part000.aggregateDataForChart labelKey dataKey data
  = Part000.aggregateDataForChart labelKey dataKey' data'.
Proof.
  intros Hc Hc' H. unfold Part000.aggregateDataForChart.
  rewrite Hc, Hc'. simpl. unfold Part000.countOccurrences.
  now rewrite (countRow_by_label labelKey data data').
Qed.

(** The sales rows and the rows without sales have the same cities. *)
Lemma counting_reads_labels_only_cities :
  Part000.aggregateDataForChart "city" "count" Cases.unknownSales
  = Part000.aggregateDataForChart "city" "COUNT"
      [ [("city", VString "NY")]; [("city", VString "LA")];
        [("city", VString "NY")] ].
Proof.
  apply counting_reads_labels_only; reflexivity.
Defined.

(** X8: an empty row set is no failure: aggregation returns no label and
    no value, and [renderChart] resolves a chart without points from every
    blueprint that names a label reference, a value column and a type. *)
Theorem empty_rows_give_an_empty_chart
    (labelKey dataKey : string) (title : option string) (type : string)
    (label : reference) (names : list string) (color : option string)
    (others : list dataset) (options : option object) :
  Part000.aggregateDataForChart labelKey dataKey []
  = {| Part000.agg_labels := []; Part000.agg_values := [] |}
  /\ exists options',
       Part000.resolve
         {| Part000.title := title;
            Part000.config :=
              blueprint (Some type) label (Wrapped (dataKey :: names))
                        color others options |}
         (Some [])
       = Some {| Part000.chart_type := type;
                 Part000.chart_labels := [];
                 Part000.chart_values := [];
                 Part000.chart_options := options' |}.
Proof.
  assert (E : forall lk, Part000.aggregateDataForChart lk dataKey []
                         = {| Part000.agg_labels := [];
                              Part000.agg_values := [] |}).
  { intros lk. unfold Part000.aggregateDataForChart.
    destruct (toLowerCase dataKey =? "count")%string; reflexivity. }
  split; [apply E|].
  eexists. unfold Part000.resolve, blueprint. simpl. rewrite E. reflexivity.
Qed.

Section Zeros.
Variables labelKey dataKey : string.

Lemma replace_Forall (P : value -> Prop) (k : string) (v : value) (o : object) :
  P v -> Forall (fun kv => P (snd kv)) o ->
  Forall (fun kv => P (snd kv)) (replace k v o).
Proof.
  intros Hv. induction 1 as [|[h w] o Hw Ho IH]; simpl; [constructor|].
  destruct (h =? k)%string; constructor; auto.
Qed.

Lemma set_Forall (P : value -> Prop) (k : string) (v : value) (o : object) :
  P v -> Forall (fun kv => P (snd kv)) o ->
  Forall (fun kv => P (snd kv)) (set o k v).
Proof.
  intros Hv Ho. unfold set. destruct (lookup k o).
  - now apply replace_Forall.
  - destruct (k =? "__proto__")%string; auto.
    apply Forall_app. split; auto.
Qed.

Lemma sumRow_zeros (o row : object) :
  Part000.unparseable dataKey row = true ->
  prototypeGet (Part000.label labelKey row) = VUndefined ->
  Forall (fun kv => snd kv = VNumber zero) o ->
  Forall (fun kv => snd kv = VNumber zero)
         (Part000.sumRow labelKey dataKey o row).
Proof.
  intros Hu Hp Ho. unfold Part000.sumRow. cbv zeta.
  apply (set_Forall (fun v => v = VNumber zero)); auto.
  rewrite (cell_unparseable dataKey row Hu).
  unfold get. destruct (lookup (Part000.label labelKey row) o) as [v|] eqn:E.
  - apply lookup_In in E. rewrite Forall_forall in Ho.
    apply Ho in E. simpl in E. rewrite E. reflexivity.
  - rewrite Hp. reflexivity.
Qed.

Lemma fold_sumRow_zeros (data : list object) (o : object) :
  (forall row, In row data ->
               Part000.unparseable dataKey row = true
               /\ prototypeGet (Part000.label labelKey row) = VUndefined) ->
  Forall (fun kv => snd kv = VNumber zero) o ->
  Forall (fun kv => snd kv = VNumber zero)
         (fold_left (Part000.sumRow labelKey dataKey) data o).
Proof.
  revert o. induction data as [|row data IH]; intros o H Ho; simpl; auto.
  apply IH; [intros r Hr; apply H; now right|].
  destruct (H row (or_introl eq_refl)). now apply sumRow_zeros.
Qed.

End Zeros.

(** X9: when the value key is not "count" and no row has a cell that
    parses under it (the column is missing, null or text), every label is
    charted with the value 0, provided no label names a member of
    [Object.prototype]. *)
Theorem unparseable_column_charts_zeros
    (data : list object) (labelKey dataKey : string) :
  (toLowerCase dataKey =? "count")%string = false ->
  (forall row, In row data ->
               Part000.unparseable dataKey row = true
               /\ prototypeGet (Part000.label labelKey row) = VUndefined) ->
  Forall (eq (VNumber zero))
         (Part000.agg_values
            (Part000.aggregateDataForChart labelKey dataKey data)).
Proof.
  intros Hc H. rewrite aggregate_two_ways, Hc.
  unfold Part000.sumAggregated, Part000.collect, values. simpl.
  apply Forall_forall. intros v Hv.
  apply in_map_iff in Hv. destruct Hv as ([k w] & <- & Hin). simpl.
  apply (Permutation_in _ (entries_perm _)) in Hin.
  pose proof (fold_sumRow_zeros labelKey dataKey data [] H (Forall_nil _)) as Hz.
  rewrite Forall_forall in Hz. symmetry. exact (Hz _ Hin).
Qed.

(** Sales that are "n/a", missing and null. *)
Lemma unparseable_column_charts_zeros_unknown :
  Part000.aggregateDataForChart "city" "sales" Cases.unknownSales
  = {| Part000.agg_labels := ["NY"; "LA"];
       Part000.agg_values := [VNumber zero; VNumber zero] |}
  /\ Forall (eq (VNumber zero))
            (Part000.agg_values
               (Part000.aggregateDataForChart "city" "sales" Cases.unknownSales)).
Proof.
  split; [vm_compute; reflexivity|].
  apply unparseable_column_charts_zeros.
  - reflexivity.
  - intros row [<-|[<-|[<-|[]]]]; split; vm_compute; reflexivity.
Defined.

(** ** The options of a chart *)

(** X11: a resolved chart is responsive and does not keep its aspect
    ratio, whatever the blueprint says of these two options, and every
    other option reads as in the blueprint. *)
Theorem options_forced_and_kept
    (chartData : Part000.chartData) (data : option (list object))
    (config : Part000.chartConfig) :
  Part000.resolve chartData data = Some config ->
  let given := match options (Part000.config chartData) with
               | Some o => o
               | None => []
               end in
  get (Part000.chart_options config) "responsive" = VBool true
  /\ get (Part000.chart_options config) "maintainAspectRatio" = VBool false
  /\ forall k, k <> "responsive" -> k <> "maintainAspectRatio" ->
               get (Part000.chart_options config) k = get given k.
Proof.
  intros H given. unfold Part000.resolve in H.
  destruct (labels (Part000.config chartData)); [|discriminate].
  destruct (hd_error (datasets (Part000.config chartData))) as [dataset|];
    [|discriminate].
  destruct (Blueprint.data dataset) as [reference|]; [|discriminate].
  destruct (Part000.asString (first reference)); [|discriminate].
  destruct data; [|discriminate].
  destruct (Blueprint.type (Part000.config chartData)); [|discriminate].
  injection H as <-. simpl. fold given. split; [|split].
  - rewrite get_set_other by discriminate.
    apply get_set_same. discriminate.
  - apply get_set_same. discriminate.
  - intros k H1 H2. rewrite !get_set_other; auto.
Qed.

(** A line chart that asks not to be responsive and not to animate. *)
Lemma options_forced_and_kept_line :
  exists config,
    Part000.resolve Cases.withOptions (Some Scenario.sales) = Some config
    /\ get (Part000.chart_options config) "responsive" = VBool true
    /\ get (Part000.chart_options config) "animation" = VBool false.
Proof.
  destruct (Part000.resolve Cases.withOptions (Some Scenario.sales))
    as [config|] eqn:E; [|vm_compute in E; discriminate].
  exists config. split; [reflexivity|].
  destruct (options_forced_and_kept _ _ _ E) as (H1 & _ & H3).
  split; [exact H1|].
  rewrite H3 by discriminate. reflexivity.
Defined.

(** ** What updateResults leaves on the page *)

Section Drawn.
Import Part000.

Lemma renderEach_live (data : option (list object))
    (items : list (nat * chartData)) (p : page) :
  map look (live (renderEach data items p))
  = map look (live p) ++ drawn data items.
Proof.
  unfold renderEach. revert p.
  induction items as [|[n c] items IH]; intros p; simpl.
  - now rewrite app_nil_r.
  - rewrite IH. unfold renderChart.
    destruct (resolve c data); simpl; auto.
    rewrite map_app, <- app_assoc. reflexivity.
Qed.

Lemma numbered_firstn (charts : list chartData) :
  numbered (firstn 4 charts) = numbered charts.
Proof.
  unfold numbered. symmetry.
  exact (combine_firstn_l (seq 1 4) charts).
Qed.

Lemma drawn_length (data : option (list object))
    (items : list (nat * chartData)) :
  (List.length (drawn data items) <= List.length items)%nat.
Proof.
  induction items as [|[n c] items IH]; simpl; auto.
  rewrite length_app. destruct (resolve c data); simpl; lia.
Qed.

Lemma toDraw_length (r : response) : (List.length (toDraw r) <= 4)%nat.
Proof.
  unfold toDraw, numbered. destruct (charts r) as [l|]; [|simpl; lia].
  rewrite length_combine. change (List.length (seq 1 4)) with 4%nat. lia.
Qed.

Lemma updateResults_live (p : page) (data : option (list object))
    (r : response) :
  reachable p data [] ->
  map look (live (updateResults r p)) = drawn (results r) (toDraw r).
Proof.
  intros H. apply reachable_consistent in H. destruct H as (Hlive & _ & _).
  unfold updateResults. rewrite renderEach_live.
  now rewrite (proj1 (reset_clears p Hlive)).
Qed.

Lemma updateResults_at_most_four (p : page) (data : option (list object))
    (r : response) :
  reachable p data [] ->
  (List.length (live (updateResults r p)) <= 4)%nat.
Proof.
  intros H. rewrite <- (length_map look), (updateResults_live p data r H).
  eapply Nat.le_trans; [apply drawn_length | apply toDraw_length].
Qed.

End Drawn.

(** X12: once [updateResults] has run, the live charts are the charts of
    the response among its first four that resolve, each on the canvas of
    its position and in this order: a chart that fails to resolve leaves
    its canvas without a chart and does not keep the later ones from being
    drawn, and no chart of an earlier response is left. *)
Theorem updateResults_draws_what_resolves
    (p : Part000.page) (data : option (list object)) (r : Part000.response) :
  Part000.reachable p data [] ->
  map Part000.look (Part000.live (Part000.updateResults r p))
  = Part000.drawn (Part000.results r) (Part000.toDraw r).
Proof.
  apply updateResults_live.
Qed.

(** Six charts, the second and the third of which fail: the first and the
    fourth are drawn, on the canvases 1 and 4. *)
Lemma updateResults_draws_what_resolves_six :
  map Part000.canvas
      (Part000.live (Part000.updateResults Cases.sixCharts
                       (Part000.updateResults Scenario.twoCharts
                          Part000.initial)))
  = [1%nat; 4%nat].
Proof.
  assert (H : Part000.reachable
                (Part000.updateResults Scenario.twoCharts Part000.initial)
                (Part000.results Scenario.twoCharts) []).
  { apply (updateResults_reachable _ None). constructor. }
  pose proof (updateResults_draws_what_resolves _ _ Cases.sixCharts H) as E.
  apply (f_equal (map fst)) in E. rewrite map_map in E.
  etransitivity; [exact E | vm_compute; reflexivity].
Defined.

(** X13: [updateResults] draws at most four charts, and only the first
    four charts of a response count: the page is the same as for the
    response cut to its first four charts. *)
Theorem only_the_first_four_charts
    (p : Part000.page) (data : option (list object)) (r : Part000.response) :
  Part000.reachable p data [] ->
  Part000.updateResults r p = Part000.updateResults (Part000.firstFour r) p
  /\ (List.length (Part000.live (Part000.updateResults r p)) <= 4)%nat.
Proof.
  intros H. split.
  - unfold Part000.updateResults, Part000.toDraw.
    change (Part000.charts (Part000.firstFour r))
      with (option_map (firstn 4) (Part000.charts r)).
    change (Part000.results (Part000.firstFour r)) with (Part000.results r).
    destruct (Part000.charts r); cbn [option_map];
      [rewrite numbered_firstn|]; reflexivity.
  - apply (updateResults_at_most_four p data r H).
Qed.

Lemma only_the_first_four_charts_six :
  Part000.updateResults Cases.sixCharts Part000.initial
  = Part000.updateResults (Part000.firstFour Cases.sixCharts) Part000.initial.
Proof.
  exact (proj1 (only_the_first_four_charts Part000.initial None Cases.sixCharts
                  Part000.reach_initial)).
Defined.

(** ** The table of the rows *)

Section Table.
Import Results.

Lemma append_assoc (a b c : string) : ((a ++ b) ++ c = a ++ (b ++ c))%string.
Proof. induction a as [|x a IH]; simpl; congruence. Qed.

Lemma fold_left_ext_in {A B : Type} (f g : A -> B -> A) (l : list B) (a : A) :
  (forall a x, In x l -> f a x = g a x) ->
  fold_left f l a = fold_left g l a.
Proof.
  revert a. induction l as [|x l IH]; intros a H; simpl; auto.
  rewrite (H a x) by (simpl; auto). apply IH. intros; apply H; simpl; auto.
Qed.

Lemma bodyRow_agree (headers : list string) (table : string)
    (row row' : object) :
  (forall h, In h headers -> ToString (get row h) = ToString (get row' h)) ->
  bodyRow headers table row = bodyRow headers table row'.
Proof.
  intros H. unfold bodyRow. f_equal.
  apply fold_left_ext_in. intros a h Hh. now rewrite (H h Hh).
Qed.

Lemma body_agree (headers : list string) (rows rows' : list object) :
  Forall2 (fun row row' =>
             forall h, In h headers ->
                       ToString (get row h) = ToString (get row' h))
          rows rows' ->
  forall (k : nat) (table : string),
    fold_left (bodyRow headers) (firstn k rows) table
    = fold_left (bodyRow headers) (firstn k rows') table.
Proof.
  induction 1 as [|row row' rows rows' H _ IH]; intros k table; auto.
  destruct k as [|k]; simpl; auto.
  rewrite (bodyRow_agree _ _ row row' H). apply IH.
Qed.

End Table.

(** X14: a table of more than fifty rows is the table of its first fifty
    rows followed by the note that gives the number of rows: the rows after
    the fiftieth reach the page by their number only. *)
Theorem table_cut_at_fifty_rows (data : list object) :
  (50 < List.length data)%nat ->
  Results.createTable data
  = option_map (fun table => (table ++ Results.note data)%string)
               (Results.createTable (firstn 50 data)).
Proof.
  intros H. destruct data as [|first rest]; [simpl in H; lia|].
  assert (E : firstn 50 (first :: rest) = first :: firstn 49 rest)
    by reflexivity.
  assert (L : List.length (firstn 50 (first :: rest)) = 50%nat)
    by (rewrite length_firstn; lia).
  assert (F : firstn 50 (firstn 50 (first :: rest)) = firstn 50 (first :: rest))
    by (rewrite firstn_firstn; reflexivity).
  revert L F. rewrite E. intros L F. unfold Results.createTable.
  rewrite L, F, <- E.
  destruct (Nat.ltb_spec 50 (List.length (first :: rest))); [|lia].
  reflexivity.
Qed.

(** Fifty-one rows. *)
Lemma table_cut_at_fifty_rows_more :
  let data := repeat [("n", VNumber one)] 51 in
  Results.createTable data
  = option_map (fun table => (table ++ Results.note data)%string)
               (Results.createTable (firstn 50 data)).
Proof.
  apply table_cut_at_fifty_rows. rewrite repeat_length. lia.
Defined.

(** X15: the columns of the table are the keys of the first row: two row
    sets with the same first row whose later rows print alike in these
    columns give the same table, whatever other columns the later rows
    have. *)
Theorem table_columns_of_first_row (first : object) (rows rows' : list object) :
  Forall2 (fun row row' =>
             forall h, In h (keys first) ->
                       ToString (get row h) = ToString (get row' h))
          rows rows' ->
  Results.createTable (first :: rows) = Results.createTable (first :: rows').
Proof.
  intros H. unfold Results.createTable, Results.note, Results.count.
  assert (L : List.length (first :: rows) = List.length (first :: rows'))
    by (simpl; f_equal; eapply Forall2_length, H).
  rewrite L.
  assert (B : forall table,
             fold_left (Results.bodyRow (keys first))
                       (firstn 50 (first :: rows)) table
             = fold_left (Results.bodyRow (keys first))
                         (firstn 50 (first :: rows')) table).
  { intros table. apply body_agree. constructor; auto. }
  now rewrite B.
Qed.

(** The sales of the second row are in no column of the table. *)
Lemma table_columns_of_first_row_city :
  Results.createTable
    [ [("city", VString "NY")]; [("city", VString "LA"); ("sales", VNull)] ]
  = Results.createTable [ [("city", VString "NY")]; [("city", VString "LA")] ].
Proof.
  apply table_columns_of_first_row.
  constructor; [|constructor].
  intros h [<-|[]]. reflexivity.
Defined.

(** ** The chart slots of the dashboard *)

Section Slots.
Import Part000 Results.
Variable message : chartData -> option (list object) -> string.

Lemma resolve_prepare (cd : chartData) (data : option (list object)) :
  resolve cd data
  = match prepare cd data, type (config cd) with
    | Some (aggregated, options), Some type =>
        Some {| chart_type := type;
                chart_labels := agg_labels aggregated;
                chart_values := agg_values aggregated;
                chart_options := options |}
    | _, _ => None
    end.
Proof.
  unfold resolve, prepare.
  destruct (labels (config cd)); auto.
  destruct (hd_error (datasets (config cd))) as [dataset|]; auto.
  destruct (Blueprint.data dataset) as [reference|]; auto.
  destruct (asString (first reference)); auto.
  destruct data; auto.
Qed.

(** The slot of a chart shows the canvas exactly when the chart resolves. *)
Lemma show_resolved (n : nat) (cd : chartData) (data : option (list object))
    (s : slot) :
  match resolve cd data with
  | Some _ =>
      canvasDisplay (show message n cd data s) = "block"
      /\ placeholderDisplay (show message n cd data s) = "none"
  | None =>
      canvasDisplay (show message n cd data s) = "none"
      /\ placeholderDisplay (show message n cd data s) = "flex"
      /\ placeholderText (show message n cd data s)
         = ("Failed to render chart: " ++ message cd data)%string
  end.
Proof.
  rewrite resolve_prepare. unfold show.
  destruct (prepare cd data) as [[a o]|]; simpl; auto.
  destruct (type (config cd)); simpl; auto.
Qed.

Lemma fold_page (data : option (list object))
    (items : list (nat * chartData)) (p : page) (v : view) :
  fst (fold_left (fun s item =>
                    Results.renderChart message (fst item) (snd item) data s)
                 items (p, v))
  = renderEach data items p.
Proof.
  unfold renderEach. revert p v.
  induction items as [|[n cd] items IH]; intros p v; simpl; auto.
Qed.

Lemma fold_view (data : option (list object))
    (items : list (nat * chartData)) (p : page) (v : view) :
  let v' := snd (fold_left (fun s item =>
                    Results.renderChart message (fst item) (snd item) data s)
                 items (p, v)) in
  downloadBtn v' = downloadBtn v
  /\ resultsSection v' = resultsSection v
  /\ (forall n, ~ In n (map fst items) -> slots v' n = slots v n)
  /\ (NoDup (map fst items) ->
      forall n cd, In (n, cd) items ->
                   slots v' n = show message n cd data (slots v n)).
Proof.
  revert p v. induction items as [|[k c] items IH]; intros p v; simpl.
  - repeat split; auto. intros _ n cd [].
  - specialize (IH (Part000.renderChart k c data p)
                   {| slots := update (slots v) k
                                 (show message k c data (slots v k));
                      downloadBtn := downloadBtn v;
                      resultsSection := resultsSection v |}).
    simpl in IH. destruct IH as (Hb & Hs & Ho & Hi).
    repeat split; auto.
    + intros n Hn. rewrite Ho by tauto. unfold update.
      destruct (Nat.eqb_spec n k); [subst; tauto | reflexivity].
    + intros Hnd n cd Hin. apply NoDup_cons_iff in Hnd.
      destruct Hnd as [Hk Hnd]. destruct Hin as [[= <- <-]|Hin].
      * rewrite Ho by assumption. unfold update. now rewrite Nat.eqb_refl.
      * rewrite (Hi Hnd n cd Hin). unfold update.
        destruct (Nat.eqb_spec n k) as [->|]; [|reflexivity].
        exfalso. apply Hk. apply in_map_iff. now exists (k, cd).
Qed.

Lemma fold_waiting (l : list nat) (slots : nat -> slot) (n : nat) :
  fold_left (fun slots i => update slots i waiting) l slots n
  = if existsb (Nat.eqb n) l then waiting else slots n.
Proof.
  revert slots. induction l as [|i l IH]; intros slots; simpl; auto.
  rewrite IH. unfold update.
  destruct (existsb (Nat.eqb n) l); [now rewrite orb_true_r|].
  now rewrite orb_false_r.
Qed.

Lemma updateResults_page (r : response) (p : page) (v : view) :
  fst (Results.updateResults message r (p, v)) = Part000.updateResults r p.
Proof.
  unfold Results.updateResults, Part000.updateResults, toDraw.
  destruct (charts r) as [[|c cs]|]; auto.
  cbn [fst]. apply fold_page.
Qed.

Lemma seq_four (n : nat) :
  existsb (Nat.eqb n) (seq 1 4) = true <-> In n (seq 1 4).
Proof.
  rewrite existsb_exists. split.
  - intros (x & Hx & E). apply Nat.eqb_eq in E. now subst.
  - intros H. exists n. split; auto. apply Nat.eqb_refl.
Qed.

Lemma toDraw_keys (r : response) (n : nat) :
  In n (map fst (toDraw r)) -> In n (seq 1 4).
Proof.
  unfold toDraw, numbered. destruct (charts r); [|intros []].
  apply combine_keys_In.
Qed.

(** The slots once [updateResults] has run: the slot of a chart of the
    response is what [renderChart] makes of a waiting slot, the others of
    the four are waiting. *)
Lemma updateResults_slots (r : response) (p : page) (v : view) (n : nat) :
  let v' := snd (Results.updateResults message r (p, v)) in
  (forall cd, In (n, cd) (toDraw r) ->
              slots v' n = show message n cd (results r) waiting)
  /\ (In n (seq 1 4) -> ~ In n (map fst (toDraw r)) -> slots v' n = waiting).
Proof.
  unfold Results.updateResults, toDraw.
  destruct (charts r) as [[|c cs]|].
  - change (numbered []) with (@nil (nat * chartData)). cbn [snd slots].
    split; [intros cd []|]. intros H _. rewrite fold_waiting.
    apply seq_four in H. now rewrite H.
  - cbn [snd slots].
    match goal with
    | |- context [fold_left ?f (numbered (c :: cs)) (?p0, ?v0)] =>
        destruct (fold_view (results r) (numbered (c :: cs)) p0 v0)
          as (_ & _ & Ho & Hi)
    end.
    cbn [slots] in Ho, Hi. split.
    + intros cd Hin. rewrite (Hi (numbered_keys _) n cd Hin).
      rewrite fold_waiting.
      assert (H : In n (seq 1 4)).
      { apply (combine_keys_In _ (c :: cs)). apply in_map_iff.
        now exists (n, cd). }
      apply seq_four in H. now rewrite H.
    + intros H Hn. rewrite (Ho n Hn). rewrite fold_waiting.
      apply seq_four in H. now rewrite H.
  - cbn [snd slots]. split; [intros cd []|]. intros H _.
    rewrite fold_waiting. apply seq_four in H. now rewrite H.
Qed.

Lemma numbered_keys_toDraw (r : response) : NoDup (map fst (toDraw r)).
Proof.
  unfold toDraw. destruct (charts r); [apply numbered_keys | constructor].
Qed.

Lemma NoDup_keys_functional {A B : Type} (l : list (A * B)) (k : A) (x y : B) :
  NoDup (map fst l) -> In (k, x) l -> In (k, y) l -> x = y.
Proof.
  induction l as [|[k' z] l IH]; simpl; [tauto|].
  intros Hnd. apply NoDup_cons_iff in Hnd. destruct Hnd as [Hk Hnd].
  intros [E|Hx] [E'|Hy]; auto; try congruence.
  - exfalso. apply Hk. apply in_map_iff. exists (k, y).
    split; [simpl; congruence | auto].
  - exfalso. apply Hk. apply in_map_iff. exists (k, x).
    split; [simpl; congruence | auto].
Qed.

(** A canvas has a live chart exactly when its chart resolved. *)
Lemma on_drawn (r : response) (p : page) (data : option (list object))
    (n : nat) :
  reachable p data [] ->
  (forall cd, In (n, cd) (toDraw r) ->
              match resolve cd (results r) with
              | Some _ => on n (Part000.updateResults r p) <> []
              | None => on n (Part000.updateResults r p) = []
              end)
  /\ (~ In n (map fst (toDraw r)) -> on n (Part000.updateResults r p) = []).
Proof.
  intros H.
  pose proof (updateResults_live p data r H) as E.
  assert (K : forall c, In c (live (Part000.updateResults r p)) ->
                        exists cd, In (canvas c, cd) (toDraw r)
                                   /\ resolve cd (results r) = Some (shown c)).
  { intros c Hc. apply (in_map look) in Hc. rewrite E in Hc.
    unfold drawn in Hc. apply in_flat_map in Hc.
    destruct Hc as ([k cd] & Hin & Hc). simpl in Hc.
    destruct (resolve cd (results r)) as [cfg|] eqn:R; [|destruct Hc].
    destruct Hc as [[= <- <-]|[]]. now exists cd. }
  split.
  - intros cd Hin. destruct (resolve cd (results r)) as [cfg|] eqn:R.
    + assert (Hd : In (n, cfg) (drawn (results r) (toDraw r))).
      { unfold drawn. apply in_flat_map. exists (n, cd). split; auto.
        simpl. rewrite R. now left. }
      rewrite <- E in Hd. apply in_map_iff in Hd.
      destruct Hd as (c & [= Hc _] & Hl). intros Hon.
      assert (Hf : In c (on n (Part000.updateResults r p))).
      { unfold on. apply filter_In. split; auto. now apply Nat.eqb_eq. }
      rewrite Hon in Hf. destruct Hf.
    + unfold on. apply filter_nothing. intros c Hc.
      apply Nat.eqb_neq. intros <-.
      destruct (K c Hc) as (cd' & Hin' & R').
      assert (cd' = cd).
      { pose proof (numbered_keys_toDraw r) as Hnd.
        eapply NoDup_keys_functional; eauto. }
      subst. congruence.
  - intros Hn. unfold on. apply filter_nothing. intros c Hc.
    apply Nat.eqb_neq. intros <-.
    destruct (K c Hc) as (cd' & Hin' & _). apply Hn.
    apply in_map_iff. now exists (canvas c, cd').
Qed.

End Slots.

(** X16: once [updateResults] has run, each of the four chart slots shows
    either its canvas or its placeholder, and the canvas exactly when a live
    chart is on it. *)
Theorem canvas_shown_iff_chart_live
    (message : Part000.chartData -> option (list object) -> string)
    (r : Part000.response) (p : Part000.page) (v : Results.view)
    (data : option (list object)) (n : nat) :
  Part000.reachable p data [] ->
  In n (seq 1 4) ->
  let s := Results.updateResults message r (p, v) in
  let slot := Results.slots (snd s) n in
  (Part000.on n (fst s) <> []
   /\ Results.canvasDisplay slot = "block"
   /\ Results.placeholderDisplay slot = "none")
  \/ (Part000.on n (fst s) = []
      /\ Results.canvasDisplay slot = "none"
      /\ Results.placeholderDisplay slot = "flex").
Proof.
  intros H Hn s slot. subst s slot. rewrite updateResults_page.
  destruct (updateResults_slots message r p v n) as [Hin Hout].
  destruct (on_drawn r p data n H) as [Hd Hf].
  destruct (in_dec Nat.eq_dec n (map fst (Part000.toDraw r))) as [Hk|Hk].
  - apply in_map_iff in Hk. destruct Hk as ([k cd] & E & Hk).
    simpl in E. subst k. rewrite (Hin cd Hk). specialize (Hd cd Hk).
    pose proof (show_resolved message n cd (Part000.results r)
                  Results.waiting) as Hs.
    destruct (Part000.resolve cd (Part000.results r)); [left|right]; tauto.
  - right. rewrite (Hout Hn Hk). auto.
Qed.

(** The second chart of the six fails: its placeholder shows. *)
Lemma canvas_shown_iff_chart_live_six :
  let s := Results.updateResults (fun _ _ => "no type") Cases.sixCharts
             (Part000.initial,
              {| Results.slots := fun _ => Results.waiting;
                 Results.downloadBtn := "none";
                 Results.resultsSection := [] |}) in
  Part000.on 2 (fst s) = []
  /\ Results.placeholderDisplay (Results.slots (snd s) 2%nat) = "flex".
Proof.
  destruct (canvas_shown_iff_chart_live (fun _ _ => "no type") Cases.sixCharts
              Part000.initial
              {| Results.slots := fun _ => Results.waiting;
                 Results.downloadBtn := "none";
                 Results.resultsSection := [] |}
              None 2%nat Part000.reach_initial)
    as [(H & _)|(H1 & _ & H2)].
  - simpl. tauto.
  - exfalso. apply H. vm_compute. reflexivity.
  - split; assumption.
Defined.

(** X17: a chart that lacks nothing but its type is not drawn and its
    placeholder reports the failure, yet its title is on the page: the
    title is written before the type is read.  A chart that fails earlier
    has no title. *)
Theorem title_written_before_type_is_read
    (message : Part000.chartData -> option (list object) -> string)
    (r : Part000.response) (p : Part000.page) (v : Results.view)
    (data : option (list object)) (n : nat) (cd : Part000.chartData) :
  Part000.reachable p data [] ->
  In (n, cd) (Part000.toDraw r) ->
  Blueprint.type (Part000.config cd) = None ->
  let s := Results.updateResults message r (p, v) in
  let slot := Results.slots (snd s) n in
  Part000.on n (fst s) = []
  /\ Results.canvasDisplay slot = "none"
  /\ Results.placeholderText slot
     = ("Failed to render chart: " ++ message cd (Part000.results r))%string
  /\ Results.titleText slot
     = match Results.prepare cd (Part000.results r) with
       | Some _ => Results.titleOf n cd
       | None => ""
       end.
Proof.
  intros H Hin Ht s slot. subst s slot. rewrite updateResults_page.
  destruct (updateResults_slots message r p v n) as [Hs _].
  destruct (on_drawn r p data n H) as [Hd _].
  rewrite (Hs cd Hin). specialize (Hd cd Hin).
  pose proof (show_resolved message n cd (Part000.results r)
                Results.waiting) as Hr.
  rewrite resolve_prepare, Ht in Hd, Hr.
  assert (E : match Results.prepare cd (Part000.results r) with
              | Some (_, _) => None
              | None => @None Part000.chartConfig
              end = None)
    by (destruct (Results.prepare cd (Part000.results r)) as [[a o]|]; auto).
  rewrite E in Hd, Hr. repeat split; try tauto.
  unfold Results.show.
  destruct (Results.prepare cd (Part000.results r)); [rewrite Ht|];
    reflexivity.
Qed.

(** The second of the six charts has no type; it is titled [Chart 2]. *)
Lemma title_written_before_type_is_read_six :
  let s := Results.updateResults (fun _ _ => "no type") Cases.sixCharts
             (Part000.initial,
              {| Results.slots := fun _ => Results.waiting;
                 Results.downloadBtn := "none";
                 Results.resultsSection := [] |}) in
  Part000.on 2 (fst s) = []
  /\ Results.titleText (Results.slots (snd s) 2%nat) = "Chart 2".
Proof.
  assert (Hin : In (2%nat, {| Part000.title := None;
                             Part000.config :=
                               blueprint None (Wrapped ["city"])
                                 (Wrapped ["sales"]) None [] None |})
                   (Part000.toDraw Cases.sixCharts))
    by (simpl; tauto).
  destruct (title_written_before_type_is_read (fun _ _ => "no type")
              Cases.sixCharts Part000.initial
              {| Results.slots := fun _ => Results.waiting;
                 Results.downloadBtn := "none";
                 Results.resultsSection := [] |}
              None 2%nat _ Part000.reach_initial Hin eq_refl)
    as (H1 & _ & _ & H2).
  split; [exact H1|]. rewrite H2. vm_compute. reflexivity.
Defined.

(** ** The download of the charts *)

Section Download.
Import Part000 Results.

Lemma sorted_remove {A : Type} (R : A -> A -> Prop) (l1 l2 : list A) (x : A) :
  StronglySorted R (l1 ++ x :: l2) -> StronglySorted R (l1 ++ l2).
Proof.
  induction l1 as [|a l1 IH]; simpl; intros H.
  - now apply StronglySorted_inv in H.
  - apply StronglySorted_inv in H. destruct H as [Hs Hf].
    constructor; auto.
    apply Forall_app in Hf. destruct Hf as [F1 F2].
    apply Forall_app. split; auto. now apply Forall_inv_tail in F2.
Qed.

Lemma combine_keys_sorted {A B : Type} (R : A -> A -> Prop)
    (l : list A) (l' : list B) :
  StronglySorted R l -> StronglySorted R (map fst (combine l l')).
Proof.
  intros H. revert l'.
  induction H as [|a l _ IH Hf]; intros [|b l']; simpl; try constructor; auto.
  apply Forall_forall. intros x Hx. apply combine_keys_In in Hx.
  rewrite Forall_forall in Hf. auto.
Qed.

Lemma seq_four_sorted : StronglySorted lt (seq 1 4).
Proof. simpl. repeat constructor; lia. Qed.

(** In the render loop the chart numbers of [chartInstances] and of the
    charts still to draw ascend, and are among 1 to 4. *)
Lemma reachable_ascending p data pending :
  reachable p data pending ->
  StronglySorted lt (map fst (chartInstances p) ++ map fst pending)
  /\ Forall (fun n => In n (seq 1 4))
            (map fst (chartInstances p) ++ map fst pending).
Proof.
  induction 1 as [|p data r _ _|p data n c rest Hr IH].
  - simpl. split; constructor.
  - change (chartInstances (reset p)) with (@nil (nat * chart)).
    cbn [map app]. unfold toDraw, numbered. destruct (charts r) as [l|].
    + split; [apply combine_keys_sorted, seq_four_sorted|].
      apply Forall_forall. intros x. apply combine_keys_In.
    + split; constructor.
  - destruct IH as [Hs Hf]. simpl in Hs, Hf.
    apply reachable_consistent in Hr. destruct Hr as (_ & _ & Hnd).
    simpl in Hnd. unfold Part000.renderChart.
    destruct (resolve c data) as [config|]; simpl.
    + rewrite assign_new.
      * rewrite map_app, <- app_assoc. simpl. auto.
      * apply NoDup_remove_2 in Hnd. intros Hin. apply Hnd.
        apply in_or_app. now left.
    + split; [eapply sorted_remove, Hs|].
      apply Forall_app in Hf. destruct Hf as [F1 F2].
      apply Forall_app. split; auto. now apply Forall_inv_tail in F2.
Qed.

Lemma insertKey_sorted (l : list nat) :
  StronglySorted lt l -> fold_right insertKey [] l = l.
Proof.
  induction 1 as [|a l _ IH Hf]; simpl; auto.
  rewrite IH. destruct l as [|m l]; simpl; auto.
  apply Forall_inv in Hf.
  destruct (Nat.leb_spec a m); [reflexivity | lia].
Qed.

Lemma links_images (now : nat -> Z) (nums : list nat)
    (m : list (nat * chart)) (calls : nat) :
  map image (links now calls nums m)
  = flat_map (fun n => match instance n m with
                       | Some c => [c]
                       | None => []
                       end) nums.
Proof.
  revert calls. induction nums as [|n nums IH]; intros calls; simpl; auto.
  destruct (instance n m); simpl; rewrite IH; reflexivity.
Qed.

Lemma flat_map_ext_in {A B : Type} (f g : A -> list B) (l : list A) :
  (forall a, In a l -> f a = g a) -> flat_map f l = flat_map g l.
Proof.
  induction l as [|a l IH]; simpl; auto.
  intros H. rewrite (H a), IH; auto.
Qed.

Lemma instance_keys (m : list (nat * chart)) :
  NoDup (map fst m) ->
  flat_map (fun n => match instance n m with
                     | Some c => [c]
                     | None => []
                     end) (map fst m)
  = map snd m.
Proof.
  induction m as [|[k c] m IH]; simpl; auto.
  intros Hnd. apply NoDup_cons_iff in Hnd. destruct Hnd as [Hk Hnd].
  rewrite Nat.eqb_refl. simpl. f_equal. rewrite <- IH by assumption.
  apply flat_map_ext_in. intros n Hn.
  destruct (Nat.eqb_spec k n) as [->|]; [tauto | reflexivity].
Qed.

Lemma chart_number_digit (n : nat) :
  In n (seq 1 4) ->
  NumberToString (ofZ (Z.of_nat n))
  = String (ascii_of_nat (48 + n)) EmptyString.
Proof.
  simpl. intros [<-|[<-|[<-|[<-|[]]]]]; vm_compute; reflexivity.
Qed.

Lemma name_number (n n' : nat) (t t' : string) :
  In n (seq 1 4) -> In n' (seq 1 4) ->
  ("chart_" ++ NumberToString (ofZ (Z.of_nat n)) ++ "_" ++ t ++ ".png")%string
  = ("chart_" ++ NumberToString (ofZ (Z.of_nat n')) ++ "_" ++ t' ++ ".png")%string ->
  n = n'.
Proof.
  intros Hn Hn'. rewrite !chart_number_digit by assumption.
  simpl in Hn, Hn'.
  destruct Hn as [<-|[<-|[<-|[<-|[]]]]];
    destruct Hn' as [<-|[<-|[<-|[<-|[]]]]];
    intros H; try reflexivity; exfalso; vm_compute in H; discriminate.
Qed.

Lemma links_names (now : nat -> Z) (nums : list nat)
    (m : list (nat * chart)) (calls : nat) (s : string) :
  In s (map name (links now calls nums m)) ->
  exists n t, In n nums
              /\ s = ("chart_" ++ NumberToString (ofZ (Z.of_nat n)) ++ "_"
                      ++ t ++ ".png")%string.
Proof.
  revert calls.
  induction nums as [|n nums IH]; intros calls; cbn [links]; [intros []|].
  destruct (instance n m); cbn [map name In].
  - intros [<-|H].
    + exists n. eexists. split; [now left | reflexivity].
    + destruct (IH _ H) as (n' & t & Hin & E).
      exists n', t. split; [now right | exact E].
  - intros H. destruct (IH _ H) as (n' & t & Hin & E).
    exists n', t. split; [now right | exact E].
Qed.

Lemma links_distinct (now : nat -> Z) (nums : list nat)
    (m : list (nat * chart)) (calls : nat) :
  NoDup nums -> Forall (fun n => In n (seq 1 4)) nums ->
  NoDup (map name (links now calls nums m)).
Proof.
  intros Hnd. revert calls.
  induction Hnd as [|n nums Hn _ IH]; intros calls Hf; simpl;
    [constructor|].
  apply Forall_cons_iff in Hf. destruct Hf as [H4 Hf].
  destruct (instance n m); simpl; auto.
  constructor; auto.
  intros Hin. apply links_names in Hin.
  destruct Hin as (n' & t & Hn' & E).
  apply name_number in E; auto.
  - now subst.
  - rewrite Forall_forall in Hf. auto.
Qed.

Lemma download_live (now : nat -> Z) (p : page) (data : option (list object)) :
  reachable p data [] ->
  map image (download now p) = live p
  /\ NoDup (map name (download now p)).
Proof.
  intros H. destruct (reachable_ascending _ _ _ H) as [Hs Hf].
  apply reachable_consistent in H. destruct H as (Hlive & _ & Hnd).
  simpl in Hs, Hf, Hnd. rewrite app_nil_r in Hs, Hf, Hnd.
  unfold download, chartNums. rewrite (insertKey_sorted _ Hs). split.
  - rewrite links_images, instance_keys; auto.
  - apply links_distinct; auto.
Qed.

End Download.

(** X18: between two responses, the download handler exports every live
    chart once, in the order of the canvases, and under file names that
    differ from one another, whatever the clock says. *)
Theorem download_exports_each_live_chart
    (now : nat -> Z) (p : Part000.page) (data : option (list object)) :
  Part000.reachable p data [] ->
  map Results.image (Results.download now p) = Part000.live p
  /\ NoDup (map Results.name (Results.download now p))
  /\ StronglySorted lt (map Part000.canvas (Part000.live p)).
Proof.
  intros H. destruct (download_live now p data H) as [H1 H2].
  repeat split; auto.
  destruct (reachable_ascending _ _ _ H) as [Hs _].
  apply reachable_consistent in H. destruct H as (Hlive & Hc & _).
  simpl in Hs. rewrite app_nil_r in Hs. rewrite Hlive, map_map.
  rewrite (map_ext_in _ fst); [rewrite <- map_map; now rewrite map_id|].
  intros [n c] Hin. simpl. apply (Hc n c Hin).
Qed.

(** The two charts of a response, exported in the same millisecond. *)
Lemma download_exports_each_live_chart_two :
  map Results.name
      (Results.download (fun _ => 1700000000000)
         (Part000.updateResults Scenario.twoCharts Part000.initial))
  = ["chart_1_1700000000000.png"; "chart_2_1700000000000.png"]
  /\ NoDup (map Results.name
              (Results.download (fun _ => 1700000000000)
                 (Part000.updateResults Scenario.twoCharts Part000.initial))).
Proof.
  split; [vm_compute; reflexivity|].
  apply (download_exports_each_live_chart (fun _ => 1700000000000) _
           (Part000.results Scenario.twoCharts)).
  apply (updateResults_reachable _ None). constructor.
Defined.

(** X19: the download button shows as soon as the response has a chart,
    also when none of its charts can be drawn; the handler then exports
    nothing. *)
Theorem download_button_without_chart
    (message : Part000.chartData -> option (list object) -> string)
    (now : nat -> Z)
    (r : Part000.response) (p : Part000.page) (v : Results.view)
    (data : option (list object)) :
  Part000.reachable p data [] ->
  Part000.charts r <> None -> Part000.charts r <> Some [] ->
  (forall n cd, In (n, cd) (Part000.toDraw r) ->
                Part000.resolve cd (Part000.results r) = None) ->
  let s := Results.updateResults message r (p, v) in
  Results.downloadBtn (snd s) = "block"
  /\ Part000.live (fst s) = []
  /\ Results.download now (fst s) = [].
Proof.
  intros H Hc Hc' Hall s. subst s. rewrite updateResults_page.
  assert (Hl : Part000.live (Part000.updateResults r p) = []).
  { apply map_eq_nil with (f := Part000.look).
    rewrite (updateResults_live p data r H).
    unfold Part000.drawn. induction (Part000.toDraw r) as [|[n cd] l IH];
      simpl; auto.
    rewrite (Hall n cd) by (simpl; auto). simpl. apply IH.
    intros n' cd' Hin. apply (Hall n' cd'). simpl. auto. }
  repeat split; auto.
  - unfold Results.updateResults.
    destruct (Part000.charts r) as [[|c cs]|]; [congruence| |congruence].
    reflexivity.
  - apply map_eq_nil with (f := Results.image).
    rewrite <- Hl.
    apply (download_live now _ (Part000.results r)).
    now apply (updateResults_reachable p data r).
Qed.

(** A response whose only chart has no type. *)
Lemma download_button_without_chart_untyped :
  let r := {| Part000.sql_query := None;
              Part000.results := Some Scenario.sales;
              Part000.charts :=
                Some [ {| Part000.title := None;
                          Part000.config :=
                            blueprint None (Wrapped ["city"])
                              (Wrapped ["sales"]) None [] None |} ] |} in
  let s := Results.updateResults (fun _ _ => "no type") r
             (Part000.initial,
              {| Results.slots := fun _ => Results.waiting;
                 Results.downloadBtn := "none";
                 Results.resultsSection := [] |}) in
  Results.downloadBtn (snd s) = "block"
  /\ Part000.live (fst s) = []
  /\ Results.download (fun _ => 0) (fst s) = [].
Proof.
  intros r.
  apply (download_button_without_chart (fun _ _ => "no type") (fun _ => 0) r
           Part000.initial _ None Part000.reach_initial).
  - discriminate.
  - discriminate.
  - intros n cd [[= <- <-]|[]]. reflexivity.
Defined.

(** ** The insights panel of the single-chart revision *)

Section Handle.
Import Script Insights.

Lemma updateInsights_page (r : response) (p : page) (v : view) :
  fst (Insights.updateInsights r (p, v)) = Script.updateInsights r p.
Proof.
  unfold Insights.updateInsights, Script.updateInsights.
  destruct (chart_config r); reflexivity.
Qed.

(** The handle holds the chart made last, alive or destroyed. *)
Lemma handle_latest (p : page) :
  reachable p ->
  match chartInstance p with
  | Some c => S (uid c) = made p /\ (live p = [c] \/ live p = [])
  | None => made p = O /\ live p = []
  end.
Proof.
  induction 1 as [|p r _ IH]; [simpl; auto|].
  unfold Script.updateInsights. destruct (chart_config r) as [config|]; auto.
  unfold renderChart.
  assert (Hd : chartInstance (destroyPrevious p) = chartInstance p
               /\ made (destroyPrevious p) = made p
               /\ live (destroyPrevious p) = []).
  { unfold destroyPrevious.
    destruct (chartInstance p) as [c|] eqn:Ec; simpl; rewrite ?Ec.
    - repeat split. destruct IH as [_ [E|E]]; rewrite E; simpl; auto.
      now rewrite Nat.eqb_refl.
    - tauto. }
  destruct Hd as (Hc & Hm & Hl).
  destruct (resolve config (results r)); simpl.
  - rewrite Hl. auto.
  - rewrite Hc, Hm, Hl. destruct (chartInstance p); tauto.
Qed.

End Handle.

(** X20: in the single-chart revision [downloadChart] saves the chart
    made last, which is the only chart that can be alive; it does nothing
    exactly as long as no chart was ever made. *)
Theorem downloadChart_saves_latest_chart (p : Script.page) :
  Script.reachable p ->
  match Insights.downloadChart p with
  | Some c =>
      S (Script.uid c) = Script.made p
      /\ (Script.live p = [c] \/ Script.live p = [])
  | None => Script.made p = O /\ Script.live p = []
  end.
Proof. apply handle_latest. Qed.

(** After a chart of the sales rows. *)
Lemma downloadChart_saves_latest_chart_sales :
  let p := Script.updateInsights
             {| Script.sql_query := None;
                Script.results := Some Scenario.sales;
                Script.chart_config := Some (Scenario.bareBar "city" "sales") |}
             Script.initial in
  Script.reachable p
  /\ match Insights.downloadChart p with
     | Some c =>
         S (Script.uid c) = Script.made p
         /\ (Script.live p = [c] \/ Script.live p = [])
     | None => Script.made p = O /\ Script.live p = []
     end.
Proof.
  intros p.
  assert (H : Script.reachable p) by (apply Script.reach_response; constructor).
  split; [exact H | exact (downloadChart_saves_latest_chart p H)].
Defined.

(** X21: when the chart of a response cannot be built, the panel shows the
    canvas, the failure paragraph and the download button, and no chart is
    alive: the button then saves the chart of an earlier response, which
    has been destroyed, or nothing. *)
Theorem download_offered_after_failed_chart
    (r : Script.response) (p : Script.page) (v : Insights.view)
    (config : Blueprint.config) :
  Script.reachable p ->
  Script.chart_config r = Some config ->
  Script.resolve config (Script.results r) = None ->
  let s := Insights.updateInsights r (p, v) in
  Insights.downloadBtn (snd s) = "block"
  /\ In Insights.Canvas (Insights.insightBox (snd s))
  /\ In Insights.Failure (Insights.insightBox (snd s))
  /\ Script.live (fst s) = []
  /\ Insights.downloadChart (fst s) = Script.chartInstance p.
Proof.
  intros H Hc Hr s. subst s.
  unfold Insights.updateInsights, Insights.downloadChart.
  rewrite Hc, Hr. cbn [fst snd Insights.downloadBtn Insights.insightBox].
  repeat split.
  - apply in_or_app. left. apply in_or_app. right. now left.
  - apply in_or_app. right. now left.
  - unfold Script.renderChart. rewrite Hr.
    apply (single_chart_one_live p H).
  - unfold Script.renderChart. rewrite Hr. unfold Script.destroyPrevious.
    destruct (Script.chartInstance p) eqn:E; auto.
Qed.

(** A chart of the sales rows, then a response without rows. *)
Lemma download_offered_after_failed_chart_no_rows :
  let first := {| Script.sql_query := None;
                  Script.results := Some Scenario.sales;
                  Script.chart_config :=
                    Some (Scenario.bareBar "city" "sales") |} in
  let second := {| Script.sql_query := None;
                   Script.results := None;
                   Script.chart_config :=
                     Some (Scenario.bareBar "city" "sales") |} in
  let p := Script.updateInsights first Script.initial in
  let s := Insights.updateInsights second
             (p, {| Insights.insightBox := [];
                    Insights.downloadBtn := "none" |}) in
  Insights.downloadBtn (snd s) = "block"
  /\ Script.live (fst s) = []
  /\ option_map Script.uid (Insights.downloadChart (fst s)) = Some O.
Proof.
  intros first second p s.
  assert (H : Script.reachable p) by (apply Script.reach_response; constructor).
  destruct (download_offered_after_failed_chart second p
              {| Insights.insightBox := []; Insights.downloadBtn := "none" |}
              (Scenario.bareBar "city" "sales") H eq_refl eq_refl)
    as (H1 & _ & _ & H2 & H3).
  split; [exact H1|]. split; [exact H2|].
  fold s in H3. rewrite H3. vm_compute. reflexivity.
Defined.



(** ** The tables of the two revisions *)

Section TwoTables.
Import Results.

Lemma append_empty (a : string) : (a ++ "")%string = a.
Proof. induction a as [|x a IH]; simpl; congruence. Qed.

Lemma fold_append_prefix {A : Type} (f : A -> string) (l : list A)
    (a b : string) :
  fold_left (fun table x => (table ++ f x)%string) l (a ++ b)%string
  = (a ++ fold_left (fun table x => (table ++ f x)%string) l b)%string.
Proof.
  revert b. induction l as [|x l IH]; intros b; simpl; auto.
  now rewrite append_assoc, IH.
Qed.

Lemma bodyRow_prefix (headers : list string) (a b : string) (row : object) :
  bodyRow headers (a ++ b)%string row = (a ++ bodyRow headers b row)%string.
Proof.
  unfold bodyRow.
  rewrite append_assoc.
  rewrite (fold_append_prefix
             (fun h => ("<td>" ++ ToString (get row h) ++ "</td>")%string)).
  now rewrite append_assoc.
Qed.

Lemma body_prefix (headers : list string) (rows : list object) (a b : string) :
  fold_left (bodyRow headers) rows (a ++ b)%string
  = (a ++ fold_left (bodyRow headers) rows b)%string.
Proof.
  revert b. induction rows as [|row rows IH]; intros b; simpl; auto.
  now rewrite bodyRow_prefix, IH.
Qed.

Lemma headerCells_plain (headers : list string) (table : string) :
  (forall h, In h headers -> stripBackticks h = h) ->
  headerCells headers table
  = fold_left (fun table h => (table ++ "<th>" ++ h ++ "</th>")%string)
              headers table.
Proof.
  intros H. unfold headerCells. apply fold_left_ext_in.
  intros a h Hh. now rewrite (H h Hh).
Qed.

End TwoTables.

(** X23: for up to fifty rows whose column names have no backtick, the
    table of the dashboard revision and the table of the single-chart
    revision differ by the class of the [table] element only. *)
Theorem tables_differ_by_class_only (first : object) (rows : list object) :
  (List.length (first :: rows) <= 50)%nat ->
  (forall h, In h (keys first) -> Results.stripBackticks h = h) ->
  exists body : string,
    Results.createTable (first :: rows)
    = Some ("<div class=" ++ Results.quote ++ "table-wrapper" ++ Results.quote
            ++ "><table class=" ++ Results.quote ++ "results-table"
            ++ Results.quote ++ "><thead><tr>" ++ body)%string
    /\ Insights.createTable (first :: rows)
       = Some ("<div class=" ++ Results.quote ++ "table-wrapper"
               ++ Results.quote ++ "><table><thead><tr>" ++ body)%string.
Proof.
  intros Hl Hh.
  exists (fold_left (Results.bodyRow (keys first)) (first :: rows)
            (fold_left (fun table h => (table ++ "<th>" ++ h ++ "</th>")%string)
                       (keys first) ""
             ++ "</tr></thead><tbody>")
          ++ "</tbody></table></div>")%string.
  unfold Results.createTable, Insights.createTable.
  rewrite (firstn_all2 (first :: rows) Hl).
  destruct (Nat.ltb_spec 50 (List.length (first :: rows))) as [Hgt|_];
    [lia|].
  rewrite (headerCells_plain _ _ Hh).
  set (A := ("<div class=" ++ Results.quote ++ "table-wrapper"
             ++ Results.quote ++ "><table class=" ++ Results.quote
             ++ "results-table" ++ Results.quote ++ "><thead><tr>")%string).
  set (B := (("<div class=" ++ Results.quote ++ "table-wrapper"
              ++ Results.quote ++ ">") ++ "<table><thead><tr>")%string).
  assert (P : forall X : string,
             (fold_left (Results.bodyRow (keys first)) (first :: rows)
                (fold_left
                   (fun table h => (table ++ "<th>" ++ h ++ "</th>")%string)
                   (keys first) X
                 ++ "</tr></thead><tbody>")
              ++ "</tbody></table></div>")%string
             = (X ++ fold_left (Results.bodyRow (keys first)) (first :: rows)
                       (fold_left
                          (fun table h =>
                             (table ++ "<th>" ++ h ++ "</th>")%string)
                          (keys first) ""
                        ++ "</tr></thead><tbody>")
                  ++ "</tbody></table></div>")%string).
  { intros X. rewrite <- (append_empty X) at 1.
    rewrite (fold_append_prefix
               (fun h : string => ("<th>" ++ h ++ "</th>")%string)).
    rewrite append_assoc, body_prefix.
    now rewrite append_assoc. }
  split.
  - rewrite (P A). reflexivity.
  - rewrite (P B). reflexivity.
Qed.

(** The sales rows. *)
Lemma tables_differ_by_class_only_sales :
  exists body : string,
    Results.createTable Scenario.sales
    = Some ("<div class=" ++ Results.quote ++ "table-wrapper" ++ Results.quote
            ++ "><table class=" ++ Results.quote ++ "results-table"
            ++ Results.quote ++ "><thead><tr>" ++ body)%string
    /\ Insights.createTable Scenario.sales
       = Some ("<div class=" ++ Results.quote ++ "table-wrapper"
               ++ Results.quote ++ "><table><thead><tr>" ++ body)%string.
Proof.
  apply tables_differ_by_class_only.
  - simpl. lia.
  - intros h [<-|[<-|[]]]; reflexivity.
Defined.

(** ** The file of a connection *)

Section Payload.
Import Connection.

Lemma split_comma_free (s : string) :
  commaFree s = true -> split "," s = [s].
Proof.
  induction s as [|c s IH]; simpl; auto.
  intros H. apply andb_prop in H. destruct H as [Hc Hs].
  apply negb_true_iff in Hc. rewrite Hc, (IH Hs). reflexivity.
Qed.

Lemma split_at_comma (a b : string) :
  commaFree a = true ->
  split "," (a ++ "," ++ b)%string = a :: split "," b.
Proof.
  induction a as [|c a IH]; simpl; auto.
  intros H. apply andb_prop in H. destruct H as [Hc Ha].
  apply negb_true_iff in Hc. rewrite Hc. simpl in IH. rewrite (IH Ha).
  reflexivity.
Qed.

End Payload.

(** X24: of what the reader gives for a file, [connectDataSource] sends
    the text after the first comma up to the next one: for a header and a
    payload without commas the payload, and nothing ([undefined]) when the
    text has no comma at all. *)
Theorem file_data_is_the_payload (header payload : string) :
  Connection.commaFree header = true ->
  Connection.commaFree payload = true ->
  Connection.file_data (header ++ "," ++ payload)%string = Some payload
  /\ Connection.file_data header = None.
Proof.
  intros Hh Hp. unfold Connection.file_data.
  rewrite (split_at_comma _ _ Hh), !split_comma_free by assumption.
  split; reflexivity.
Qed.

(** A data URL of a CSV file. *)
Lemma file_data_is_the_payload_csv :
  Connection.file_data "data:text/csv;base64,Y2l0eSxzYWxlcw=="
  = Some "Y2l0eSxzYWxlcw==".
Proof.
  apply (file_data_is_the_payload "data:text/csv;base64" "Y2l0eSxzYWxlcw==");
    reflexivity.
Defined.

(** ** The two revisions on the same blueprint *)

(** X25: on rows whose labels are pairwise distinct (and neither array
    indices nor names of members of [Object.prototype]), a blueprint that
    wraps its two column names resolves in both revisions, to the same
    points: the dashboard revision charts the labels of the single-chart
    revision as strings and its values as [parseFloat(value) || 0]. *)
Theorem revisions_chart_the_same_points
    (type : string) (labelKey dataKey : string) (color : option string)
    (others : list Blueprint.dataset) (options : option object)
    (title : option string) (rows : list object) :
  (toLowerCase dataKey =? "count")%string = false ->
  NoDup (map (Part000.label labelKey) rows) ->
  (forall row, In row rows ->
               isArrayIndex (Part000.label labelKey row) = false
               /\ prototypeGet (Part000.label labelKey row) = VUndefined) ->
  let config := blueprint (Some type) (Wrapped [labelKey]) (Wrapped [dataKey])
                          color others options in
  exists dashboard single,
    Part000.resolve {| Part000.title := title; Part000.config := config |}
                    (Some rows) = Some dashboard
    /\ Script.resolve config (Some rows) = Some single
    /\ Part000.chart_labels dashboard
       = map ToString (Script.chart_labels single)
    /\ Part000.chart_values dashboard
       = map (fun v => or (VNumber (parseFloat v)) (VNumber zero))
             (Script.chart_values single).
Proof.
  intros Hc Hnd Hp config. subst config.
  unfold Part000.resolve, Script.resolve, blueprint.
  cbn [Part000.config Blueprint.labels Blueprint.datasets hd_error
       Blueprint.data Blueprint.type Blueprint.options first
       Part000.asString Script.required present propertyKey String.concat
       ToString].
  rewrite (aggregate_distinct_labels labelKey dataKey rows Hc Hnd Hp).
  do 2 eexists. repeat split.
  - cbn [Part000.chart_labels Script.chart_labels Part000.agg_labels].
    rewrite map_map. reflexivity.
  - cbn [Part000.chart_values Script.chart_values Part000.agg_values].
    rewrite map_map. reflexivity.
Qed.

(** The three cities. *)
Lemma revisions_chart_the_same_points_cities :
  exists dashboard single,
    Part000.resolve {| Part000.title := None;
                       Part000.config := Scenario.bar "city" "sales" |}
                    (Some Cases.cities) = Some dashboard
    /\ Script.resolve (Scenario.bar "city" "sales") (Some Cases.cities)
       = Some single
    /\ Part000.chart_labels dashboard
       = map ToString (Script.chart_labels single)
    /\ Part000.chart_values dashboard
       = map (fun v => or (VNumber (parseFloat v)) (VNumber zero))
             (Script.chart_values single).
Proof.
  apply (revisions_chart_the_same_points "bar" "city" "sales" None [] None
           None Cases.cities).
  - reflexivity.
  - vm_compute. distinct.
  - intros row [<-|[<-|[<-|[]]]]; split; vm_compute; reflexivity.
Defined.

(** ** The chat transcript *)

Section Transcript.
Import Chat.

Lemma node_induction (P : node -> Prop) :
  (forall data, P (Text data)) ->
  (forall classes children,
      Forall P children -> P (Element classes children)) ->
  forall n, P n.
Proof.
  intros HT HE. fix IH 1. intros [classes children|data]; [|apply HT].
  apply HE. induction children as [|n children IHc]; constructor; auto.
Qed.

Lemma firstOf_none (f : node -> option node) (l : list node) :
  Forall (fun n => f n = None) l -> firstOf f l = None.
Proof.
  induction 1 as [|n l Hn _ IH]; simpl; auto. now rewrite Hn, IH.
Qed.

(** Where [.loading] matches nothing, nothing is answered. *)
Lemma answerNode_none (html : list node) (n : node) :
  loadingIn n = false -> answerNode html n = None.
Proof.
  induction n as [data|classes children IH] using node_induction; auto.
  simpl. intros H. apply orb_false_iff in H. destruct H as [Hc Hk].
  rewrite Hc. rewrite firstOf_none; auto.
  rewrite Forall_forall in IH. apply Forall_forall. intros n Hn.
  apply IH; auto.
  destruct (loadingIn n) eqn:E; auto.
  rewrite <- Hk. symmetry. apply existsb_exists. eauto.
Qed.

Lemma answerFirst_none (html chat : list node) :
  existsb loadingIn chat = false -> answerFirst html chat = None.
Proof.
  intros H. apply firstOf_none, Forall_forall. intros n Hn.
  apply answerNode_none.
  destruct (loadingIn n) eqn:E; auto.
  rewrite <- H. symmetry. apply existsb_exists. eauto.
Qed.

(** The first message that waits gets the answer. *)
Lemma answerFirst_first (html before after : list node)
    (classes : list string) (children : list node) :
  existsb loadingIn before = false ->
  isLoading classes = true ->
  answerFirst html (before ++ Element classes children :: after)
  = Some (before ++ Element (removeLoading classes) html :: after).
Proof.
  intros Hb Hc. unfold answerFirst.
  induction before as [|n before IH]; simpl.
  - now rewrite Hc.
  - simpl in Hb. apply orb_false_iff in Hb. destruct Hb as [Hn Hb].
    rewrite (answerNode_none html n Hn), (IH Hb). reflexivity.
Qed.

Lemma trimStart_blank (s : string) : blank s = true -> trimStart s = "".
Proof.
  induction s as [|c s IH]; simpl; auto.
  intros H. apply andb_prop in H. destruct H as [Hc Hs].
  rewrite Hc. auto.
Qed.

Lemma trimStart_head (s : string) :
  blank s = false ->
  exists c rest, trimStart s = String c rest /\ isWhiteSpace c = false.
Proof.
  induction s as [|c s IH]; simpl; [discriminate|].
  destruct (isWhiteSpace c) eqn:E; simpl; eauto.
Qed.

Lemma trim_blank (s : string) : trim s = "" <-> blank s = true.
Proof.
  unfold trim. split.
  - intros H. destruct (blank s) eqn:E; auto.
    destruct (trimStart_head s E) as (c & rest & Hs & Hc).
    rewrite Hs in H. simpl in H. rewrite Hc in H. discriminate.
  - intros H. now rewrite (trimStart_blank s H).
Qed.

Lemma existsb_app_false {A : Type} (f : A -> bool) (l l' : list A) :
  existsb f l = false -> existsb f l' = false -> existsb f (l ++ l') = false.
Proof. intros H H'. now rewrite existsb_app, H, H'. Qed.

End Transcript.

Lemma send_cases
    (parse : string -> list Chat.node) (waiting : string) (s : Chat.state) :
  (Chat.blank (Chat.userInput s) = true ->
   Chat.send parse waiting s = (s, None))
  /\ (Chat.blank (Chat.userInput s) = false ->
      exists chat,
        Chat.send parse waiting s
        = ({| Chat.chatBox := chat; Chat.userInput := "" |},
           Some (Chat.trim (Chat.userInput s)))
        /\ Chat.trim (Chat.userInput s) <> ""
        /\ chat = Chat.chatBox s
                  ++ [Chat.Element ["message"; "user-message"]
                        (parse (Chat.trim (Chat.userInput s)));
                      Chat.Element ["message"; "bot-message"; "loading"]
                        (parse waiting)]).
Proof.
  split.
  - intros H. unfold Chat.send.
    rewrite (proj2 (trim_blank _) H). reflexivity.
  - intros H. unfold Chat.send.
    destruct (String.eqb_spec (Chat.trim (Chat.userInput s)) "") as [E|E].
    + apply trim_blank in E. congruence.
    + eexists. split; [reflexivity|]. split; auto.
      unfold Chat.appendChatMessage. rewrite <- app_assoc. reflexivity.
Qed.

(** X26: [sendMessage] sends nothing and changes nothing when the input
    is empty or white space; otherwise it sends the trimmed input, empties
    the field and appends two messages, the prompt and the one that waits
    for the answer.  This holds in both revisions. *)
Theorem blank_prompt_is_not_sent
    (parse : string -> list Chat.node) (waiting : string) (s : Chat.state) :
  (Chat.blank (Chat.userInput s) = true ->
   Chat.send parse waiting s = (s, None))
  /\ (Chat.blank (Chat.userInput s) = false ->
      exists chat,
        Chat.send parse waiting s
        = ({| Chat.chatBox := chat; Chat.userInput := "" |},
           Some (Chat.trim (Chat.userInput s)))
        /\ Chat.trim (Chat.userInput s) <> ""
        /\ chat = Chat.chatBox s
                  ++ [Chat.Element ["message"; "user-message"]
                        (parse (Chat.trim (Chat.userInput s)));
                      Chat.Element ["message"; "bot-message"; "loading"]
                        (parse waiting)])
  /\ Chat.Dashboard.sendMessage parse s
     = Chat.send parse "<p>Analyzing...</p>" s
  /\ Chat.Single.sendMessage parse s = Chat.send parse "<p>Thinking...</p>" s.
Proof.
  destruct (send_cases parse waiting s) as [H1 H2].
  repeat split; auto.
Qed.

(** X27: the answer that arrives first goes to the question asked first,
    whichever request it answers: after two prompts, [updateChat] puts its
    text in the message that waits under the first prompt, and the message
    under the second prompt keeps waiting (nothing in the transcript before
    or in the first prompt being of class [loading]). *)
Theorem answer_goes_to_oldest_question
    (parse : string -> list Chat.node) (chat : list Chat.node)
    (first second : string) (summary : option string) :
  existsb Chat.loadingIn chat = false ->
  existsb Chat.loadingIn (parse (Chat.trim first)) = false ->
  Chat.blank first = false ->
  Chat.blank second = false ->
  let s1 := fst (Chat.Dashboard.sendMessage parse
                   {| Chat.chatBox := chat; Chat.userInput := first |}) in
  let s2 := fst (Chat.Dashboard.sendMessage parse
                   {| Chat.chatBox := Chat.chatBox s1;
                      Chat.userInput := second |}) in
  Chat.Dashboard.updateChat parse summary (Chat.chatBox s2)
  = chat
    ++ [Chat.Element ["message"; "user-message"] (parse (Chat.trim first));
        Chat.Element ["message"; "bot-message"]
          (parse (Chat.Dashboard.chatHtml summary));
        Chat.Element ["message"; "user-message"] (parse (Chat.trim second));
        Chat.Element ["message"; "bot-message"; "loading"]
          (parse "<p>Analyzing...</p>")].
Proof.
  intros Hchat Hfirst B1 B2 s1 s2.
  destruct (proj2 (send_cases parse "<p>Analyzing...</p>"
                            {| Chat.chatBox := chat;
                               Chat.userInput := first |}) B1)
    as (c1 & E1 & _ & Hc1).
  assert (S1 : s1 = {| Chat.chatBox := c1; Chat.userInput := "" |}).
  { subst s1. unfold Chat.Dashboard.sendMessage. now rewrite E1. }
  destruct (proj2 (send_cases parse "<p>Analyzing...</p>"
                            {| Chat.chatBox := Chat.chatBox s1;
                               Chat.userInput := second |}) B2)
    as (c2 & E2 & _ & Hc2).
  assert (S2 : Chat.chatBox s2 = c2).
  { subst s2. unfold Chat.Dashboard.sendMessage. now rewrite E2. }
  rewrite S2, Hc2, S1, Hc1. cbn [Chat.chatBox Chat.userInput].
  unfold Chat.Dashboard.updateChat.
  set (u1 := Chat.Element ["message"; "user-message"]
               (parse (Chat.trim first))).
  set (u2 := Chat.Element ["message"; "user-message"]
               (parse (Chat.trim second))).
  set (w := parse "<p>Analyzing...</p>").
  replace ((chat ++ [u1; Chat.Element ["message"; "bot-message"; "loading"] w])
           ++ [u2; Chat.Element ["message"; "bot-message"; "loading"] w])
    with ((chat ++ [u1])
          ++ Chat.Element ["message"; "bot-message"; "loading"] w
          :: [u2; Chat.Element ["message"; "bot-message"; "loading"] w])
    by (rewrite <- !app_assoc; reflexivity).
  rewrite answerFirst_first.
  - rewrite <- app_assoc. reflexivity.
  - apply existsb_app_false; auto. subst u1. simpl.
    now rewrite Hfirst.
  - reflexivity.
Qed.

(** Two prompts, with a parser that makes a text node of everything. *)
Lemma answer_goes_to_oldest_question_twice :
  let parse := fun s : string => [Chat.Text s] in
  let s1 := fst (Chat.Dashboard.sendMessage parse
                   {| Chat.chatBox := []; Chat.userInput := " sales by city " |}) in
  let s2 := fst (Chat.Dashboard.sendMessage parse
                   {| Chat.chatBox := Chat.chatBox s1;
                      Chat.userInput := "top city" |}) in
  Chat.Dashboard.updateChat parse (Some "NY sells most.") (Chat.chatBox s2)
  = [Chat.Element ["message"; "user-message"] [Chat.Text "sales by city"];
     Chat.Element ["message"; "bot-message"] [Chat.Text "<p>NY sells most.</p>"];
     Chat.Element ["message"; "user-message"] [Chat.Text "top city"];
     Chat.Element ["message"; "bot-message"; "loading"]
       [Chat.Text "<p>Analyzing...</p>"]].
Proof.
  intros parse s1 s2.
  exact (answer_goes_to_oldest_question parse [] " sales by city " "top city"
           (Some "NY sells most.") eq_refl eq_refl eq_refl eq_refl).
Defined.

(** X28: when no message of the transcript waits for an answer, the
    dashboard revision appends the answer as a new message, while the
    single-chart revision drops it and leaves the transcript as it is. *)
Theorem answer_without_waiting_message
    (parse : string -> list Chat.node) (summary : option string)
    (results : option (list object)) (chat : list Chat.node) :
  existsb Chat.loadingIn chat = false ->
  Chat.Dashboard.updateChat parse summary chat
  = chat ++ [Chat.Element ["message"; "bot-message"]
               (parse (Chat.Dashboard.chatHtml summary))]
  /\ Chat.Single.updateChat parse summary results chat = chat.
Proof.
  intros H. unfold Chat.Dashboard.updateChat, Chat.Single.updateChat.
  rewrite !answerFirst_none by assumption. split; reflexivity.
Qed.

(** An answer to an empty transcript. *)
Lemma answer_without_waiting_message_empty :
  let parse := fun s : string => [Chat.Text s] in
  Chat.Dashboard.updateChat parse None []
  = [Chat.Element ["message"; "bot-message"]
       [Chat.Text "<p>Analysis complete.</p>"]]
  /\ Chat.Single.updateChat parse None None [] = [].
Proof.
  intros parse.
  exact (answer_without_waiting_message parse None None [] eq_refl).
Defined.
